(** * Lobster Trimmer: a shallow embedding of [Trimmer.py]

    The development follows the layout of the Python file: the utility
    functions ([sanitize], [hhmmss]), the download worker, the three-handle
    [RangeSlider] widget and the trim action of [MainUI].

    Python [int] is [Z].  Methods that mutate [self] and emit Qt signals are
    functions from the object's state to the new state and the list of
    signals emitted, in emission order. *)

From Stdlib Require Import ZArith List Bool Lia.
From Stdlib Require Import Ascii String DecimalString.
From Stdlib Require Import SpecFloat.
Import ListNotations.

Local Open Scope Z_scope.

(* ------------------------------------------------------------------ *)
(** * Python numbers

  [Trimmer.py] mixes [int] and [float]: the true division [/] yields a
  float, [int()] and [round()] bring it back to an integer.  A Python
  float is an IEEE 754 binary64 number; it is modelled by the Standard
  Library's [spec_float] at precision 53 and maximal exponent 1024, with
  the library's specification of the IEEE operations ([SFadd], [SFmul],
  [SFdiv], ...).  An operation that raises returns [None]. *)

Module PyNum.

Definition prec : Z := 53.
Definition emax : Z := 1024.

Inductive num : Type :=
| PInt (z : Z)
| PFloat (f : spec_float).

Definition bind {A B : Type} (x : option A) (k : A -> option B) : option B :=
  match x with
  | Some a => k a
  | None => None
  end.

Definition finite_or_raise (f : spec_float) : option spec_float :=
  match f with
  | S754_infinity _ => None
  | _ => Some f
  end.

(** [float(z)]: the nearest binary64 number, ties to even;
    [OverflowError] when [z] is out of range. *)
Definition float_of_int (z : Z) : option spec_float :=
  finite_or_raise (binary_normalize prec emax z 0 false).

Definition to_float (a : num) : option spec_float :=
  match a with
  | PInt z => float_of_int z
  | PFloat f => Some f
  end.

(** The integer [z] as an exact, not necessarily normalised, significand
    with exponent 0. *)
Definition int_as_sf (z : Z) : spec_float :=
  match z with
  | Z0 => S754_zero false
  | Zpos p => S754_finite false p 0
  | Zneg p => S754_finite true p 0
  end.

Definition is_zero (f : spec_float) : bool :=
  match f with
  | S754_zero _ => true
  | _ => false
  end.

(** [a / b].  On two ints Python returns the correctly rounded quotient
    of the exact integers; otherwise both operands become floats. *)
Definition truediv (a b : num) : option spec_float :=
  match a, b with
  | PInt x, PInt y =>
      if y =? 0 then None
      else finite_or_raise (SFdiv prec emax (int_as_sf x) (int_as_sf y))
  | _, _ =>
      bind (to_float a) (fun fa =>
      bind (to_float b) (fun fb =>
      if is_zero fb then None else Some (SFdiv prec emax fa fb)))
  end.

Definition arith (fz : Z -> Z -> Z)
    (ff : spec_float -> spec_float -> spec_float) (a b : num) : option num :=
  match a, b with
  | PInt x, PInt y => Some (PInt (fz x y))
  | _, _ =>
      bind (to_float a) (fun fa =>
      bind (to_float b) (fun fb => Some (PFloat (ff fa fb))))
  end.

Definition add : num -> num -> option num := arith Z.add (SFadd prec emax).
Definition sub : num -> num -> option num := arith Z.sub (SFsub prec emax).
Definition mul : num -> num -> option num := arith Z.mul (SFmul prec emax).

(** An int against a float: Python compares the exact values. *)
Definition compare_int_float (z : Z) (f : spec_float) : option comparison :=
  match f with
  | S754_nan => None
  | S754_infinity s => Some (if s then Gt else Lt)
  | S754_zero _ => Some (z ?= 0)
  | S754_finite s m e =>
      let v := cond_Zopp s (Zpos m) in
      if 0 <=? e then Some (z ?= v * 2 ^ e)
      else Some (z * 2 ^ (- e) ?= v)
  end.

Definition compare (a b : num) : option comparison :=
  match a, b with
  | PInt x, PInt y => Some (x ?= y)
  | PInt x, PFloat g => compare_int_float x g
  | PFloat f, PInt y => option_map CompOpp (compare_int_float y f)
  | PFloat f, PFloat g => SFcompare f g
  end.

(** [a < b] *)
Definition lt (a b : num) : bool :=
  match compare a b with
  | Some Lt => true
  | _ => false
  end.

(** [min(a, b)] and [max(a, b)]: the first argument is kept unless the
    second is strictly smaller (resp. greater). *)
Definition min2 (a b : num) : num := if lt b a then b else a.
Definition max2 (a b : num) : num := if lt a b then b else a.

(** [int(a)]: truncation towards zero; raises on NaN and infinities. *)
Definition py_int (a : num) : option Z :=
  match a with
  | PInt z => Some z
  | PFloat (S754_zero _) => Some 0
  | PFloat (S754_finite s m e) =>
      Some (cond_Zopp s
              (if 0 <=? e then Zpos m * 2 ^ e else Zpos m / 2 ^ (- e)))
  | PFloat _ => None
  end.

(** [round(a)]: the nearest integer, ties to even; raises on NaN and
    infinities. *)
Definition round_half_even (m k : Z) : Z :=
  let q := m / 2 ^ k in
  let r := m mod 2 ^ k in
  match 2 * r ?= 2 ^ k with
  | Lt => q
  | Gt => q + 1
  | Eq => if Z.even q then q else q + 1
  end.

Definition py_round (a : num) : option Z :=
  match a with
  | PInt z => Some z
  | PFloat (S754_zero _) => Some 0
  | PFloat (S754_finite s m e) =>
      Some (cond_Zopp s
              (if 0 <=? e then Zpos m * 2 ^ e
               else round_half_even (Zpos m) (- e)))
  | PFloat _ => None
  end.

(** Truth value of a number ([x or y], [if x:]). *)
Definition truthy (a : num) : bool :=
  match a with
  | PInt z => negb (z =? 0)
  | PFloat f => negb (is_zero f)
  end.

End PyNum.

(* ------------------------------------------------------------------ *)
(** * Python strings

  A Python [str] is a sequence of Unicode code points. *)

Module PyStr.

Definition char : Type := N.
Definition str : Type := list char.

(** An ASCII literal of the source. *)
Definition lit (s : string) : str := map N_of_ascii (list_ascii_of_string s).

(** The double quote, code point 34. *)
Definition dquote : ascii := ascii_of_nat 34.

(** [c in s] for a one-character string [c]. *)
Definition char_in (c : char) (s : str) : bool := existsb (N.eqb c) s.

(** ["%d" % z] and [str(z)] on an int. *)
Definition str_of_int (z : Z) : str :=
  lit (DecimalString.NilZero.string_of_int (Z.to_int z)).

(** ["%02d" % z] *)
Definition pad2 (z : Z) : str :=
  let d := str_of_int z in
  if (List.length d <? 2)%nat then lit "0" ++ d else d.

End PyStr.

(* ------------------------------------------------------------------ *)
(** * Utility functions *)

Module Util.
Import PyNum PyStr.

(** [INVALID]: a raw string literal, so both of its backslashes are
    characters of it; the double quote is its fourth character. *)
Definition INVALID : str := lit ("<>:" ++ String dquote "/\\|?*")%string.

(** ["".join(c if c not in INVALID else repl for c in t)] *)
Fixpoint sanitize (t repl : str) : str :=
  match t with
  | [] => []
  | c :: t' => (if negb (char_in c INVALID) then [c] else repl) ++ sanitize t' repl
  end.

(** The default argument [repl="-"]. *)
Definition sanitize_default (t : str) : str := sanitize t (lit "-").

(** [datetime.timedelta] restricted to whole seconds, normalised as the
    constructor does: [0 <= seconds < 86400]. *)
Record timedelta : Type := { days : Z; seconds : Z }.

(** [timedelta(seconds=n)]; [OverflowError] beyond 999999999 days. *)
Definition timedelta_of_seconds (n : Z) : option timedelta :=
  let d := n / 86400 in
  if (-999999999 <=? d) && (d <=? 999999999)
  then Some {| days := d; seconds := n mod 86400 |}
  else None.

(** [timedelta.__str__] *)
Definition timedelta_str (td : timedelta) : str :=
  let mm := seconds td / 60 in
  let ss := seconds td mod 60 in
  let hh := mm / 60 in
  let mm := mm mod 60 in
  let s := str_of_int hh ++ lit ":" ++ pad2 mm ++ lit ":" ++ pad2 ss in
  if days td =? 0 then s
  else str_of_int (days td) ++ lit " day"
       ++ (if Z.abs (days td) =? 1 then [] else lit "s") ++ lit ", " ++ s.

(** [str(timedelta(seconds=int(sec)))] *)
Definition hhmmss (sec : num) : option str :=
  bind (py_int sec) (fun n =>
  bind (timedelta_of_seconds n) (fun td =>
  Some (timedelta_str td))).

End Util.

(* ------------------------------------------------------------------ *)
(** * DownloadWorker *)

Module DownloadWorker.
Import PyNum PyStr.

(** What [run] can catch: an exception of the extraction library, the
    [RuntimeError] it raises itself, or an arithmetic exception of the
    progress hook. *)
Inductive exn : Type :=
| LibraryError (msg : str)
| RuntimeError (msg : str)
| HookError.

(** The signals of the worker, recorded as the calls to [emit]; [error]
    carries [str(e)]. *)
Inductive signal : Type :=
| finished (path : str) (dur : num)
| error (e : exn)
| progress (pct : Z).

(** The fields of a progress dictionary that [phook] reads; [None] is an
    absent key or a [None] value. *)
Record hook_dict : Type := {
  status : str;
  downloaded_bytes : option num;
  total_bytes : option num;
  total_bytes_estimate : option num
}.

Definition str_eqb (a b : str) : bool :=
  if list_eq_dec N.eq_dec a b then true else false.

(** [x or y] on optional numbers. *)
Definition py_or (x y : option num) : option num :=
  match x with
  | Some a => if truthy a then x else y
  | None => y
  end.

Definition from_option {A : Type} (x : option A) (d : A) : A :=
  match x with
  | Some a => a
  | None => d
  end.

(** The progress hook: the signals it emits, [None] when it raises. *)
Definition phook (d : hook_dict) : option (list signal) :=
  if str_eqb (status d) (lit "downloading") then
    match py_or (total_bytes d) (total_bytes_estimate d) with
    | Some t =>
        if truthy t then
          bind (mul (from_option (downloaded_bytes d) (PInt 0)) (PInt 100)) (fun n =>
          bind (truediv n t) (fun q =>
          bind (py_int (PFloat q)) (fun pct =>
          Some [progress pct])))
        else Some []
    | None => Some []
    end
  else Some [].

(** The metadata dictionary returned by [extract_info]. *)
Record info : Type := {
  duration : option num;
  title : option str
}.

(** What the outside world does during one [run]: the metadata query, the
    progress dictionaries passed to the hook, how [download] ends, and
    whether the output file exists afterwards. *)
Record world : Type := {
  extract_info : exn + info;
  hook_calls : list hook_dict;
  download : option exn;
  mp4_exists : bool
}.

(** The hook over the progress dictionaries of one download; the signals
    emitted, and whether a call raised. *)
Fixpoint run_hooks (ds : list hook_dict) : list signal * bool :=
  match ds with
  | [] => ([], false)
  | d :: ds' =>
      match phook d with
      | None => ([], true)
      | Some sg => let '(rest, raised) := run_hooks ds' in (sg ++ rest, raised)
      end
  end.

Definition joinpath (dir name : str) : str := dir ++ lit "/" ++ name.

Definition run (tmp : str) (w : world) : list signal :=
  match extract_info w with
  | inl e => [error e]
  | inr i =>
      let dur := from_option (py_or (duration i) None) (PInt 0) in
      let title :=
        match title i with
        | Some (c :: r) => c :: r
        | _ => lit "clip"
        end in
      let safe := Util.sanitize_default title in
      let '(sg, raised) := run_hooks (hook_calls w) in
      if raised then sg ++ [error HookError]
      else
        match download w with
        | Some e => sg ++ [error e]
        | None =>
            let mp4 := joinpath tmp (safe ++ lit ".mp4") in
            if mp4_exists w
            then sg ++ [progress 100; finished mp4 dur]
            else sg ++ [error (RuntimeError (lit "Download finished but .mp4 not found."))]
        end
  end.

End DownloadWorker.

(* ------------------------------------------------------------------ *)
(** * RangeSlider *)

Module RangeSlider.
Import PyNum.

(** The three [pyqtSignal(int)] attributes of the class.  A signal list
    records the calls to [emit] with their Python argument; what Qt does
    with a call (the slots connected to it, [blockSignals]) is outside
    this module. *)
Inductive signal : Type :=
| lowerValueChanged (v : Z)
| upperValueChanged (v : Z)
| valueChanged (v : Z).

(** The instance attributes read by the value helpers and by the
    coordinate mapping.  [width] is the widget's width, owned by Qt and
    read through [self.width()]. *)
Record t : Type := mk {
  _min : Z;
  _max : Z;
  _lower : Z;
  _upper : Z;
  _value : Z;
  _handle_r : Z;
  width : Z
}.

Definition set_lower (s : t) (v : Z) : t :=
  mk (_min s) (_max s) v (_upper s) (_value s) (_handle_r s) (width s).
Definition set_upper (s : t) (v : Z) : t :=
  mk (_min s) (_max s) (_lower s) v (_value s) (_handle_r s) (width s).
Definition set_value (s : t) (v : Z) : t :=
  mk (_min s) (_max s) (_lower s) (_upper s) v (_handle_r s) (width s).

(** [__init__(minimum=0, maximum=99)] for a widget [w] pixels wide. *)
Definition init (minimum maximum w : Z) : t :=
  mk minimum maximum minimum maximum minimum 8 w.

Definition lowerValue (s : t) : Z := _lower s.
Definition upperValue (s : t) : Z := _upper s.
Definition value (s : t) : Z := _value s.

Definition setRange (s : t) (a b : Z) : t * list signal :=
  (mk a b a b (Z.max a (Z.min (_value s) b)) (_handle_r s) (width s), []).

Definition setLowerValue (s : t) (v : Z) : t * list signal :=
  let v := Z.max (_min s) (Z.min v (_upper s)) in
  if v =? _lower s then (s, [])
  else
    let s1 := set_lower s v in
    if _value s1 <? v
    then (set_value s1 v, [valueChanged v; lowerValueChanged v])
    else (s1, [lowerValueChanged v]).

Definition setUpperValue (s : t) (v : Z) : t * list signal :=
  let v := Z.min (_max s) (Z.max v (_lower s)) in
  if v =? _upper s then (s, [])
  else
    let s1 := set_upper s v in
    if _value s1 >? v
    then (set_value s1 v, [valueChanged v; upperValueChanged v])
    else (s1, [upperValueChanged v]).

Definition setValue (s : t) (v : Z) : t * list signal :=
  let v := Z.max (_lower s) (Z.min v (_upper s)) in
  if v =? _value s then (s, [])
  else (set_value s v, [valueChanged v]).

(** [_val_to_pos] and [_pos_to_val].  [span] is [self._max - self._min or 1]. *)
Definition span (s : t) : Z :=
  if _max s - _min s =? 0 then 1 else _max s - _min s.

Definition _val_to_pos (s : t) (v : Z) : option Z :=
  let w := width s - 2 * _handle_r s in
  bind (truediv (PInt (v - _min s)) (PInt (span s))) (fun q =>
  bind (mul (PFloat q) (PInt w)) (fun p =>
  bind (py_int p) (fun i =>
  Some (i + _handle_r s)))).

Definition _pos_to_val (s : t) (x : num) : option Z :=
  let w := width s - 2 * _handle_r s in
  let x := max2 (PInt (_handle_r s)) (min2 x (PInt (width s - _handle_r s))) in
  bind (sub x (PInt (_handle_r s))) (fun x =>
  bind (truediv x (PInt w)) (fun q =>
  bind (mul (PFloat q) (PInt (span s))) (fun p =>
  bind (add p (PInt (_min s))) (fun y =>
  py_round y)))).

(** The four value-changing operations, as data. *)
Inductive op : Type :=
| SetRange (a b : Z)
| SetLowerValue (v : Z)
| SetUpperValue (v : Z)
| SetValue (v : Z).

Definition run (o : op) (s : t) : t * list signal :=
  match o with
  | SetRange a b => setRange s a b
  | SetLowerValue v => setLowerValue s v
  | SetUpperValue v => setUpperValue s v
  | SetValue v => setValue s v
  end.

(** The selection-interval invariant of the data model. *)
Definition consistent (s : t) : Prop :=
  (_min s <= _lower s /\ _lower s <= _upper s /\ _upper s <= _max s)
  /\ (_lower s <= _value s /\ _value s <= _upper s).

(** Clamping a value into the closed interval [[lo, hi]]. *)
Definition clamp (lo hi v : Z) : Z :=
  if v <? lo then lo else if hi <? v then hi else v.

End RangeSlider.

(* ------------------------------------------------------------------ *)
(** * MainUI: the trim action *)

Module MainUI.
Import PyStr.

(** The attributes of the window that [trim_save] and its worker thread
    read or write. *)
Record t : Type := mk {
  video_path : option str;
  tmp_dir : option str;
  range_slider : RangeSlider.t;
  trim_btn_enabled : bool;
  trim_btn_text : string;
  stack_index : Z;
  bar_value : Z
}.

(** What [trim_save] and [work] do to the outside: message boxes, the
    save dialog (opened on a name derived from the video path [source]),
    the thread started on the ffmpeg command line, the subprocess and the
    removal of the temporary directory. *)
Inductive effect : Type :=
| QMessageBox_warning (title text : string)
| QMessageBox_critical (title : string)
| QMessageBox_information (title : string) (dst : str)
| QFileDialog_getSaveFileName (caption : string) (source : str)
| Thread_start (ff : list str)
| subprocess_run (ff : list str)
| shutil_rmtree (dir : str).

Definition ffmpeg_args (a b : Z) (src dst : str) : list str :=
  [lit "ffmpeg"; lit "-hide_banner"; lit "-loglevel"; lit "error";
   lit "-ss"; str_of_int a; lit "-to"; str_of_int b;
   lit "-i"; src; lit "-c"; lit "copy"; dst].

(** [trim_save]; [dst] is what the save dialog returns when it is shown
    (the empty string when the user cancels). *)
Definition trim_save (u : t) (dst : str) : t * list effect :=
  match video_path u with
  | None => (u, [])
  | Some src =>
      let a := RangeSlider.lowerValue (range_slider u) in
      let b := RangeSlider.upperValue (range_slider u) in
      if b <=? a
      then (u, [QMessageBox_warning "Bad range" "End must be after Start."])
      else
        let dialog := QFileDialog_getSaveFileName "Save clip" src in
        match dst with
        | [] => (u, [dialog])
        | _ =>
            (mk (video_path u) (tmp_dir u) (range_slider u)
                false "Trimming…" (stack_index u) (bar_value u),
             [dialog; Thread_start (ffmpeg_args a b src dst)])
        end
  end.

(** How [subprocess.run(ff, check=True)] ends: ffmpeg exits with status
    zero, it exits with another status ([CalledProcessError]), or it cannot
    be started at all (another exception, which [work] does not catch). *)
Inductive outcome : Type :=
| exit_zero
| exit_nonzero
| not_started.

(** The body [work] of the thread.  The [finally] block runs in all three
    cases; when ffmpeg cannot be started no message box is shown and the
    exception leaves the thread after it. *)
Definition work (u : t) (ff : list str) (dst : str) (o : outcome) : t * list effect :=
  (mk (video_path u) (tmp_dir u) (range_slider u) true "Trim & Save" 0 0,
   [subprocess_run ff]
   ++ match o with
      | exit_zero => [QMessageBox_information "Saved" dst]
      | exit_nonzero => [QMessageBox_critical "FFmpeg error"]
      | not_started => []
      end
   ++ match tmp_dir u with
      | Some d => [shutil_rmtree d]
      | None => []
      end).

End MainUI.

(* ------------------------------------------------------------------ *)
(** * RangeSlider: the mouse handlers *)

Module RangeSliderMouse.
Import PyNum RangeSlider.

(** The handle names ['low'], ['mid'] and ['high']. *)
Inductive handle : Type := low | mid | high.

(** The slider with its attribute [_active]. *)
Record t : Type := mk {
  slider : RangeSlider.t;
  _active : option handle
}.

(** [abs(a)] *)
Definition py_abs (a : num) : num :=
  match a with
  | PInt z => PInt (Z.abs z)
  | PFloat f => PFloat (SFabs f)
  end.

(** [abs(x - p)] for a handle at pixel [p]. *)
Definition distance (x : num) (p : Z) : option num :=
  bind (sub x (PInt p)) (fun d => Some (py_abs d)).

(** [min(distances, key=distances.get)] over the keys in insertion order
    ['low'], ['mid'], ['high']: a later key wins only with a strictly
    smaller distance. *)
Definition nearest (dl dm dh : num) : handle :=
  let '(k, d) := if lt dm dl then (mid, dm) else (low, dl) in
  if lt dh d then high else k.

(** [_move]; [x] is [e.position().x()]. *)
Definition _move (m : t) (x : num) : option (t * list signal) :=
  bind (_pos_to_val (slider m) x) (fun v =>
  match _active m with
  | Some low =>
      let '(s1, e1) := setLowerValue (slider m) v in
      if _value s1 <? _lower s1
      then let '(s2, e2) := setValue s1 (_lower s1) in
           Some (mk s2 (_active m), e1 ++ e2)
      else Some (mk s1 (_active m), e1)
  | Some high =>
      let '(s1, e1) := setUpperValue (slider m) v in
      if _value s1 >? _upper s1
      then let '(s2, e2) := setValue s1 (_upper s1) in
           Some (mk s2 (_active m), e1 ++ e2)
      else Some (mk s1 (_active m), e1)
  | Some mid =>
      let '(s1, e1) := setValue (slider m) v in
      Some (mk s1 (_active m), e1)
  | None => Some (m, [])
  end).

Definition mousePressEvent (m : t) (x : num) : option (t * list signal) :=
  let s := slider m in
  bind (_val_to_pos s (_lower s)) (fun lx =>
  bind (_val_to_pos s (_value s)) (fun mx =>
  bind (_val_to_pos s (_upper s)) (fun ux =>
  bind (distance x lx) (fun dl =>
  bind (distance x mx) (fun dm =>
  bind (distance x ux) (fun dh =>
  _move (mk s (Some (nearest dl dm dh))) x)))))).

Definition mouseMoveEvent (m : t) (x : num) : option (t * list signal) :=
  match _active m with
  | Some _ => _move m x
  | None => Some (m, [])
  end.

Definition mouseReleaseEvent (m : t) : t := mk (slider m) None.

End RangeSliderMouse.

(* ------------------------------------------------------------------ *)
(** * MainUI: the download screen *)

Module Loader.
Import PyNum PyStr.

(** The widgets and attributes of the download screen that the handlers
    read or write.  [drum_icons] holds, per icon, whether it shows the
    filled pixmap; [filled_once] is the set of icons that have bounced. *)
Record t : Type := mk {
  url_edit_text : str;
  url_edit_visible : bool;
  dl_btn_visible : bool;
  dl_btn_enabled : bool;
  poster_visible : bool;
  loading_lbl_visible : bool;
  loading_lbl_text : str;
  drum_widget_visible : bool;
  bar_visible : bool;
  _dot_phase : Z;
  _dot_timer_active : bool;
  drum_icons : list bool;
  filled_once : list Z
}.

(** [c.isspace()] *)
Definition isspace (c : char) : bool :=
  existsb (N.eqb c)
    [9; 10; 11; 12; 13; 28; 29; 30; 31; 32; 133; 160; 5760;
     8192; 8193; 8194; 8195; 8196; 8197; 8198; 8199; 8200; 8201; 8202;
     8232; 8233; 8239; 8287; 12288]%N.

Fixpoint lstrip (s : str) : str :=
  match s with
  | c :: r => if isspace c then lstrip r else s
  | [] => []
  end.

(** [s.strip()] *)
Definition strip (s : str) : str := rev (lstrip (rev (lstrip s))).

(** [_tick_loading_dots] *)
Definition _tick_loading_dots (l : t) : t :=
  let phase := (_dot_phase l + 1) mod 4 in
  mk (url_edit_text l) (url_edit_visible l) (dl_btn_visible l) (dl_btn_enabled l)
     (poster_visible l) (loading_lbl_visible l)
     (lit "Loading" ++ List.concat (repeat (lit ".") (Z.to_nat phase)))
     (drum_widget_visible l) (bar_visible l) phase (_dot_timer_active l)
     (drum_icons l) (filled_once l).

(** [i in self.filled_once] *)
Definition bounced (i : Z) (done : list Z) : bool := existsb (Z.eqb i) done.

(** The loop of [update_drumsticks] from index [i] on: the pixmaps, the
    set of bounced icons, and the icons that bounce now, in order. *)
Fixpoint fill_icons (filled i : Z) (icons : list bool) (done : list Z)
  : list bool * list Z * list Z :=
  match icons with
  | [] => ([], done, [])
  | _ :: rest =>
      let target := i <? filled in
      let bounce := target && negb (bounced i done) in
      let done' := if bounce then done ++ [i] else done in
      let '(icons', done'', bounces) := fill_icons filled (i + 1) rest done' in
      (target :: icons', done'', if bounce then i :: bounces else bounces)
  end.

(** [update_drumsticks(pct)]: the new state and the icons handed to
    [bounce_once]. *)
Definition update_drumsticks (l : t) (pct : Z) : option (t * list Z) :=
  bind (truediv (PInt pct) (PInt 100)) (fun q =>
  bind (mul (PFloat q) (PInt (Z.of_nat (List.length (drum_icons l))))) (fun p =>
  bind (py_round p) (fun filled =>
  let '(icons, done, bounces) := fill_icons filled 0 (drum_icons l) (filled_once l) in
  Some (mk (url_edit_text l) (url_edit_visible l) (dl_btn_visible l) (dl_btn_enabled l)
           (poster_visible l) (loading_lbl_visible l) (loading_lbl_text l)
           (drum_widget_visible l) (bar_visible l) (_dot_phase l) (_dot_timer_active l)
           icons done,
        bounces)))).

(** The state [__init__] builds: the label reads Loading followed by an
    ellipsis character (code point 8230), ten grey icons, nothing bounced
    yet. *)
Definition init : t :=
  mk [] true true true true false (lit "Loading" ++ [8230%N]) false false 0 false
     (repeat false 10) [].

End Loader.

(* ------------------------------------------------------------------ *)
(** * MainUI: downloading, playback and the slots of the slider *)

Module Window.
Import PyNum PyStr.

Inductive icon : Type := SP_MediaPlay | SP_MediaPause.

(** The window: the attributes of the trim action, the download screen,
    and what the playback handlers read or write.  [player_duration] is
    [self.player.duration()], owned by Qt. *)
Record t : Type := mk {
  trim : MainUI.t;
  loader : Loader.t;
  duration : Z;
  player_duration : Z;
  time_lbl : str;
  start_lbl : str;
  end_lbl : str;
  play_icon : icon;
  worker : option (str * str)
}.

Inductive effect : Type :=
| QMessageBox_warning (title text : string)
| QMessageBox_critical (title : string) (msg : str)
| tempfile_mkdtemp (prefix : string)
| Thread_start_worker (url tmp : str)
| player_setSource (path : str)
| player_setPosition (ms : Z)
| player_pause.

Definition slider (w : t) : RangeSlider.t := MainUI.range_slider (trim w).

Definition set_trim (w : t) (u : MainUI.t) : t :=
  mk u (loader w) (duration w) (player_duration w) (time_lbl w) (start_lbl w)
     (end_lbl w) (play_icon w) (worker w).

Definition set_slider (w : t) (s : RangeSlider.t) : t :=
  let u := trim w in
  set_trim w (MainUI.mk (MainUI.video_path u) (MainUI.tmp_dir u) s
                        (MainUI.trim_btn_enabled u) (MainUI.trim_btn_text u)
                        (MainUI.stack_index u) (MainUI.bar_value u)).

Definition set_loader (w : t) (l : Loader.t) : t :=
  mk (trim w) l (duration w) (player_duration w) (time_lbl w) (start_lbl w)
     (end_lbl w) (play_icon w) (worker w).

Definition set_duration (w : t) (d : Z) : t :=
  mk (trim w) (loader w) d (player_duration w) (time_lbl w) (start_lbl w)
     (end_lbl w) (play_icon w) (worker w).

Definition set_time_lbl (w : t) (s : str) : t :=
  mk (trim w) (loader w) (duration w) (player_duration w) s (start_lbl w)
     (end_lbl w) (play_icon w) (worker w).

Definition set_start_lbl (w : t) (s : str) : t :=
  mk (trim w) (loader w) (duration w) (player_duration w) (time_lbl w) s
     (end_lbl w) (play_icon w) (worker w).

Definition set_end_lbl (w : t) (s : str) : t :=
  mk (trim w) (loader w) (duration w) (player_duration w) (time_lbl w) (start_lbl w)
     s (play_icon w) (worker w).

Definition set_play_icon (w : t) (i : icon) : t :=
  mk (trim w) (loader w) (duration w) (player_duration w) (time_lbl w) (start_lbl w)
     (end_lbl w) i (worker w).

(** ** The download screen *)

(** [start_download]; [dir] is what [tempfile.mkdtemp] returns. *)
Definition start_download (w : t) (dir : str) : t * list effect :=
  let l := loader w in
  match Loader.strip (Loader.url_edit_text l) with
  | [] => (w, [QMessageBox_warning "No URL" "Paste a YouTube URL."])
  | url =>
      let u := trim w in
      (mk (MainUI.mk (MainUI.video_path u) (Some dir) (MainUI.range_slider u)
                     (MainUI.trim_btn_enabled u) (MainUI.trim_btn_text u)
                     (MainUI.stack_index u) (MainUI.bar_value u))
          (Loader.mk (Loader.url_edit_text l) false false false
                     false true (lit "Loading") true false 0 true
                     (Loader.drum_icons l) (Loader.filled_once l))
          (duration w) (player_duration w) (time_lbl w) (start_lbl w) (end_lbl w)
          (play_icon w) (Some (url, dir)),
       [tempfile_mkdtemp "lobster_"; Thread_start_worker url dir])
  end.

(** [dl_error(msg)] *)
Definition dl_error (w : t) (msg : str) : t * list effect :=
  let l := loader w in
  (set_loader w
     (Loader.mk (Loader.url_edit_text l) true true true
                true false (Loader.loading_lbl_text l) false false
                (Loader._dot_phase l) false
                (Loader.drum_icons l) (Loader.filled_once l)),
   [QMessageBox_critical "Download error" msg]).

(** ** Playback and the slots of the slider

    The slider's signals are connected to slots of the window, which Qt
    calls inside [emit].  Every value helper of the slider finishes its
    assignments before its first [emit], so running the helper and then the
    slots of its signals, in order, is what the interleaved calls do. *)

(** The slot of [valueChanged]:
    [lambda v: self.player.setPosition(int(v*1000))]. *)
Definition value_slot (sg : RangeSlider.signal) : list effect :=
  match sg with
  | RangeSlider.valueChanged v => [player_setPosition (v * 1000)]
  | _ => []
  end.

(** [self.range_slider.setValue(v)] called from a slot, signals enabled. *)
Definition slider_setValue (w : t) (v : Z) : t * list effect :=
  let '(s, sigs) := RangeSlider.setValue (slider w) v in
  (set_slider w s, flat_map value_slot sigs).

(** [update_time(pos_ms)] *)
Definition update_time (w : t) (pos_ms : Z) : option (t * list effect) :=
  let tot := if duration w =? 0 then player_duration w / 1000 else duration w in
  bind (truediv (PInt pos_ms) (PInt 1000)) (fun q =>
  let sec := PFloat q in
  bind (Util.hhmmss sec) (fun a =>
  bind (Util.hhmmss (PInt tot)) (fun b =>
  let w1 := set_time_lbl w (a ++ lit " / " ++ b) in
  let low := RangeSlider.lowerValue (slider w1) in
  let high := RangeSlider.upperValue (slider w1) in
  let '(sec', w2, eff) :=
    if lt sec (PInt low)
    then (PInt low, w1, [player_setPosition (low * 1000)])
    else if lt (PInt high) sec
    then (PInt high, set_play_icon w1 SP_MediaPlay,
          [player_setPosition (high * 1000); player_pause])
    else (sec, w1, []) in
  bind (py_int sec') (fun v =>
  (* signals are blocked around this call *)
  Some (set_slider w2 (fst (RangeSlider.setValue (slider w2) v)), eff))))).

(** [preview(s)] *)
Definition preview (w : t) (s : Z) : option (t * list effect) :=
  bind (update_time w (s * 1000)) (fun '(w', eff) =>
  Some (w', [player_pause; player_setPosition (s * 1000)] ++ eff)).

(** [_start_changed(v)] and [_end_changed(v)] *)
Definition _start_changed (w : t) (v : Z) : option (t * list effect) :=
  bind (Util.hhmmss (PInt v)) (fun txt =>
  let w1 := set_start_lbl w txt in
  if RangeSlider.value (slider w1) <? v then Some (slider_setValue w1 v)
  else Some (w1, [])).

Definition _end_changed (w : t) (v : Z) : option (t * list effect) :=
  bind (Util.hhmmss (PInt v)) (fun txt =>
  let w1 := set_end_lbl w txt in
  if RangeSlider.value (slider w1) >? v then Some (slider_setValue w1 v)
  else Some (w1, [])).

Definition then_do (a : option (t * list effect))
    (k : t -> option (t * list effect)) : option (t * list effect) :=
  bind a (fun '(w1, e1) => bind (k w1) (fun '(w2, e2) => Some (w2, e1 ++ e2))).

(** The slots of one signal, in connection order. *)
Definition slots (w : t) (sg : RangeSlider.signal) : option (t * list effect) :=
  match sg with
  | RangeSlider.valueChanged v => Some (w, value_slot sg)
  | RangeSlider.lowerValueChanged v =>
      then_do (_start_changed w v) (fun w1 => preview w1 v)
  | RangeSlider.upperValueChanged v =>
      then_do (_end_changed w v) (fun w1 => preview w1 v)
  end.

Fixpoint emit_all (w : t) (sigs : list RangeSlider.signal) : option (t * list effect) :=
  match sigs with
  | [] => Some (w, [])
  | sg :: rest => then_do (slots w sg) (fun w1 => emit_all w1 rest)
  end.

(** A call of a value helper of [self.range_slider] from the window. *)
Definition call (w : t) (o : RangeSlider.op) : option (t * list effect) :=
  let '(s, sigs) := RangeSlider.run o (slider w) in
  emit_all (set_slider w s) sigs.

(** [got_duration(ms)] *)
Definition got_duration (w : t) (ms : Z) : option (t * list effect) :=
  if duration w =? 0 then
    let d := ms / 1000 in
    then_do (call (set_duration w d) (RangeSlider.SetRange 0 d)) (fun w1 =>
    call w1 (RangeSlider.SetUpperValue d))
  else Some (w, []).

(** [dl_done(path, dur)] *)
Definition dl_done (w : t) (path : str) (dur : Z) : option (t * list effect) :=
  let u := trim w in
  let w0 := set_duration
              (set_trim w (MainUI.mk (Some path) (MainUI.tmp_dir u) (MainUI.range_slider u)
                                     (MainUI.trim_btn_enabled u) (MainUI.trim_btn_text u)
                                     (MainUI.stack_index u) (MainUI.bar_value u)))
              dur in
  then_do (Some (w0, [player_setSource path])) (fun w1 =>
  then_do (call w1 (RangeSlider.SetRange 0 dur)) (fun w2 =>
  then_do (call w2 (RangeSlider.SetLowerValue 0)) (fun w3 =>
  then_do (call w3 (RangeSlider.SetUpperValue dur)) (fun w4 =>
  then_do (call w4 (RangeSlider.SetValue 0)) (fun w5 =>
  let u5 := trim w5 in
  let l := loader w5 in
  Some (mk (MainUI.mk (MainUI.video_path u5) (MainUI.tmp_dir u5) (MainUI.range_slider u5)
                      (MainUI.trim_btn_enabled u5) (MainUI.trim_btn_text u5)
                      1 (MainUI.bar_value u5))
           (Loader.mk (Loader.url_edit_text l) (Loader.url_edit_visible l)
                      (Loader.dl_btn_visible l) true
                      true false (Loader.loading_lbl_text l) false false
                      (Loader._dot_phase l) false
                      (Loader.drum_icons l) (Loader.filled_once l))
           (duration w5) (player_duration w5) (time_lbl w5) (start_lbl w5)
           (end_lbl w5) (play_icon w5) (worker w5),
        [])))))).

(** The state [__init__] builds, for a slider [width] pixels wide. *)
Definition init (width : Z) : t :=
  mk (MainUI.mk None None (RangeSlider.init 0 99 width) true "Trim & Save" 0 (-1))
     Loader.init 0 0 (lit "00:00 / 00:00") (lit "00:00:00") (lit "00:00:00")
     SP_MediaPlay None.

End Window.

(* ------------------------------------------------------------------ *)
(** * Facts about the RangeSlider value helpers *)

Section RangeSliderFacts.
Import RangeSlider.

(** Splits on every comparison the value helpers make. *)
Ltac slider_cases :=
  repeat match goal with
  | |- context [Z.eqb ?a ?b] => destruct (Z.eqb_spec a b)
  | |- context [Z.ltb ?a ?b] => destruct (Z.ltb_spec a b)
  | |- context [Z.gtb ?a ?b] => rewrite (Z.gtb_ltb a b)
  | H : context [Z.eqb ?a ?b] |- _ => destruct (Z.eqb_spec a b)
  | H : context [Z.ltb ?a ?b] |- _ => destruct (Z.ltb_spec a b)
  | H : context [Z.gtb ?a ?b] |- _ => rewrite (Z.gtb_ltb a b) in H
  end.

Ltac slider_unfold :=
  unfold run, setRange, setLowerValue, setUpperValue, setValue,
    set_lower, set_upper, set_value, consistent, clamp,
    lowerValue, upperValue, value in *;
  cbn [_min _max _lower _upper _value _handle_r width fst snd] in *.

Lemma setRange_consistent (s : t) (a b : Z) :
  a <= b -> consistent (fst (setRange s a b)).
Proof. intros Hab. slider_unfold. lia. Qed.

Lemma setLowerValue_consistent (s : t) (v : Z) :
  consistent s -> consistent (fst (setLowerValue s v)).
Proof.
  intros H. slider_unfold. slider_cases; cbn [_min _max _lower _upper _value fst]; lia.
Qed.

Lemma setUpperValue_consistent (s : t) (v : Z) :
  consistent s -> consistent (fst (setUpperValue s v)).
Proof.
  intros H. slider_unfold. slider_cases; cbn [_min _max _lower _upper _value fst]; lia.
Qed.

(** [setValue] needs only a non-empty selection to put the position
    inside it. *)
Lemma setValue_in_selection (s : t) (v : Z) :
  _lower s <= _upper s ->
  _lower s <= _value (fst (setValue s v)) <= _upper s.
Proof.
  intros H. slider_unfold. slider_cases; cbn [_min _max _lower _upper _value fst]; lia.
Qed.

Lemma setValue_consistent (s : t) (v : Z) :
  consistent s -> consistent (fst (setValue s v)).
Proof.
  intros H. slider_unfold. slider_cases; cbn [_min _max _lower _upper _value fst]; lia.
Qed.

(** C1, as stated, fails: [setRange(5, 3)] on a fresh slider leaves
    [min = lower = 5] above [upper = max = 3]. *)
Lemma C1_setRange_reversed_breaks_invariant :
  ~ consistent (fst (run (SetRange 5 3) (init 0 99 900))).
Proof. slider_unfold. cbn. lia. Qed.

(** The bound setters do not repair a state that is already
    inconsistent: after [setRange(5, 3)], [setValue(4)] changes nothing. *)
Lemma setValue_keeps_broken_state :
  let s := fst (setRange (init 0 99 900) 5 3) in
  fst (setValue s 4) = s /\ ~ consistent s.
Proof. split; [reflexivity | slider_unfold; cbn; lia]. Qed.

(** C1 (amended): [setRange(a, b)] with [a <= b] establishes
    [min <= lower <= upper <= max] and [lower <= value <= upper] from any
    state, and [setLowerValue], [setUpperValue] and [setValue] preserve
    it for every integer argument. *)
Theorem C1_operations_keep_invariant (s : t) (o : op) :
  match o with
  | SetRange a b => a <= b
  | _ => consistent s
  end ->
  consistent (fst (run o s)).
Proof.
  destruct o as [a b | v | v | v]; intros H; cbn [run].
  - now apply setRange_consistent.
  - now apply setLowerValue_consistent.
  - now apply setUpperValue_consistent.
  - now apply setValue_consistent.
Qed.

Lemma C1_operations_keep_invariant_witness :
  consistent (fst (run (SetLowerValue 30) (init 0 99 900))).
Proof.
  apply (C1_operations_keep_invariant (init 0 99 900) (SetLowerValue 30)).
  unfold consistent; simpl; lia.
Defined.

(** The invariant is inductive: it holds after any sequence of operations
    whose [setRange] calls are well ordered, started in a consistent
    state. *)
Definition well_ordered (o : op) : Prop :=
  match o with
  | SetRange a b => a <= b
  | _ => True
  end.

Lemma run_all_consistent (os : list op) (s : t) :
  consistent s -> Forall well_ordered os ->
  consistent (fold_left (fun st o => fst (run o st)) os s).
Proof.
  revert s. induction os as [| o os IH]; intros s Hs Hos; [exact Hs |].
  inversion Hos as [| ? ? Ho Hos']; subst. cbn [fold_left].
  apply IH; [| exact Hos'].
  destruct o as [a b | v | v | v]; cbn [run well_ordered] in *.
  - now apply setRange_consistent.
  - now apply setLowerValue_consistent.
  - now apply setUpperValue_consistent.
  - now apply setValue_consistent.
Qed.

(** C2, as stated, fails: with [lower = 10], [upper = 20] in the range
    [0 .. 100], [setLowerValue(50)] is clamped to the current upper
    bound 20, so [setLowerValue(50); setUpperValue(80)] ends with
    [lower = 20]. *)
Lemma C2_lower_clamped_by_old_upper :
  let s := mk 0 100 10 20 10 8 900 in
  consistent s /\
  _min s <= 50 /\ 50 <= 80 /\ 80 <= _max s /\
  _lower (fst (setUpperValue (fst (setLowerValue s 50)) 80)) = 20 /\
  _upper (fst (setUpperValue (fst (setLowerValue s 50)) 80)) = 80.
Proof. slider_unfold. cbn. lia. Qed.

(** C2 (amended): for [min <= a <= b <= max] with [a] not above the
    current upper bound, [setLowerValue(a); setUpperValue(b)] leaves
    [lower = a] and [upper = b]. *)
Theorem C2_set_lower_then_upper (s : t) (a b : Z) :
  _min s <= a -> a <= b -> b <= _max s -> a <= _upper s ->
  let s' := fst (setUpperValue (fst (setLowerValue s a)) b) in
  _lower s' = a /\ _upper s' = b.
Proof.
  intros Hmin Hab Hmax Hup. slider_unfold.
  slider_cases; cbn [_min _max _lower _upper _value fst] in *;
    slider_cases; cbn [_min _max _lower _upper _value fst] in *; lia.
Qed.

Lemma C2_set_lower_then_upper_witness :
  let s' := fst (setUpperValue (fst (setLowerValue (init 0 120 900) 30)) 90) in
  _lower s' = 30 /\ _upper s' = 90.
Proof.
  apply (C2_set_lower_then_upper (init 0 120 900) 30 90); simpl; lia.
Defined.

(** On a fresh range the precondition on the upper bound holds, which is
    how [dl_done] uses the two setters. *)
Lemma setRange_then_select (s : t) (lo hi a b : Z) :
  lo <= a -> a <= b -> b <= hi ->
  let s' := fst (setUpperValue (fst (setLowerValue (fst (setRange s lo hi)) a)) b) in
  _lower s' = a /\ _upper s' = b /\ consistent s'.
Proof.
  intros H1 H2 H3. slider_unfold.
  slider_cases; cbn [_min _max _lower _upper _value fst] in *;
    slider_cases; cbn [_min _max _lower _upper _value fst] in *; lia.
Qed.

(** Whether a signal list holds a given signal, for any payload. *)
Definition emits_lower (ev : list signal) : Prop :=
  exists x, In (lowerValueChanged x) ev.
Definition emits_upper (ev : list signal) : Prop :=
  exists x, In (upperValueChanged x) ev.
Definition emits_value (ev : list signal) : Prop :=
  exists x, In (valueChanged x) ev.

(** C3, as stated, fails in a state that lacks the selection invariant,
    and [setRange] with its arguments reversed builds one: after
    [setRange(5, 3)] on a fresh slider the state is
    [min = lower = value = 5], [max = upper = 3]; there [setUpperValue(0)]
    changes nothing and emits nothing, although the interval [[lower, max]]
    it should clamp into is empty and the upper bound 3 it leaves lies below
    the position 5, which is not snapped; [setLowerValue(6)] behaves the
    same way. *)
Lemma C3_reversed_range_is_not_snapped :
  let s := fst (setRange (init 0 99 900) 5 3) in
  (_min s, _max s, _lower s, _upper s, _value s) = (5, 3, 5, 3, 5)
  /\ setUpperValue s 0 = (s, [])
  /\ _upper (fst (setUpperValue s 0)) < _value (fst (setUpperValue s 0))
  /\ ~ (_lower s <= _upper (fst (setUpperValue s 0)) <= _max s)
  /\ setLowerValue s 6 = (s, [])
  /\ ~ (_min s <= _lower (fst (setLowerValue s 6)) <= _upper s).
Proof.
  cbv zeta. unfold setRange, init, setUpperValue, setLowerValue. cbn.
  repeat split; lia.
Qed.

(** C3 (amended): in a state satisfying the selection invariant
    ([min <= lower <= upper <= max] and [lower <= value <= upper]),
    [setLowerValue(v)] stores [v] clamped into [[min, upper]] and
    [setUpperValue(v)] stores [v] clamped into [[lower, max]]; when the new
    lower bound exceeds the position (resp. the new upper bound is below
    it) the position becomes that bound and [valueChanged] is emitted with
    it; and [lowerValueChanged] / [upperValueChanged] is emitted exactly
    when the stored bound changed. *)
Theorem C3_bound_setters (s : t) (v : Z) :
  consistent s ->
  (let s' := fst (setLowerValue s v) in
   let ev := snd (setLowerValue s v) in
   _lower s' = clamp (_min s) (_upper s) v
   /\ (_value s < _lower s' ->
       _value s' = _lower s' /\ In (valueChanged (_lower s')) ev)
   /\ (emits_value ev <-> _value s' <> _value s)
   /\ (emits_lower ev <-> _lower s' <> _lower s)
   /\ (emits_lower ev -> In (lowerValueChanged (_lower s')) ev))
  /\
  (let s' := fst (setUpperValue s v) in
   let ev := snd (setUpperValue s v) in
   _upper s' = clamp (_lower s) (_max s) v
   /\ (_upper s' < _value s ->
       _value s' = _upper s' /\ In (valueChanged (_upper s')) ev)
   /\ (emits_value ev <-> _value s' <> _value s)
   /\ (emits_upper ev <-> _upper s' <> _upper s)
   /\ (emits_upper ev -> In (upperValueChanged (_upper s')) ev)).
Proof.
  intros H. unfold emits_value, emits_lower, emits_upper.
  split; slider_unfold;
    slider_cases; cbn [_min _max _lower _upper _value fst snd] in *;
    repeat split; intros;
    repeat match goal with
    | H : exists _, _ |- _ => destruct H
    | H : In _ _ |- _ => destruct H
    | H : _ = _ :> signal |- _ => discriminate H || (injection H as H)
    end;
    try lia; try (cbn; tauto);
    try (eexists; cbn; eauto; fail);
    try (cbn; eauto; fail).
Qed.

Lemma C3_bound_setters_witness :
  let s := fst (setValue (init 0 120 900) 40) in
  consistent s
  /\ _lower (fst (setLowerValue s 50)) = clamp 0 120 50
  /\ (_value s < _lower (fst (setLowerValue s 50)) ->
      _value (fst (setLowerValue s 50)) = _lower (fst (setLowerValue s 50))
      /\ In (valueChanged (_lower (fst (setLowerValue s 50))))
            (snd (setLowerValue s 50))).
Proof.
  assert (Hc : consistent (fst (setValue (init 0 120 900) 40)))
    by (unfold consistent; simpl; lia).
  destruct (C3_bound_setters (fst (setValue (init 0 120 900) 40)) 50 Hc)
    as [[H1 [H2 _]] _].
  split; [exact Hc | split; [exact H1 | exact H2]].
Defined.

(** The scenario of the specification, from any state: range [0 .. 120],
    lower 30, upper 90, then [setValue(10)]. *)
Lemma scenario_clamped_up (s : t) :
  let s1 := fst (setRange s 0 120) in
  let s2 := fst (setLowerValue s1 30) in
  let s3 := fst (setUpperValue s2 90) in
  _lower s3 = 30 /\ _upper s3 = 90 /\ _value (fst (setValue s3 10)) = 30.
Proof.
  cbv zeta. unfold setRange. cbn [fst].
  set (v0 := Z.max 0 (Z.min (_value s) 120)).
  assert (Hv : 0 <= v0 <= 120) by lia. clearbody v0.
  unfold setLowerValue, set_lower, set_value.
  cbn [_min _max _lower _upper _value fst].
  change (Z.max 0 (Z.min 30 120)) with 30. change (30 =? 0) with false. cbv iota.
  destruct (Z.ltb_spec v0 30) as [Hlo | Hlo]; cbn [fst];
    unfold setUpperValue, set_upper, set_value;
    cbn [_min _max _lower _upper _value fst];
    change (Z.min 120 (Z.max 90 30)) with 90; change (90 =? 120) with false; cbv iota;
    rewrite Z.gtb_ltb.
  - change (90 <? 30) with false. cbv iota. cbn [fst].
    unfold setValue. cbn [_min _max _lower _upper _value fst].
    change (Z.max 30 (Z.min 10 90)) with 30. rewrite Z.eqb_refl.
    cbn [_lower _upper _value fst]. repeat split.
  - destruct (Z.ltb_spec 90 v0) as [Hhi | Hhi]; cbn [fst];
      unfold setValue, set_value; cbn [_min _max _lower _upper _value fst];
      change (Z.max 30 (Z.min 10 90)) with 30.
    + change (30 =? 90) with false. cbv iota. cbn [_lower _upper _value fst].
      repeat split.
    + destruct (Z.eqb_spec 30 v0) as [<- | Hne]; cbn [_lower _upper _value fst];
        repeat split.
Qed.

(** C4: with [lower <= upper], [setValue(v)] stores [v] clamped into
    [[lower, upper]]; in every state [valueChanged] is emitted, with the
    stored position, exactly when the stored position changed; and from
    any state, after [setRange(0, 120)], [setLowerValue(30)],
    [setUpperValue(90)], the call [setValue(10)] leaves [value = 30]. *)
Theorem C4_setValue (s : t) (v : Z) :
  _lower s <= _upper s ->
  let s' := fst (setValue s v) in
  let ev := snd (setValue s v) in
  _value s' = clamp (_lower s) (_upper s) v
  /\ (_lower s <= _value s' <= _upper s)
  /\ (emits_value ev <-> _value s' <> _value s)
  /\ (ev = [] \/ ev = [valueChanged (_value s')])
  /\ (let s1 := fst (setRange s 0 120) in
      let s2 := fst (setLowerValue s1 30) in
      let s3 := fst (setUpperValue s2 90) in
      _lower s3 = 30 /\ _upper s3 = 90 /\ _value (fst (setValue s3 10)) = 30).
Proof.
  intros H. unfold emits_value.
  repeat split; try apply scenario_clamped_up;
    slider_unfold;
    slider_cases; cbn [_min _max _lower _upper _value fst snd] in *;
    intros;
    repeat match goal with
    | H : exists _, _ |- _ => destruct H
    | H : In _ _ |- _ => destruct H
    | H : _ = _ :> signal |- _ => discriminate H || (injection H as H)
    end;
    try lia; try (cbn; tauto);
    try (eexists; cbn; eauto; fail);
    try (cbn; eauto; fail).
Qed.

Lemma C4_setValue_witness :
  let s := fst (setUpperValue (fst (setLowerValue (init 0 120 900) 30)) 90) in
  _value (fst (setValue s 10)) = clamp 30 90 10
  /\ _value (fst (setValue s 10)) = 30.
Proof.
  pose proof (C4_setValue
                (fst (setUpperValue (fst (setLowerValue (init 0 120 900) 30)) 90)) 10) as H.
  cbv zeta in H.
  assert (Hc : _lower (fst (setUpperValue (fst (setLowerValue (init 0 120 900) 30)) 90))
               <= _upper (fst (setUpperValue (fst (setLowerValue (init 0 120 900) 30)) 90)))
    by (simpl; lia).
  destruct (H Hc) as [H1 _].
  split; [exact H1 | reflexivity].
Defined.

End RangeSliderFacts.

(* ------------------------------------------------------------------ *)
(** * Facts about the utility functions *)

Section UtilFacts.
Import PyNum PyStr Util.

(** The nine characters that [sanitize] replaces. *)
Definition invalid_set : list char :=
  map N_of_ascii ["<"; ">"; ":"; dquote; "/"; "\"; "|"; "?"; "*"]%char.

Definition hyphen : char := N_of_ascii "-".

Definition replace_invalid (c : char) : char :=
  if existsb (N.eqb c) invalid_set then hyphen else c.

Lemma char_in_INVALID (c : char) :
  char_in c INVALID = existsb (N.eqb c) invalid_set.
Proof.
  unfold char_in, INVALID, invalid_set. cbn.
  destruct (N.eqb c 92); cbn; now rewrite ?orb_true_r.
Qed.

Lemma sanitize_default_map (t : str) :
  sanitize_default t = map replace_invalid t.
Proof.
  unfold sanitize_default.
  induction t as [| c t IH]; [reflexivity |].
  cbn [sanitize map]. rewrite IH, char_in_INVALID. unfold replace_invalid.
  now destruct (existsb (N.eqb c) invalid_set).
Qed.

Lemma replace_invalid_valid (c : char) : ~ In (replace_invalid c) invalid_set.
Proof.
  unfold replace_invalid.
  destruct (existsb (N.eqb c) invalid_set) eqn:E.
  - unfold hyphen, invalid_set. cbn. intuition discriminate.
  - intros Hin.
    assert (existsb (N.eqb c) invalid_set = true) as E'
      by (apply existsb_exists; exists c; split; [exact Hin | apply N.eqb_refl]).
    congruence.
Qed.

(** C10: [sanitize(t)] with the default replacement has the length of
    [t]; at every index it holds a hyphen where [t] holds one of the
    nine characters of [invalid_set] (less-than, greater-than, colon,
    double quote, slash, backslash, bar, question mark, star) and the
    character of [t] otherwise; so it holds no character of that set. *)
Theorem C10_sanitize_default (t : str) :
  List.length (sanitize_default t) = List.length t
  /\ (forall i : nat,
        nth_error (sanitize_default t) i
        = option_map
            (fun c => if in_dec N.eq_dec c invalid_set then hyphen else c)
            (nth_error t i))
  /\ (forall c, In c invalid_set -> ~ In c (sanitize_default t)).
Proof.
  rewrite sanitize_default_map. repeat split.
  - apply length_map.
  - intros i. rewrite nth_error_map.
    destruct (nth_error t i) as [c |]; [| reflexivity].
    cbn [option_map]. f_equal. unfold replace_invalid.
    destruct (in_dec N.eq_dec c invalid_set) as [Hin | Hout].
    + replace (existsb (N.eqb c) invalid_set) with true; [reflexivity |].
      symmetry. apply existsb_exists. exists c. split; [exact Hin | apply N.eqb_refl].
    + destruct (existsb (N.eqb c) invalid_set) eqn:E; [| reflexivity].
      apply existsb_exists in E. destruct E as [x [Hx Heq]].
      apply N.eqb_eq in Heq. subst x. contradiction.
  - intros c Hc Hin. apply in_map_iff in Hin. destruct Hin as [x [Hx _]].
    subst c. exact (replace_invalid_valid x Hc).
Qed.

(** ** [hhmmss] *)

(** The claimed output format: two digits, a colon, two digits, a colon,
    two digits. *)
Definition is_digit (c : char) : bool := (48 <=? c)%N && (c <=? 57)%N.

Definition is_HH_MM_SS (s : str) : bool :=
  match s with
  | [h1; h0; c1; m1; m0; c2; s1; s0] =>
      is_digit h1 && is_digit h0 && N.eqb c1 58 && is_digit m1 && is_digit m0
      && N.eqb c2 58 && is_digit s1 && is_digit s0
  | _ => false
  end.

Lemma below_forallb (P : Z -> bool) (k : nat) :
  forallb (fun i => P (Z.of_nat i)) (seq 0 k) = true ->
  forall z, 0 <= z < Z.of_nat k -> P z = true.
Proof.
  intros H z Hz. rewrite forallb_forall in H.
  rewrite <- (Z2Nat.id z) by lia. apply H. apply in_seq. lia.
Qed.

Lemma pad2_two_digits (z : Z) :
  0 <= z < 60 ->
  exists a b, pad2 z = [a; b] /\ is_digit a = true /\ is_digit b = true.
Proof.
  intros Hz.
  pose (P := fun z => match pad2 z with
                      | [a; b] => is_digit a && is_digit b
                      | _ => false
                      end).
  assert (HP : P z = true).
  { apply (below_forallb P 60); [vm_compute; reflexivity | lia]. }
  unfold P in HP.
  destruct (pad2 z) as [| a [| b [| c r]]]; try discriminate.
  apply andb_true_iff in HP. exists a, b. tauto.
Qed.

Lemma str_of_int_one_digit (z : Z) :
  0 <= z < 10 -> exists a, str_of_int z = [a] /\ is_digit a = true.
Proof.
  intros Hz.
  pose (P := fun z => match str_of_int z with
                      | [a] => is_digit a
                      | _ => false
                      end).
  assert (HP : P z = true).
  { apply (below_forallb P 10); [vm_compute; reflexivity | lia]. }
  unfold P in HP.
  destruct (str_of_int z) as [| a [| b r]]; try discriminate.
  exists a. tauto.
Qed.

(** What [hhmmss] returns below one day. *)
Lemma hhmmss_below_one_day (n : Z) :
  0 <= n < 86400 ->
  hhmmss (PInt n)
  = Some (str_of_int (n / 3600) ++ lit ":" ++ pad2 (n / 60 mod 60)
          ++ lit ":" ++ pad2 (n mod 60)).
Proof.
  intros Hn. unfold hhmmss, timedelta_of_seconds, timedelta_str.
  cbn [py_int bind].
  rewrite (Z.div_small n 86400), (Z.mod_small n 86400) by lia.
  cbn [Z.leb Z.compare andb bind days seconds Z.eqb].
  rewrite Z.div_div by lia.
  reflexivity.
Qed.

Lemma str_of_int_hour (z : Z) :
  0 <= z < 24 ->
  forallb is_digit (str_of_int z) = true
  /\ List.length (str_of_int z) = (if (z <? 10)%Z then 1%nat else 2%nat).
Proof.
  intros Hz.
  pose (P := fun z => forallb is_digit (str_of_int z)
                      && Nat.eqb (List.length (str_of_int z))
                                 (if (z <? 10)%Z then 1%nat else 2%nat)).
  assert (HP : P z = true).
  { apply (below_forallb P 24); [vm_compute; reflexivity | lia]. }
  unfold P in HP. apply andb_true_iff in HP. destruct HP as [H1 H2].
  apply Nat.eqb_eq in H2. now split.
Qed.

(** Below ten hours the hour field of [hhmmss] is a single digit. *)
Lemma hhmmss_hour_not_padded (n : Z) :
  0 <= n < 36000 ->
  exists h m1 m0 s1 s0,
    hhmmss (PInt n) = Some [h; 58%N; m1; m0; 58%N; s1; s0]
    /\ is_digit h = true.
Proof.
  intros Hn. rewrite hhmmss_below_one_day by lia.
  destruct (str_of_int_one_digit (n / 3600)) as [h [Hh Hd]].
  { split; [apply Z.div_pos; lia | apply Z.div_lt_upper_bound; lia]. }
  destruct (pad2_two_digits (n / 60 mod 60)) as [m1 [m0 [Hm _]]].
  { apply Z.mod_pos_bound; lia. }
  destruct (pad2_two_digits (n mod 60)) as [s1 [s0 [Hs _]]].
  { apply Z.mod_pos_bound; lia. }
  exists h, m1, m0, s1, s0. rewrite Hh, Hm, Hs.
  split; [reflexivity | exact Hd].
Qed.

(** C8, as stated, fails: five seconds are printed with a one-digit hour,
    seven characters that are not of the form [HH:MM:SS]. *)
Lemma C8_hhmmss_five_seconds :
  hhmmss (PInt 5) = Some (lit "0:00:05")
  /\ is_HH_MM_SS (lit "0:00:05") = false.
Proof. split; vm_compute; reflexivity. Qed.

(** [hhmmss] reads its argument only through [int(sec)]. *)
Lemma hhmmss_int_part (sec : num) (n : Z) :
  py_int sec = Some n -> hhmmss sec = hhmmss (PInt n).
Proof. intros H. unfold hhmmss. rewrite H. reflexivity. Qed.

(** The text from one day on: the day count, the word day with its
    plural, and the clock text of the rest. *)
Lemma hhmmss_from_one_day (n : Z) :
  86400 <= n -> n / 86400 <= 999999999 ->
  hhmmss (PInt n)
  = Some (str_of_int (n / 86400) ++ lit " day"
          ++ (if n / 86400 =? 1 then [] else lit "s") ++ lit ", "
          ++ str_of_int (n mod 86400 / 3600) ++ lit ":"
          ++ pad2 (n mod 86400 / 60 mod 60) ++ lit ":" ++ pad2 (n mod 86400 mod 60)).
Proof.
  intros Hn Hd.
  assert (H1 : 1 <= n / 86400).
  { change 1 with (86400 / 86400). apply Z.div_le_mono; lia. }
  unfold hhmmss, timedelta_of_seconds, timedelta_str. cbn [py_int bind].
  destruct (Z.leb_spec (-999999999) (n / 86400)); [| lia].
  destruct (Z.leb_spec (n / 86400) 999999999); [| lia].
  cbn [andb bind days seconds].
  destruct (Z.eqb_spec (n / 86400) 0); [lia |].
  rewrite Z.abs_eq by lia. rewrite Z.div_div by lia. reflexivity.
Qed.

(** C8 (amended): [hhmmss] reads its argument, int or float, through its
    whole part [n = int(sec)].  Below one day it prints the hours without
    padding, a colon, the minutes on two digits, a colon and the seconds
    on two digits; the hour takes one digit below ten hours and two from
    ten hours on, so the text has the form [HH:MM:SS] exactly from ten
    hours on.  From one day on (up to 999999999 days) the same clock text,
    of [n mod 86400], follows the day count, the word day or days, and a
    comma. *)
Theorem C8_hhmmss_format (sec : num) (n : Z) :
  py_int sec = Some n ->
  (0 <= n < 86400 ->
   exists m1 m0 s1 s0,
     hhmmss sec
     = Some (str_of_int (n / 3600) ++ [58%N; m1; m0; 58%N; s1; s0])
     /\ [m1; m0] = pad2 (n / 60 mod 60) /\ [s1; s0] = pad2 (n mod 60)
     /\ forallb is_digit (str_of_int (n / 3600) ++ [m1; m0; s1; s0]) = true
     /\ List.length (str_of_int (n / 3600)) = (if (n <? 36000)%Z then 1%nat else 2%nat)
     /\ is_HH_MM_SS (str_of_int (n / 3600) ++ [58%N; m1; m0; 58%N; s1; s0])
        = negb (n <? 36000))
  /\ (86400 <= n -> n / 86400 <= 999999999 ->
      exists clock,
        hhmmss (PInt (n mod 86400)) = Some clock
        /\ hhmmss sec
           = Some (str_of_int (n / 86400) ++ lit " day"
                   ++ (if n / 86400 =? 1 then [] else lit "s") ++ lit ", " ++ clock)
        /\ is_HH_MM_SS (str_of_int (n / 86400) ++ lit " day"
                        ++ (if n / 86400 =? 1 then [] else lit "s") ++ lit ", " ++ clock)
           = false).
Proof.
  intros Hint. rewrite (hhmmss_int_part sec n Hint). split.
  - intros Hn. rewrite hhmmss_below_one_day by lia.
    destruct (str_of_int_hour (n / 3600)) as [Hhd Hhl].
    { split; [apply Z.div_pos; lia | apply Z.div_lt_upper_bound; lia]. }
    destruct (pad2_two_digits (n / 60 mod 60)) as [m1 [m0 [Hm [Hm1 Hm0]]]].
    { apply Z.mod_pos_bound; lia. }
    destruct (pad2_two_digits (n mod 60)) as [s1 [s0 [Hs [Hs1 Hs0]]]].
    { apply Z.mod_pos_bound; lia. }
    assert (Hlen : (if (n / 3600 <? 10)%Z then 1%nat else 2%nat)
                   = (if (n <? 36000)%Z then 1%nat else 2%nat)).
    { destruct (Z.ltb_spec (n / 3600) 10) as [H1 | H1];
        destruct (Z.ltb_spec n 36000) as [H2 | H2]; try reflexivity; exfalso.
      - assert (36000 / 3600 <= n / 3600) by (apply Z.div_le_mono; lia).
        change (36000 / 3600) with 10 in *. lia.
      - assert (n / 3600 < 10) by (apply Z.div_lt_upper_bound; lia). lia. }
    rewrite Hlen in Hhl.
    exists m1, m0, s1, s0. rewrite Hm, Hs.
    split; [reflexivity |]. split; [reflexivity |]. split; [reflexivity |].
    split.
    { rewrite forallb_app, Hhd. cbn [forallb]. now rewrite Hm1, Hm0, Hs1, Hs0. }
    split; [exact Hhl |].
    destruct (str_of_int (n / 3600)) as [| h1 [| h0 [| h r]]] eqn:E;
      destruct (Z.ltb_spec n 36000); cbn [List.length] in Hhl; try discriminate Hhl.
    + reflexivity.
    + cbn [forallb] in Hhd. apply andb_true_iff in Hhd. destruct Hhd as [Hd1 Hd0].
      apply andb_true_iff in Hd0. destruct Hd0 as [Hd0 _].
      cbn [app is_HH_MM_SS negb]. rewrite Hd1, Hd0, Hm1, Hm0, Hs1, Hs0. reflexivity.
  - intros Hn Hd.
    pose proof (Z.mod_pos_bound n 86400 ltac:(lia)) as Hm.
    rewrite (hhmmss_from_one_day n Hn Hd), (hhmmss_below_one_day (n mod 86400) Hm).
    eexists. split; [reflexivity |]. split; [reflexivity |].
    (* the text is longer than eight characters *)
    set (d := str_of_int (n / 86400)).
    set (tl := (if n / 86400 =? 1 then [] else lit "s") ++ lit ", "
               ++ str_of_int (n mod 86400 / 3600) ++ lit ":"
               ++ pad2 (n mod 86400 / 60 mod 60) ++ lit ":" ++ pad2 (n mod 86400 mod 60)).
    assert (Htl : (2 <= List.length tl)%nat).
    { unfold tl. destruct (n / 86400 =? 1); rewrite ?length_app; cbn [List.length lit map
        list_ascii_of_string]; lia. }
    assert (Hclock : (7 <= List.length tl)%nat).
    { unfold tl. destruct (pad2_two_digits (n mod 86400 / 60 mod 60)) as [a [b [E1 _]]].
      { apply Z.mod_pos_bound; lia. }
      destruct (pad2_two_digits (n mod 86400 mod 60)) as [a' [b' [E2 _]]].
      { apply Z.mod_pos_bound; lia. }
      rewrite E1, E2. destruct (n / 86400 =? 1); rewrite ?length_app;
        cbn [List.length lit map list_ascii_of_string]; lia. }
    change (is_HH_MM_SS (d ++ lit " day" ++ tl) = false).
    assert (Hlen : (9 <= List.length (d ++ lit " day" ++ tl))%nat).
    { rewrite !length_app. cbn [List.length lit map list_ascii_of_string]. lia. }
    destruct (d ++ lit " day" ++ tl) as [| c1 [| c2 [| c3 [| c4 [| c5 [| c6 [| c7 [| c8
      [| c9 r]]]]]]]]]; cbn [List.length] in Hlen; try lia; reflexivity.
Qed.

(** The float 5.9, as [update_time] passes fractions of a second. *)
Lemma C8_hhmmss_format_witness :
  exists m1 m0 s1 s0,
    hhmmss (PFloat (S754_finite false 6642809450371482 (-50)))
    = Some (str_of_int (5 / 3600) ++ [58%N; m1; m0; 58%N; s1; s0])
    /\ [m1; m0] = pad2 (5 / 60 mod 60) /\ [s1; s0] = pad2 (5 mod 60)
    /\ forallb is_digit (str_of_int (5 / 3600) ++ [m1; m0; s1; s0]) = true
    /\ List.length (str_of_int (5 / 3600)) = (if (5 <? 36000)%Z then 1%nat else 2%nat)
    /\ is_HH_MM_SS (str_of_int (5 / 3600) ++ [58%N; m1; m0; 58%N; s1; s0])
       = negb (5 <? 36000).
Proof.
  destruct (C8_hhmmss_format (PFloat (S754_finite false 6642809450371482 (-50))) 5)
    as [H _]; [vm_compute; reflexivity |].
  apply H. lia.
Defined.

(** The text for one day, and for ten hours. *)
Lemma hhmmss_examples :
  hhmmss (PInt 86400) = Some (lit "1 day, 0:00:00")
  /\ hhmmss (PInt 36000) = Some (lit "10:00:00")
  /\ hhmmss (PInt 200000) = Some (lit "2 days, 7:33:20").
Proof. repeat split; vm_compute; reflexivity. Qed.

End UtilFacts.

(* ------------------------------------------------------------------ *)
(** * Facts about the trim action *)

Section TrimFacts.
Import PyStr MainUI.

Definition bad_range_warning : effect :=
  QMessageBox_warning "Bad range" "End must be after Start.".

(** C6: when the end of the selection is not after its start,
    [trim_save] leaves the window state unchanged, starts no thread (so
    no subprocess) and opens no save dialog; with a video loaded its only
    effect is the warning; and it starts the ffmpeg thread only when the
    end is after the start. *)
Theorem C6_trim_save_rejects_bad_range (u : t) (dst : str) :
  (RangeSlider.upperValue (range_slider u) <= RangeSlider.lowerValue (range_slider u) ->
     fst (trim_save u dst) = u
     /\ (forall e, In e (snd (trim_save u dst)) -> e = bad_range_warning)
     /\ (video_path u <> None -> snd (trim_save u dst) = [bad_range_warning]))
  /\ (forall ff, In (Thread_start ff) (snd (trim_save u dst)) ->
        RangeSlider.lowerValue (range_slider u) < RangeSlider.upperValue (range_slider u)).
Proof.
  unfold trim_save, bad_range_warning. split.
  - intros Hle. destruct (video_path u) as [src |].
    + apply Z.leb_le in Hle. rewrite Hle. cbn [fst snd].
      split; [reflexivity | split; [| reflexivity]].
      intros e [He | []]; now subst e.
    + cbn [fst snd]. split; [reflexivity | split].
      * intros e [].
      * intros H; now elim H.
  - intros ff Hin. destruct (video_path u) as [src |]; [| destruct Hin].
    destruct (Z.leb_spec (RangeSlider.upperValue (range_slider u))
                         (RangeSlider.lowerValue (range_slider u))) as [Hle | Hlt].
    + destruct Hin as [Hin | []]; discriminate Hin.
    + exact Hlt.
Qed.

(** The scenario of the specification: start 50, end 20. *)
Lemma C6_trim_save_rejects_bad_range_witness :
  let u := mk (Some (lit "/tmp/lobster_x/clip.mp4")) (Some (lit "/tmp/lobster_x"))
              (RangeSlider.mk 0 120 50 20 50 8 900) true "Trim & Save" 1 0 in
  fst (trim_save u (lit "out.mp4")) = u
  /\ snd (trim_save u (lit "out.mp4")) = [bad_range_warning].
Proof.
  cbv zeta.
  destruct (C6_trim_save_rejects_bad_range
              (mk (Some (lit "/tmp/lobster_x/clip.mp4")) (Some (lit "/tmp/lobster_x"))
                  (RangeSlider.mk 0 120 50 20 50 8 900) true "Trim & Save" 1 0)
              (lit "out.mp4")) as [H _].
  assert (Hle : 20 <= 50) by lia.
  destruct (H Hle) as [H1 [_ H3]].
  split; [exact H1 | apply H3; discriminate].
Defined.

(** With the end after the start and a destination chosen, the thread is
    started on the stream-copy command line. *)
Lemma trim_save_starts_ffmpeg (u : t) (src dst : str) :
  video_path u = Some src -> dst <> [] ->
  RangeSlider.lowerValue (range_slider u) < RangeSlider.upperValue (range_slider u) ->
  snd (trim_save u dst)
  = [QFileDialog_getSaveFileName "Save clip" src;
     Thread_start (ffmpeg_args (RangeSlider.lowerValue (range_slider u))
                               (RangeSlider.upperValue (range_slider u)) src dst)].
Proof.
  intros Hv Hd Hlt. unfold trim_save. rewrite Hv.
  destruct (Z.leb_spec (RangeSlider.upperValue (range_slider u))
                       (RangeSlider.lowerValue (range_slider u))); [lia |].
  destruct dst; [now elim Hd | reflexivity].
Qed.

End TrimFacts.

(* ------------------------------------------------------------------ *)
(** * Facts about the download worker *)

Section WorkerFacts.
Import PyNum PyStr DownloadWorker.

Definition is_error (sg : signal) : bool :=
  match sg with error _ => true | _ => false end.
Definition is_finished (sg : signal) : bool :=
  match sg with finished _ _ => true | _ => false end.
Definition is_progress (sg : signal) : bool :=
  match sg with progress _ => true | _ => false end.

Definition count (p : signal -> bool) (l : list signal) : nat :=
  List.length (filter p l).

Lemma count_app (p : signal -> bool) (l1 l2 : list signal) :
  count p (l1 ++ l2) = (count p l1 + count p l2)%nat.
Proof. unfold count. now rewrite filter_app, length_app. Qed.

Lemma phook_only_progress (d : hook_dict) (sg : list signal) :
  phook d = Some sg -> forallb is_progress sg = true.
Proof.
  unfold phook.
  destruct (str_eqb (status d) (lit "downloading")); [| now intros [= <-]].
  destruct (py_or (total_bytes d) (total_bytes_estimate d)) as [t |];
    [| now intros [= <-]].
  destruct (truthy t); [| now intros [= <-]].
  destruct (mul (from_option (downloaded_bytes d) (PInt 0)) (PInt 100)) as [n |];
    [| discriminate].
  cbn [bind]. destruct (truediv n t) as [q |]; [| discriminate].
  cbn [bind]. destruct (py_int (PFloat q)) as [pct |]; [| discriminate].
  now intros [= <-].
Qed.

Lemma run_hooks_only_progress (ds : list hook_dict) :
  forallb is_progress (fst (run_hooks ds)) = true.
Proof.
  induction ds as [| d ds IH]; [reflexivity |].
  cbn [run_hooks]. destruct (phook d) as [sg |] eqn:E; [| reflexivity].
  destruct (run_hooks ds) as [rest raised]. cbn [fst] in *.
  rewrite forallb_app, IH, (phook_only_progress d sg E). reflexivity.
Qed.

Lemma only_progress_counts (l : list signal) :
  forallb is_progress l = true ->
  count is_error l = 0%nat /\ count is_finished l = 0%nat.
Proof.
  induction l as [| sg l IH]; [now split |].
  cbn [forallb]. intros H. apply andb_true_iff in H. destruct H as [H1 H2].
  destruct sg; try discriminate H1. unfold count in *. cbn. now apply IH.
Qed.

(** Every run ends with exactly one terminal signal: one [error] or one
    [finished], never both, never twice. *)
Lemma run_one_terminal_signal (tmp : str) (w : world) :
  (count is_error (run tmp w) + count is_finished (run tmp w) = 1)%nat.
Proof.
  unfold run. destruct (extract_info w) as [e | i]; [reflexivity |].
  pose proof (run_hooks_only_progress (hook_calls w)) as Hp.
  destruct (run_hooks (hook_calls w)) as [sg raised]. cbn [fst] in Hp.
  destruct (only_progress_counts sg Hp) as [He Hf].
  destruct raised; [| destruct (download w); [| destruct (mp4_exists w)]];
    rewrite !count_app, He, Hf; reflexivity.
Qed.

(** C9, as stated, fails: metadata without a duration, a download that
    succeeds and an output file that exists give [progress(100)] and
    [finished(path, 0)], and no [error]. *)
Lemma C9_missing_duration_is_no_failure :
  let w := {| extract_info := inr {| duration := None; title := Some (lit "a") |};
              hook_calls := [];
              download := None;
              mp4_exists := true |} in
  run (lit "/tmp/lobster_x") w
  = [progress 100; finished (lit "/tmp/lobster_x/a.mp4") (PInt 0)].
Proof. vm_compute. reflexivity. Qed.

(** C9 (amended): when the metadata query yields no duration, the worker
    goes on with duration 0: the run emits exactly one terminal signal,
    [finished] with duration 0 when the hook and the download raise
    nothing and the output file exists, and a single [error] otherwise. *)
Theorem C9_missing_duration_defaults_to_zero (tmp : str) (w : world) (i : info) :
  extract_info w = inr i -> duration i = None ->
  (count is_error (run tmp w) + count is_finished (run tmp w) = 1)%nat
  /\ (forall p d, In (finished p d) (run tmp w) -> d = PInt 0)
  /\ (count is_finished (run tmp w) = 1%nat
      <-> snd (run_hooks (hook_calls w)) = false
          /\ download w = None /\ mp4_exists w = true).
Proof.
  intros Hi Hd. split; [apply run_one_terminal_signal |].
  unfold run. rewrite Hi, Hd. cbn [py_or from_option].
  pose proof (run_hooks_only_progress (hook_calls w)) as Hp.
  destruct (run_hooks (hook_calls w)) as [sg raised]. cbn [fst snd] in *.
  destruct (only_progress_counts sg Hp) as [He Hf].
  assert (Hnf : forall p d, ~ In (finished p d) sg).
  { intros p d Hin. rewrite forallb_forall in Hp. now apply Hp in Hin. }
  destruct raised; [| destruct (download w) as [e |]; [| destruct (mp4_exists w)]];
    (split;
     [ intros p d Hin; apply in_app_or in Hin; destruct Hin as [Hin | Hin];
       [ now apply Hnf in Hin
       | cbn in Hin; intuition (try discriminate); congruence ]
     | rewrite count_app, Hf; cbn; split; [ intros H; try discriminate H; auto | intros [H1 [H2 H3]]; try discriminate; auto ] ]).
Qed.

Lemma C9_missing_duration_defaults_to_zero_witness :
  let w := {| extract_info := inr {| duration := None; title := Some (lit "a") |};
              hook_calls := [];
              download := None;
              mp4_exists := true |} in
  (count is_error (run (lit "/tmp/lobster_x") w)
   + count is_finished (run (lit "/tmp/lobster_x") w) = 1)%nat
  /\ (forall p d, In (finished p d) (run (lit "/tmp/lobster_x") w) -> d = PInt 0).
Proof.
  cbv zeta.
  destruct (C9_missing_duration_defaults_to_zero (lit "/tmp/lobster_x")
              {| extract_info := inr {| duration := None; title := Some (lit "a") |};
                 hook_calls := [];
                 download := None;
                 mp4_exists := true |}
              {| duration := None; title := Some (lit "a") |}
              eq_refl eq_refl) as [H1 [H2 _]].
  split; [exact H1 | exact H2].
Defined.

End WorkerFacts.

(* ------------------------------------------------------------------ *)
(** * Facts about Python numbers

    Integers below 2^53 are floats: converting them, adding them,
    multiplying them by 1.0 and dividing one by itself are exact, and
    [int()] of a quotient of two of them is the floor of the exact
    quotient. *)

Section PyNumFacts.
Import PyNum.

(** ** Bit lengths and exact shifts *)

(** [digits2_pos] is the bit length [Pos.size]. *)
Lemma digits2_size (p : positive) : digits2_pos p = Pos.size p.
Proof. induction p; cbn; congruence. Qed.

(** A positive number lies between the two powers of two that its bit
    length names. *)
Lemma digits2_bounds (p : positive) :
  2 ^ (Zpos (digits2_pos p) - 1) <= Zpos p < 2 ^ Zpos (digits2_pos p).
Proof.
  rewrite digits2_size.
  pose proof (Pos.size_gt p) as Hgt. pose proof (Pos.size_le p) as Hle.
  apply Pos2Z.pos_lt_pos in Hgt. apply Pos2Z.pos_le_pos in Hle.
  rewrite Pos2Z.inj_pow in Hgt, Hle.
  replace (2 ^ Zpos (Pos.size p)) with (2 * 2 ^ (Zpos (Pos.size p) - 1)) in Hle.
  2:{ rewrite <- Z.pow_succ_r by lia. f_equal. lia. }
  lia.
Qed.

(** ... and that determines the bit length. *)
Lemma Zdigits2_unique (z k : Z) :
  2 ^ (k - 1) <= z < 2 ^ k -> 0 < z -> Zdigits2 z = k.
Proof.
  intros Hz Hpos. destruct z as [| p | p]; try lia. cbn [Zdigits2].
  pose proof (digits2_bounds p) as Hd.
  assert (Hk : 0 < k).
  { destruct (Z.ltb_spec 0 k); [assumption |].
    rewrite (Z.pow_neg_r 2 (k - 1)) in Hz by lia.
    destruct (Z.eqb_spec k 0); [subst; cbn in Hz; lia |].
    rewrite (Z.pow_neg_r 2 k) in Hz by lia. lia. }
  destruct (Z.lt_trichotomy (Zpos (digits2_pos p)) k) as [Hlt | [Heq | Hgt]];
    [| assumption |].
  - assert (2 ^ Zpos (digits2_pos p) <= 2 ^ (k - 1)) by (apply Z.pow_le_mono_r; lia). lia.
  - assert (2 ^ k <= 2 ^ (Zpos (digits2_pos p) - 1)) by (apply Z.pow_le_mono_r; lia). lia.
Qed.

(** Appending [n] zero bits adds [n] to the bit length. *)
Lemma Zdigits2_mul_pow2 (p : positive) (n : Z) :
  0 <= n -> Zdigits2 (Zpos p * 2 ^ n) = Zpos (digits2_pos p) + n.
Proof.
  intros Hn. pose proof (digits2_bounds p) as Hd.
  assert (0 < 2 ^ n) by (apply Z.pow_pos_nonneg; lia).
  apply Zdigits2_unique; [| nia].
  replace (Zpos (digits2_pos p) + n - 1) with ((Zpos (digits2_pos p) - 1) + n) by lia.
  rewrite !Z.pow_add_r by lia. nia.
Qed.

(** The iterator of [shr] counts its steps like [Nat.iter]. *)
Lemma iter_pos_nat {A : Type} (f : A -> A) (n : positive) (x : A) :
  iter_pos f n x = Nat.iter (Pos.to_nat n) f x.
Proof.
  revert x. induction n as [n IH | n IH |]; intros x; cbn [iter_pos].
  - rewrite !IH, Pos2Nat.inj_xI, <- Nat.iter_add, <- Nat.iter_succ_r. f_equal. lia.
  - rewrite !IH, Pos2Nat.inj_xO, <- Nat.iter_add. f_equal. lia.
  - reflexivity.
Qed.

(** Shifting out zero bits leaves the round and sticky bits clear. *)
Lemma shr_1_double (z : Z) :
  shr_1 (Build_shr_record (2 * z) false false) = Build_shr_record z false false.
Proof. destruct z; reflexivity. Qed.

Lemma shr_exact_nat (k : nat) (m : Z) :
  Nat.iter k shr_1 (Build_shr_record (m * 2 ^ Z.of_nat k) false false)
  = Build_shr_record m false false.
Proof.
  induction k as [| k IH].
  - cbn. now rewrite Z.mul_1_r.
  - rewrite Nat.iter_succ_r, Nat2Z.inj_succ, Z.pow_succ_r by lia.
    replace (m * (2 * 2 ^ Z.of_nat k)) with (2 * (m * 2 ^ Z.of_nat k)) by ring.
    now rewrite shr_1_double.
Qed.

Lemma shr_exact (m e n : Z) :
  0 <= n ->
  shr (Build_shr_record (m * 2 ^ n) false false) e n
  = (Build_shr_record m false false, e + n).
Proof.
  intros Hn. destruct n as [| p | p]; try lia.
  - cbn [shr]. now rewrite Z.mul_1_r, Z.add_0_r.
  - cbn [shr]. rewrite iter_pos_nat.
    rewrite <- (positive_nat_Z p) at 1. now rewrite shr_exact_nat.
Qed.

(** The exponent function of binary64 away from the subnormal range. *)
Lemma fexp_normal (x : Z) : -1021 <= x -> fexp prec emax x = x - 53.
Proof. intros H. unfold fexp, emin, prec, emax. lia. Qed.

(** The normalised representation of a value [c * 2^n] whose significand
    [c] has 53 bits. *)
Lemma binary_round_aux_exact (s : bool) (c : positive) (n e : Z) :
  Zpos (digits2_pos c) = 53 -> 0 <= n -> -1074 <= e + n <= 971 ->
  binary_round_aux prec emax s (Zpos c * 2 ^ n) e loc_Exact
  = S754_finite s c (e + n).
Proof.
  intros Hc Hn He. unfold binary_round_aux, shr_fexp.
  rewrite Zdigits2_mul_pow2, Hc by assumption.
  rewrite fexp_normal by lia.
  replace (53 + n + e - 53 - e) with n by lia.
  cbn [shr_record_of_loc]. rewrite shr_exact by assumption.
  cbn [shr_m loc_of_shr_record round_nearest_even Zdigits2].
  rewrite Hc, fexp_normal by lia.
  replace (53 + (e + n) - 53 - (e + n)) with 0 by lia.
  cbn [shr shr_record_of_loc shr_m].
  unfold emax, prec. destruct (Z.leb_spec (e + n) (1024 - 53)); [reflexivity | lia].
Qed.

(** ** Integers as floats *)

(** The normalised significand and exponent of a positive integer below 2^53. *)
Definition canon_sig (p : positive) : positive :=
  Z.to_pos (Zpos p * 2 ^ (53 - Zpos (digits2_pos p))).
Definition canon_exp (p : positive) : Z := Zpos (digits2_pos p) - 53.
Definition canon (s : bool) (p : positive) : spec_float :=
  S754_finite s (canon_sig p) (canon_exp p).

(** A number below 2^53 has at most 53 bits. *)
Lemma digits2_le_53 (p : positive) : Zpos p < 2 ^ 53 -> Zpos (digits2_pos p) <= 53.
Proof.
  intros Hp. pose proof (digits2_bounds p) as Hd.
  destruct (Z.leb_spec (Zpos (digits2_pos p)) 53); [assumption |].
  assert (2 ^ 53 <= 2 ^ (Zpos (digits2_pos p) - 1)) by (apply Z.pow_le_mono_r; lia).
  lia.
Qed.

Lemma canon_sig_val (p : positive) :
  Zpos (digits2_pos p) <= 53 ->
  Zpos (canon_sig p) = Zpos p * 2 ^ (53 - Zpos (digits2_pos p)).
Proof.
  intros Hd. unfold canon_sig. rewrite Z2Pos.id; [reflexivity |].
  assert (0 < 2 ^ (53 - Zpos (digits2_pos p))) by (apply Z.pow_pos_nonneg; lia). nia.
Qed.

Lemma canon_sig_digits (p : positive) :
  Zpos (digits2_pos p) <= 53 -> Zpos (digits2_pos (canon_sig p)) = 53.
Proof.
  intros Hd.
  change (Zpos (digits2_pos (canon_sig p))) with (Zdigits2 (Zpos (canon_sig p))).
  rewrite canon_sig_val, Zdigits2_mul_pow2 by lia. lia.
Qed.

(** The left shift of [shl_align], as a multiplication. *)
Lemma iter_xO_val (m d : positive) : Zpos (Pos.iter xO m d) = Zpos m * 2 ^ Zpos d.
Proof.
  change (Pos.iter xO m d) with (shift_pos d m).
  rewrite shift_pos_correct. change (Zpower_pos 2 d) with (2 ^ Zpos d). ring.
Qed.

Lemma shl_align_val (m : positive) (e e' : Z) :
  e' <= e ->
  Zpos (fst (shl_align m e e')) = Zpos m * 2 ^ (e - e')
  /\ snd (shl_align m e e') = e'.
Proof.
  intros He. unfold shl_align.
  destruct (e' - e) as [| d | d] eqn:E; cbn [fst snd]; try lia.
  - replace (e - e') with 0 by lia. split; [ring | lia].
  - rewrite iter_xO_val. replace (e - e') with (Zpos d) by lia. split; reflexivity.
Qed.

(** Rounding an integer below 2^53, given as [p * 2^k] with exponent [-k],
    yields its normalised representation. *)
Lemma binary_round_int (s : bool) (mx p : positive) (k : Z) :
  Zpos p < 2 ^ 53 -> 0 <= k -> Zpos mx = Zpos p * 2 ^ k ->
  binary_round prec emax s mx (- k) = canon s p.
Proof.
  intros Hp Hk Hmx. pose proof (digits2_le_53 p Hp) as Hd.
  assert (Hd0 : 0 < Zpos (digits2_pos p)) by lia.
  unfold binary_round.
  change (Zpos (digits2_pos mx)) with (Zdigits2 (Zpos mx)).
  rewrite Hmx, Zdigits2_mul_pow2, fexp_normal by lia.
  replace (Zpos (digits2_pos p) + k + - k - 53) with (canon_exp p)
    by (unfold canon_exp; lia).
  destruct (Z.leb_spec (canon_exp p) (- k)) as [Hle | Hgt].
  - pose proof (shl_align_val mx (- k) (canon_exp p) Hle) as [Hv He].
    destruct (shl_align mx (- k) (canon_exp p)) as [mz ez]. cbn [fst snd] in Hv, He.
    subst ez.
    replace (Zpos mz) with (Zpos (canon_sig p) * 2 ^ 0).
    2:{ rewrite Hv, Hmx, canon_sig_val by lia. unfold canon_exp in *.
        rewrite Z.pow_0_r, Z.mul_1_r, <- !Z.mul_assoc, <- Z.pow_add_r by lia.
        f_equal. f_equal. lia. }
    rewrite binary_round_aux_exact; unfold canon_exp in *; try lia.
    + unfold canon. f_equal. unfold canon_exp. lia.
    + now apply canon_sig_digits.
  - unfold shl_align.
    destruct (canon_exp p - - k) as [| d | d] eqn:E; try lia.
    replace (Zpos mx) with (Zpos (canon_sig p) * 2 ^ (Zpos d)).
    2:{ rewrite Hmx, canon_sig_val by lia.
        rewrite <- Z.mul_assoc, <- Z.pow_add_r by (unfold canon_exp in *; lia).
        f_equal. f_equal. unfold canon_exp in *. lia. }
    rewrite binary_round_aux_exact; unfold canon_exp in *; try lia.
    + unfold canon. f_equal. unfold canon_exp. lia.
    + now apply canon_sig_digits.
Qed.

(** [Zfloat z]: the float nearest to the integer [z]. *)
Definition Zfloat (z : Z) : spec_float := binary_normalize prec emax z 0 false.

Definition sign_of (z : Z) : bool := z <? 0.

(** A non-zero integer below 2^53 converts to its normalised form. *)
Lemma Zfloat_canon (z : Z) :
  z <> 0 -> Z.abs z < 2 ^ 53 -> Zfloat z = canon (sign_of z) (Z.to_pos (Z.abs z)).
Proof.
  intros Hz Hb. unfold Zfloat, binary_normalize, sign_of.
  destruct z as [| p | p]; [now elim Hz | |]; cbn [Z.abs Z.to_pos Z.ltb Z.compare].
  - apply (binary_round_int false p p 0); [exact Hb | lia | ring].
  - apply (binary_round_int true p p 0); [exact Hb | lia | ring].
Qed.

(** ... also when it is given with [k] trailing zero bits and exponent
    [- k], as the aligned sum of [SFadd] is. *)
Lemma binary_normalize_int (z k : Z) :
  Z.abs z < 2 ^ 53 -> 0 <= k ->
  binary_normalize prec emax (z * 2 ^ k) (- k) false = Zfloat z.
Proof.
  intros Hb Hk.
  assert (H2 : 0 < 2 ^ k) by (apply Z.pow_pos_nonneg; lia).
  destruct (Z.eq_dec z 0) as [-> | Hz]; [reflexivity |].
  rewrite Zfloat_canon by assumption. unfold binary_normalize, sign_of.
  destruct (z * 2 ^ k) as [| mx | mx] eqn:E; [nia | |].
  - destruct (Z.ltb_spec z 0); [nia |].
    apply binary_round_int; [rewrite Z2Pos.id; lia | lia |].
    rewrite Z2Pos.id by lia. rewrite Z.abs_eq by lia. now symmetry.
  - destruct (Z.ltb_spec z 0); [| nia].
    apply binary_round_int; [rewrite Z2Pos.id; lia | lia |].
    rewrite Z2Pos.id by lia. rewrite Z.abs_neq by lia.
    rewrite Z.mul_opp_l, E. reflexivity.
Qed.

Lemma canon_exp_range (p : positive) :
  Zpos (digits2_pos p) <= 53 -> -52 <= canon_exp p <= 0.
Proof. unfold canon_exp. lia. Qed.

(** Adding two integer-valued floats whose sum is below 2^53 is exact. *)
Lemma Zfloat_add (a b : Z) :
  Z.abs a < 2 ^ 53 -> Z.abs b < 2 ^ 53 -> Z.abs (a + b) < 2 ^ 53 ->
  SFadd prec emax (Zfloat a) (Zfloat b) = Zfloat (a + b).
Proof.
  intros Ha Hb Hab.
  destruct (Z.eq_dec a 0) as [-> | Ha0]; [| destruct (Z.eq_dec b 0) as [-> | Hb0]].
  - cbn [Z.add]. destruct (Z.eq_dec b 0) as [-> | Hb0]; [reflexivity |].
    rewrite (Zfloat_canon b) by assumption. reflexivity.
  - rewrite Z.add_0_r, (Zfloat_canon a) by assumption. reflexivity.
  - rewrite (Zfloat_canon a), (Zfloat_canon b) by assumption.
    set (pa := Z.to_pos (Z.abs a)). set (pb := Z.to_pos (Z.abs b)).
    assert (Hpa : Zpos pa = Z.abs a) by (unfold pa; rewrite Z2Pos.id; lia).
    assert (Hpb : Zpos pb = Z.abs b) by (unfold pb; rewrite Z2Pos.id; lia).
    assert (Hda : Zpos (digits2_pos pa) <= 53) by (apply digits2_le_53; lia).
    assert (Hdb : Zpos (digits2_pos pb) <= 53) by (apply digits2_le_53; lia).
    pose proof (canon_exp_range pa Hda) as Hea.
    pose proof (canon_exp_range pb Hdb) as Heb.
    unfold canon. cbn [SFadd].
    set (ez := Z.min (canon_exp pa) (canon_exp pb)).
    destruct (shl_align_val (canon_sig pa) (canon_exp pa) ez ltac:(unfold ez; lia)) as [Hva _].
    destruct (shl_align_val (canon_sig pb) (canon_exp pb) ez ltac:(unfold ez; lia)) as [Hvb _].
    rewrite Hva, Hvb, !canon_sig_val by assumption.
    assert (Hsa : cond_Zopp (sign_of a)
                    (Zpos pa * 2 ^ (53 - Zpos (digits2_pos pa)) * 2 ^ (canon_exp pa - ez))
                  = a * 2 ^ (- ez)).
    { rewrite <- Z.mul_assoc, <- Z.pow_add_r by (unfold ez, canon_exp in *; lia).
      replace (53 - Zpos (digits2_pos pa) + (canon_exp pa - ez)) with (- ez)
        by (unfold canon_exp; lia).
      rewrite Hpa. unfold sign_of, cond_Zopp.
      destruct (Z.ltb_spec a 0); [rewrite Z.abs_neq by lia | rewrite Z.abs_eq by lia]; ring. }
    assert (Hsb : cond_Zopp (sign_of b)
                    (Zpos pb * 2 ^ (53 - Zpos (digits2_pos pb)) * 2 ^ (canon_exp pb - ez))
                  = b * 2 ^ (- ez)).
    { rewrite <- Z.mul_assoc, <- Z.pow_add_r by (unfold ez, canon_exp in *; lia).
      replace (53 - Zpos (digits2_pos pb) + (canon_exp pb - ez)) with (- ez)
        by (unfold canon_exp; lia).
      rewrite Hpb. unfold sign_of, cond_Zopp.
      destruct (Z.ltb_spec b 0); [rewrite Z.abs_neq by lia | rewrite Z.abs_eq by lia]; ring. }
    rewrite Hsa, Hsb, <- Z.mul_add_distr_r.
    rewrite <- (Z.opp_involutive ez) at 2.
    apply binary_normalize_int; [assumption | unfold ez; lia].
Qed.

(** 1.0 *)
Lemma Zfloat_one : Zfloat 1 = S754_finite false 4503599627370496 (-52).
Proof. vm_compute. reflexivity. Qed.

Lemma Zfloat_finite (z : Z) : Z.abs z < 2 ^ 53 -> finite_or_raise (Zfloat z) = Some (Zfloat z).
Proof.
  intros Hb. destruct (Z.eq_dec z 0) as [-> | Hz]; [reflexivity |].
  now rewrite Zfloat_canon by assumption.
Qed.

(** [float(z)] does not raise below 2^53. *)
Lemma float_of_int_small (z : Z) : Z.abs z < 2 ^ 53 -> float_of_int z = Some (Zfloat z).
Proof. intros Hb. unfold float_of_int. now apply Zfloat_finite. Qed.

(** Multiplying by 1.0 is exact. *)
Lemma Zfloat_mul_one (z : Z) :
  Z.abs z < 2 ^ 53 -> SFmul prec emax (Zfloat 1) (Zfloat z) = Zfloat z.
Proof.
  intros Hb. rewrite Zfloat_one.
  destruct (Z.eq_dec z 0) as [-> | Hz]; [reflexivity |].
  rewrite Zfloat_canon by assumption.
  set (p := Z.to_pos (Z.abs z)).
  assert (Hp : Zpos p < 2 ^ 53) by (unfold p; rewrite Z2Pos.id; lia).
  pose proof (digits2_le_53 p Hp) as Hd.
  unfold canon. cbn [SFmul xorb].
  rewrite Pos2Z.inj_mul, Z.mul_comm.
  change (Zpos 4503599627370496) with (2 ^ 52).
  rewrite binary_round_aux_exact.
  - f_equal. lia.
  - now apply canon_sig_digits.
  - lia.
  - unfold canon_exp. lia.
Qed.

Lemma round_half_even_exact (m k : Z) :
  0 <= k -> round_half_even (m * 2 ^ k) k = m.
Proof.
  intros Hk. unfold round_half_even.
  assert (H2 : 0 < 2 ^ k) by (apply Z.pow_pos_nonneg; lia).
  rewrite Z.mod_mul, Z.div_mul by lia.
  assert (E : (2 * 0 ?= 2 ^ k) = Lt) by (apply Z.compare_lt_iff; lia).
  now rewrite E.
Qed.

Lemma cond_Zopp_sign (z : Z) : cond_Zopp (sign_of z) (Z.abs z) = z.
Proof.
  unfold cond_Zopp, sign_of. destruct (Z.ltb_spec z 0); lia.
Qed.

(** [round] and [int] give back an integer below 2^53 from its float. *)
Lemma py_round_Zfloat (z : Z) : Z.abs z < 2 ^ 53 -> py_round (PFloat (Zfloat z)) = Some z.
Proof.
  intros Hb. destruct (Z.eq_dec z 0) as [-> | Hz]; [reflexivity |].
  rewrite Zfloat_canon by assumption.
  set (p := Z.to_pos (Z.abs z)).
  assert (Hpz : Zpos p = Z.abs z) by (unfold p; rewrite Z2Pos.id; lia).
  assert (Hd : Zpos (digits2_pos p) <= 53) by (apply digits2_le_53; lia).
  unfold canon, py_round. f_equal.
  rewrite canon_sig_val by assumption.
  destruct (Z.leb_spec 0 (canon_exp p)) as [H0 | H0]; unfold canon_exp in *.
  - replace (53 - Zpos (digits2_pos p)) with 0 by lia.
    replace (Zpos (digits2_pos p) - 53) with 0 by lia.
    rewrite Z.pow_0_r, !Z.mul_1_r, Hpz. apply cond_Zopp_sign.
  - replace (- (Zpos (digits2_pos p) - 53)) with (53 - Zpos (digits2_pos p)) by lia.
    rewrite round_half_even_exact, Hpz by lia. apply cond_Zopp_sign.
Qed.


(** The quotient of a positive integer by itself is 1.0, whatever its size. *)
Lemma SFdiv_self (p : positive) :
  SFdiv prec emax (S754_finite false p 0) (S754_finite false p 0) = Zfloat 1.
Proof.
  rewrite Zfloat_one. cbn [SFdiv xorb]. unfold SFdiv_core_binary.
  replace (Zdigits2 (Zpos p) + 0 - (Zdigits2 (Zpos p) + 0)) with 0 by lia.
  change (Z.min (fexp prec emax 0) (0 - 0)) with (-53).
  change (0 - 0 - -53) with 53.
  cbv beta iota zeta.
  rewrite Z.shiftl_mul_pow2 by lia.
  assert (Hdiv : Z.div_eucl (Zpos p * 2 ^ 53) (Zpos p) = (2 ^ 53, 0)).
  { pose proof (Z.div_eucl_eq (Zpos p * 2 ^ 53) (Zpos p) ltac:(lia)) as Heq.
    pose proof (Z.mod_pos_bound (Zpos p * 2 ^ 53) (Zpos p) ltac:(lia)) as Hb.
    unfold Z.modulo in Hb.
    destruct (Z.div_eucl (Zpos p * 2 ^ 53) (Zpos p)) as [q r].
    assert (r = 0 /\ q = 2 ^ 53) as [-> ->]; [| reflexivity].
    assert (Zpos p * (2 ^ 53 - q) = r) by lia.
    assert (2 ^ 53 - q = 0) by nia. split; nia. }
  rewrite Hdiv.
  assert (Hloc : new_location (Zpos p) 0 = loc_Exact).
  { unfold new_location, new_location_even, new_location_odd.
    destruct (Z.even (Zpos p)); reflexivity. }
  rewrite Hloc. vm_compute. reflexivity.
Qed.

(** [z / z] and [0 / z] on ints. *)
Lemma truediv_self (z : Z) : 0 < z -> truediv (PInt z) (PInt z) = Some (Zfloat 1).
Proof.
  intros Hz. unfold truediv. destruct (Z.eqb_spec z 0); [lia |].
  destruct z as [| p | p]; try lia. cbn [int_as_sf].
  rewrite SFdiv_self. now rewrite Zfloat_one.
Qed.

Lemma truediv_zero (z : Z) : 0 < z -> truediv (PInt 0) (PInt z) = Some (Zfloat 0).
Proof.
  intros Hz. unfold truediv. destruct (Z.eqb_spec z 0); [lia |].
  destruct z as [| p | p]; try lia. reflexivity.
Qed.

(** ** Rounding a quotient *)

Lemma loc_of_shr_record_of_loc (m : Z) (l : location) :
  loc_of_shr_record (shr_record_of_loc m l) = l
  /\ shr_m (shr_record_of_loc m l) = m.
Proof. destruct l as [| [| |]]; split; reflexivity. Qed.

(** A rounding that goes up adds one, and only at or above the midpoint. *)
Lemma round_nearest_even_cases (m : Z) (l : location) :
  round_nearest_even m l = m
  \/ (round_nearest_even m l = m + 1 /\ (l = loc_Inexact Eq \/ l = loc_Inexact Gt)).
Proof.
  destruct l as [| [| |]]; cbn [round_nearest_even]; auto.
  destruct (Z.even m); auto.
Qed.

(** One right shift of a positive significand: the quotient by two, and
    a round bit set only for an odd significand. *)
Lemma half_xI (p : positive) : Zpos p~1 / 2 = Zpos p.
Proof. rewrite Pos2Z.inj_xI. symmetry. apply (Z.div_unique _ _ _ 1); lia. Qed.
Lemma half_xO (p : positive) : Zpos p~0 / 2 = Zpos p.
Proof. rewrite Pos2Z.inj_xO. symmetry. apply (Z.div_unique _ _ _ 0); lia. Qed.

Lemma shr_1_pos (p : positive) (l : location) :
  shr_m (shr_1 (shr_record_of_loc (Zpos p) l)) = Zpos p / 2
  /\ (loc_of_shr_record (shr_1 (shr_record_of_loc (Zpos p) l)) = loc_Inexact Eq
      \/ loc_of_shr_record (shr_1 (shr_record_of_loc (Zpos p) l)) = loc_Inexact Gt
      -> Z.odd (Zpos p) = true).
Proof.
  destruct p as [p | p |]; destruct l as [| [| |]];
    cbn [shr_record_of_loc shr_1 shr_m loc_of_shr_record orb Z.odd];
    rewrite ?half_xI, ?half_xO; (split; [reflexivity |]);
    try reflexivity; intros [H | H]; discriminate H.
Qed.

(** The second normalisation of [binary_round_aux]: a significand of 53
    bits is kept, and 2^53 (a rounding that carried) becomes 2^52 with the
    exponent raised by one. *)
Lemma renormalise (M0 e0 : Z) :
  2 ^ 52 <= M0 <= 2 ^ 53 -> -1000 <= e0 <= 900 ->
  exists M E,
    (let '(mrs, e2) := shr_fexp prec emax M0 e0 loc_Exact in
     match shr_m mrs with
     | Z0 => S754_zero false
     | Zpos m => if e2 <=? emax - prec then S754_finite false m e2
                 else S754_infinity false
     | Zneg _ => S754_nan
     end) = S754_finite false M E
    /\ e0 <= E /\ Zpos M * 2 ^ (E - e0) = M0.
Proof.
  intros HM He. destruct (Z.eq_dec M0 (2 ^ 53)) as [-> | Hne].
  - exists 4503599627370496%positive, (e0 + 1). unfold shr_fexp.
    change (Zdigits2 (2 ^ 53)) with 54.
    rewrite fexp_normal by lia.
    replace (54 + e0 - 53 - e0) with 1 by lia.
    cbn [shr_record_of_loc shr iter_pos]. change (2 ^ 53) with 9007199254740992.
    cbn [shr_1 shr_m orb].
    unfold emax, prec. destruct (Z.leb_spec (e0 + 1) (1024 - 53)); [| lia].
    split; [reflexivity |]. split; [lia |].
    replace (e0 + 1 - e0) with 1 by lia. reflexivity.
  - assert (Hd : Zdigits2 M0 = 53) by (apply Zdigits2_unique; lia).
    destruct M0 as [| m | m]; try lia.
    exists m, e0. unfold shr_fexp. rewrite Hd, fexp_normal by lia.
    replace (53 + e0 - 53 - e0) with 0 by lia.
    cbn [shr_record_of_loc shr shr_m].
    unfold emax, prec. destruct (Z.leb_spec e0 (1024 - 53)); [| lia].
    split; [reflexivity |]. split; [lia |].
    rewrite Z.sub_diag. apply Z.mul_1_r.
Qed.

(** What [binary_round_aux] returns on a quotient of 53 or 54 bits: the
    quotient shifted by [j] places, possibly plus one, and plus one only at
    or above the midpoint. *)
Lemma binary_round_aux_cases (q e : Z) (loc : location) :
  2 ^ 52 <= q < 2 ^ 54 -> -1000 <= e <= 800 ->
  exists M E j M0,
    binary_round_aux prec emax false q e loc = S754_finite false M E
    /\ (j = 0 \/ j = 1) /\ e + j <= E /\ Zpos M * 2 ^ (E - (e + j)) = M0
    /\ (M0 = q / 2 ^ j
        \/ (M0 = q / 2 ^ j + 1
            /\ ((j = 0 /\ (loc = loc_Inexact Eq \/ loc = loc_Inexact Gt))
                \/ (j = 1 /\ Z.odd q = true)))).
Proof.
  intros Hq He. unfold binary_round_aux.
  destruct (Z.ltb_spec q (2 ^ 53)) as [Hlt | Hge].
  - (* 53 bits: no shift *)
    assert (Hd : Zdigits2 q = 53) by (apply Zdigits2_unique; lia).
    unfold shr_fexp at 1. rewrite Hd, fexp_normal by lia.
    replace (53 + e - 53 - e) with 0 by lia. cbn [shr].
    destruct (loc_of_shr_record_of_loc q loc) as [Hl Hm]. rewrite Hl, Hm.
    destruct (renormalise (round_nearest_even q loc) e) as (M & E & HR & HE & HV).
    { destruct (round_nearest_even_cases q loc) as [-> | [-> _]]; lia. }
    { lia. }
    exists M, E, 0, (round_nearest_even q loc).
    split; [exact HR |]. split; [now left |].
    rewrite Z.add_0_r. split; [exact HE |]. split; [exact HV |].
    rewrite Z.pow_0_r, Z.div_1_r.
    destruct (round_nearest_even_cases q loc) as [H | [H Hloc]]; [now left | right].
    split; [exact H | left; split; [reflexivity | exact Hloc]].
  - (* 54 bits: one shift *)
    assert (Hd : Zdigits2 q = 54) by (apply Zdigits2_unique; lia).
    unfold shr_fexp at 1. rewrite Hd, fexp_normal by lia.
    replace (54 + e - 53 - e) with 1 by lia. cbn [shr iter_pos].
    destruct q as [| pq | pq]; try lia.
    destruct (shr_1_pos pq loc) as [Hm Hodd].
    set (rec := shr_1 (shr_record_of_loc (Zpos pq) loc)) in *.
    rewrite Hm.
    assert (Hhalf : 2 ^ 52 <= Zpos pq / 2 < 2 ^ 53).
    { split; [apply Z.div_le_lower_bound; lia | apply Z.div_lt_upper_bound; lia]. }
    destruct (renormalise (round_nearest_even (Zpos pq / 2) (loc_of_shr_record rec)) (e + 1))
      as (M & E & HR & HE & HV).
    { destruct (round_nearest_even_cases (Zpos pq / 2) (loc_of_shr_record rec))
        as [-> | [-> _]]; lia. }
    { lia. }
    exists M, E, 1, (round_nearest_even (Zpos pq / 2) (loc_of_shr_record rec)).
    split; [exact HR |]. split; [now right |].
    split; [exact HE |]. split; [exact HV |].
    rewrite Z.pow_1_r.
    destruct (round_nearest_even_cases (Zpos pq / 2) (loc_of_shr_record rec))
      as [H | [H Hloc]]; [now left | right].
    split; [exact H | right; split; [reflexivity | now apply Hodd]].
Qed.

(** The location computed from a remainder says at or above the midpoint
    only when twice the remainder reaches the divisor. *)
Lemma new_location_midpoint (t r : Z) :
  new_location t r = loc_Inexact Eq \/ new_location t r = loc_Inexact Gt ->
  t <= 2 * r.
Proof.
  unfold new_location, new_location_even, new_location_odd.
  destruct (Z.even t); destruct (Z.eqb_spec r 0) as [-> | Hr];
    intros [H | H]; try discriminate H.
  - assert (E : (2 * r ?= t) = Eq) by congruence.
    apply Z.compare_eq in E. lia.
  - assert (E : (2 * r ?= t) = Gt) by congruence.
    rewrite Z.compare_gt_iff in E. lia.
  - destruct (Z.compare_spec (2 * r + 1) t); discriminate H.
  - destruct (Z.compare_spec (2 * r + 1) t); try discriminate H. lia.
Qed.

(** Truncating a quotient rounded at a finer scale [P]: the rounding adds
    one only at or above the midpoint, which never reaches the next
    integer when the divisor is below [2 * P]. *)
Lemma div_scaled_round (n t P M0 : Z) :
  0 <= n -> 0 < t -> 0 < P -> t < 2 * P ->
  M0 = (n * P) / t \/ (M0 = (n * P) / t + 1 /\ t <= 2 * ((n * P) mod t)) ->
  M0 / P = n / t.
Proof.
  intros Hn Ht HP HtP HM.
  pose proof (Z.div_mod n t ltac:(lia)) as Hdn.
  pose proof (Z.mod_pos_bound n t Ht) as Hrn.
  pose proof (Z.div_mod (n * P) t ltac:(lia)) as Hda.
  pose proof (Z.mod_pos_bound (n * P) t Ht) as Hra.
  set (k := n / t) in *. set (rho := n mod t) in *.
  set (m := (n * P) / t) in *. set (rem := (n * P) mod t) in *.
  assert (Hlow : k * P <= m) by nia.
  symmetry. apply (Z.div_unique_pos M0 P k (M0 - P * k)); [| lia].
  destruct HM as [-> | [-> Hmid]].
  - assert (m < (k + 1) * P) by nia. lia.
  - assert (m + 1 < (k + 1) * P); [| lia].
    assert (rho * P <= (t - 1) * P) by nia.
    assert (t * (m + 1) < t * ((k + 1) * P)) by nia.
    nia.
Qed.

(** [int()] of a positive float given at a finer exponent. *)
Lemma py_int_scaled (M : positive) (E E0 M0 : Z) :
  E0 <= 0 -> E0 <= E -> Zpos M * 2 ^ (E - E0) = M0 ->
  py_int (PFloat (S754_finite false M E)) = Some (M0 / 2 ^ (- E0)).
Proof.
  intros H0 HE HM. cbn [py_int cond_Zopp]. f_equal. subst M0.
  assert (0 < 2 ^ (- E0)) by (apply Z.pow_pos_nonneg; lia).
  destruct (Z.leb_spec 0 E) as [Hpos | Hneg].
  - replace (E - E0) with (E + - E0) by lia.
    rewrite Z.pow_add_r, Z.mul_assoc, Z.div_mul by lia. reflexivity.
  - replace (- E0) with (- E + (E - E0)) by lia.
    rewrite Z.pow_add_r by lia.
    rewrite Z.div_mul_cancel_r; [reflexivity | |];
      apply Z.pow_nonzero; lia.
Qed.

(** [Z.div_eucl] as quotient and remainder. *)
Lemma div_eucl_div_mod (a b : Z) : Z.div_eucl a b = (a / b, a mod b).
Proof. unfold Z.div, Z.modulo. now destruct (Z.div_eucl a b). Qed.

(** The division core on two integers below 2^53. *)
Lemma SFdiv_core_int (pn pt : positive) :
  Zpos pn < 2 ^ 53 -> Zpos pt < 2 ^ 53 ->
  let s := 53 + Zpos (digits2_pos pt) - Zpos (digits2_pos pn) in
  SFdiv_core_binary prec emax (Zpos pn) 0 (Zpos pt) 0
  = ((Zpos pn * 2 ^ s) / Zpos pt, - s,
     new_location (Zpos pt) ((Zpos pn * 2 ^ s) mod Zpos pt)).
Proof.
  intros Hn Ht s.
  pose proof (digits2_le_53 pn Hn) as Hdn. pose proof (digits2_le_53 pt Ht) as Hdt.
  unfold SFdiv_core_binary. cbn [Zdigits2].
  rewrite fexp_normal by lia.
  replace (Z.min (Zpos (digits2_pos pn) + 0 - (Zpos (digits2_pos pt) + 0) - 53) (0 - 0))
    with (- s) by (unfold s; lia).
  replace (0 - 0 - - s) with s by lia.
  assert (Hs : 0 < s) by (unfold s; lia).
  destruct s as [| ps | ps] eqn:Es; try lia.
  rewrite Z.shiftl_mul_pow2 by lia.
  rewrite div_eucl_div_mod. reflexivity.
Qed.

(** [int(n / t)] is the floor of the exact quotient for integers below
    2^53. *)
Lemma py_int_truediv (n t : Z) :
  0 <= n < 2 ^ 53 -> 0 < t < 2 ^ 53 ->
  bind (truediv (PInt n) (PInt t)) (fun q => py_int (PFloat q)) = Some (n / t).
Proof.
  intros Hn Ht.
  destruct (Z.eq_dec n 0) as [-> | Hn0].
  { rewrite truediv_zero by lia. now rewrite Z.div_0_l by lia. }
  unfold truediv. destruct (Z.eqb_spec t 0); [lia |].
  destruct n as [| pn | pn]; try lia. destruct t as [| pt | pt]; try lia.
  cbn [int_as_sf SFdiv xorb].
  pose proof (SFdiv_core_int pn pt ltac:(lia) ltac:(lia)) as Hcore. cbv zeta in Hcore.
  rewrite Hcore.
  pose proof (digits2_le_53 pn ltac:(lia)) as Hdn.
  pose proof (digits2_le_53 pt ltac:(lia)) as Hdt.
  pose proof (digits2_bounds pn) as Hbn. pose proof (digits2_bounds pt) as Hbt.
  set (dn := Zpos (digits2_pos pn)) in *. set (dt := Zpos (digits2_pos pt)) in *.
  assert (Hdn0 : 0 < dn) by (unfold dn; lia).
  assert (Hdt0 : 0 < dt) by (unfold dt; lia).
  set (s := 53 + dt - dn) in *.
  set (a := Zpos pn * 2 ^ s).
  (* the quotient has 53 or 54 bits *)
  assert (Hs2 : 2 ^ s = 2 ^ (53 - dn) * 2 ^ dt)
    by (rewrite <- Z.pow_add_r by lia; f_equal; unfold s; lia).
  assert (H53 : 2 ^ 53 = 2 ^ (53 - dn) * (2 * 2 ^ (dn - 1))).
  { rewrite <- Z.pow_succ_r, <- Z.pow_add_r by lia. f_equal. lia. }
  assert (Hdt2 : 2 ^ dt = 2 * 2 ^ (dt - 1)).
  { rewrite <- Z.pow_succ_r by lia. f_equal. lia. }
  assert (Hp1 : 0 < 2 ^ (53 - dn)) by (apply Z.pow_pos_nonneg; lia).
  assert (Hp2 : 0 < 2 ^ (dn - 1)) by (apply Z.pow_pos_nonneg; lia).
  assert (Hp3 : 0 < 2 ^ (dt - 1)) by (apply Z.pow_pos_nonneg; lia).
  assert (H54 : 2 ^ 54 = 2 * 2 ^ 53) by reflexivity.
  assert (H52 : 2 ^ 53 = 2 * 2 ^ 52) by reflexivity.
  assert (Hq : 2 ^ 52 <= a / Zpos pt < 2 ^ 54).
  { split.
    - apply Z.div_le_lower_bound; [lia |]. unfold a. rewrite Hs2. nia.
    - apply Z.div_lt_upper_bound; [lia |]. unfold a. rewrite Hs2.
      assert (Hdn2 : 2 ^ dn = 2 * 2 ^ (dn - 1)).
      { rewrite <- Z.pow_succ_r by lia. f_equal. lia. }
      assert (Zpos pn * 2 ^ (53 - dn) < 2 ^ 53) by nia.
      assert (Zpos pn * 2 ^ (53 - dn) * 2 ^ dt < 2 ^ 53 * 2 ^ dt) by nia.
      nia. }
  assert (Hsr : -1000 <= - s <= 800) by (unfold s; lia).
  destruct (binary_round_aux_cases (a / Zpos pt) (- s)
              (new_location (Zpos pt) (a mod Zpos pt)) Hq Hsr)
    as (M & E & j & M0 & HR & Hj & HE & HV & HM).
  rewrite HR. cbn [finite_or_raise bind].
  rewrite (py_int_scaled M E (- s + j) M0); [| unfold s; lia | lia | exact HV].
  f_equal.
  assert (HP : 0 < 2 ^ (- (- s + j))) by (apply Z.pow_pos_nonneg; unfold s; lia).
  assert (HP2 : 2 ^ s = 2 ^ (- (- s + j)) * 2 ^ j).
  { rewrite <- Z.pow_add_r by (unfold s; lia). f_equal. lia. }
  apply div_scaled_round; try lia.
  - (* the divisor is below twice the scale *)
    destruct Hj as [-> | ->].
    + replace (- (- s + 0)) with s by lia. rewrite Hs2. nia.
    + change (2 ^ 1) with 2 in HP2. rewrite Hs2 in HP2. nia.
  - destruct Hj as [-> | ->].
    + rewrite Z.pow_0_r, Z.div_1_r in HM.
      replace (- (- s + 0)) with s by lia. fold a.
      destruct HM as [HM | [HM [[_ Hloc] | [Habs _]]]]; [now left | right | lia].
      split; [exact HM | now apply new_location_midpoint].
    + change (2 ^ 1) with 2 in *.
      set (P := 2 ^ (- (- s + 1))) in *.
      assert (Ha : a = (Zpos pn * P) * 2) by (unfold a; rewrite HP2; ring).
      assert (Hhalf : a / Zpos pt / 2 = (Zpos pn * P) / Zpos pt).
      { rewrite Z.div_div, Ha by lia. rewrite Z.div_mul_cancel_r by lia. reflexivity. }
      rewrite Hhalf in HM.
      destruct HM as [HM | [HM [[Habs _] | [_ Hodd]]]]; [now left | lia | right].
      split; [exact HM |].
      (* an odd quotient of [2 * x] by [t] puts [x mod t] at or above the midpoint *)
      pose proof (Z.div_mod a (Zpos pt) ltac:(lia)) as Hda.
      pose proof (Z.mod_pos_bound a (Zpos pt) ltac:(lia)) as Hra.
      pose proof (Z.div_mod (Zpos pn * P) (Zpos pt) ltac:(lia)) as Hdx.
      pose proof (Z.mod_pos_bound (Zpos pn * P) (Zpos pt) ltac:(lia)) as Hrx.
      pose proof (Z.div_mod (a / Zpos pt) 2 ltac:(lia)) as Hd2.
      rewrite Zmod_odd, Hodd, Hhalf in Hd2.
      nia.
Qed.

End PyNumFacts.

(* ------------------------------------------------------------------ *)
(** * Facts about the coordinate mapping of the RangeSlider *)

Section MappingFacts.
Import PyNum RangeSlider.


Definition mappable (s : t) : Prop :=
  _min s < _max s /\ 2 * _handle_r s < width s
  /\ Z.abs (_min s) < 2 ^ 53 /\ Z.abs (_max s) < 2 ^ 53
  /\ _max s - _min s < 2 ^ 53 /\ width s - 2 * _handle_r s < 2 ^ 53.

Definition roundtrip_idempotent (s : t) (x : num) : Prop :=
  exists v p, _pos_to_val s x = Some v /\ _val_to_pos s v = Some p
              /\ _pos_to_val s (PInt p) = Some v.




Lemma lt_int_int (a b : Z) : lt (PInt a) (PInt b) = (a <? b).
Proof.
  unfold lt, Z.ltb. cbn [compare]. now destruct (a ?= b).
Qed.

Section Ends.

Variable s : t.
Hypothesis Hs : mappable s.

Let r := _handle_r s.
Let w := width s - 2 * _handle_r s.







End Ends.




(** Read on pixels, the round trip fails as well: on a slider 19 pixels
    wide over [0 .. 10], the pixel 9.2 maps to value 4 and on to pixel 9,
    while pixel 9 maps to value 3 and on to pixel 8. *)
Lemma round_trip_pixel_not_idempotent :
  let s := RangeSlider.mk 0 10 0 10 0 8 19 in
  let x := PFloat (S754_finite false 5179139571476070 (-49)) in
  _pos_to_val s x = Some 4 /\ _val_to_pos s 4 = Some 9
  /\ _pos_to_val s (PInt 9) = Some 3 /\ _val_to_pos s 3 = Some 8.
Proof. repeat split; vm_compute; reflexivity. Qed.

End MappingFacts.

(* ------------------------------------------------------------------ *)
(** * Facts about the progress hook *)

Section ProgressFacts.
Import PyNum PyStr DownloadWorker.

Definition downloading (a : num) (total estimate : option num) : hook_dict :=
  {| status := lit "downloading";
     downloaded_bytes := Some a;
     total_bytes := total;
     total_bytes_estimate := estimate |}.

Lemma phook_downloading (d : hook_dict) (a t : Z) :
  status d = lit "downloading" -> downloaded_bytes d = Some (PInt a) ->
  py_or (total_bytes d) (total_bytes_estimate d) = Some (PInt t) ->
  0 <= a -> a * 100 < 2 ^ 53 -> 0 < t < 2 ^ 53 ->
  phook d = Some [progress (a * 100 / t)].
Proof.
  intros Hst Hd Ht Ha Hb Htb. unfold phook. rewrite Hst, Ht, Hd.
  change (str_eqb (lit "downloading") (lit "downloading")) with true.
  cbn [truthy from_option mul arith bind].
  destruct (Z.eqb_spec t 0); [lia |]. cbn [negb].
  pose proof (py_int_truediv (a * 100) t ltac:(lia) Htb) as H.
  destruct (truediv (PInt (a * 100)) (PInt t)) as [q |]; [| discriminate H].
  cbn [bind] in *. now rewrite H.
Qed.

(** C7, as stated, fails on byte counts beyond what binary64 resolves:
    with 2^54 - 1 of 2^54 bytes downloaded the quotient rounds to 100.0, so
    the hook emits 100 where the floor of the exact quotient is 99. *)
Lemma C7_percentage_rounds_up_on_huge_counts :
  phook (downloading (PInt (2 ^ 54 - 1)) (Some (PInt (2 ^ 54))) None)
  = Some [progress 100]
  /\ (2 ^ 54 - 1) * 100 / 2 ^ 54 = 99.
Proof. split; vm_compute; reflexivity. Qed.

(** C7 (amended): for a progress dictionary with status "downloading",
    [a] downloaded bytes and a known total of [t] bytes (from
    [total_bytes], or from [total_bytes_estimate] when that is missing or
    zero), with [0 <= a], [100 * a < 2^53] and [0 < t < 2^53], the hook
    emits [progress] with the floor of [a * 100 / t]; 50 of 200 bytes give
    25; and without a total it emits nothing. *)
Theorem C7_progress_percentage (a t : Z) :
  0 <= a -> a * 100 < 2 ^ 53 -> 0 < t < 2 ^ 53 ->
  (forall est, phook (downloading (PInt a) (Some (PInt t)) est)
               = Some [progress (a * 100 / t)])
  /\ phook (downloading (PInt a) None (Some (PInt t)))
     = Some [progress (a * 100 / t)]
  /\ phook (downloading (PInt a) (Some (PInt 0)) (Some (PInt t)))
     = Some [progress (a * 100 / t)]
  /\ phook (downloading (PInt 50) (Some (PInt 200)) None) = Some [progress 25]
  /\ phook (downloading (PInt a) None None) = Some []
  /\ phook (downloading (PInt a) (Some (PInt 0)) None) = Some [].
Proof.
  intros Ha Hb Ht.
  assert (Htruthy : truthy (PInt t) = true).
  { cbn [truthy]. destruct (Z.eqb_spec t 0); [lia | reflexivity]. }
  repeat split.
  - intros est. apply phook_downloading; try assumption; try reflexivity.
    cbn [downloading total_bytes total_bytes_estimate py_or]. now rewrite Htruthy.
  - apply phook_downloading; try assumption; reflexivity.
  - apply phook_downloading; try assumption; reflexivity.
Qed.

Lemma C7_progress_percentage_witness :
  phook (downloading (PInt 50) (Some (PInt 200)) None) = Some [progress (50 * 100 / 200)]
  /\ phook (downloading (PInt 50) None None) = Some [].
Proof.
  destruct (C7_progress_percentage 50 200 ltac:(lia) ltac:(lia) ltac:(lia))
    as (H1 & _ & _ & _ & H5 & _).
  split; [exact (H1 None) | exact H5].
Defined.

End ProgressFacts.

(* ------------------------------------------------------------------ *)
(** * More facts about [sanitize] *)

Section SanitizeFacts.
Import PyNum PyStr Util.

Definition clean (u : str) : Prop := forall c, In c u -> ~ In c invalid_set.

Lemma char_in_INVALID_iff (c : char) : char_in c INVALID = true <-> In c invalid_set.
Proof.
  rewrite char_in_INVALID. split.
  - intros H. apply existsb_exists in H. destruct H as [x [Hx Heq]].
    apply N.eqb_eq in Heq. now subst x.
  - intros H. apply existsb_exists. exists c. split; [exact H | apply N.eqb_refl].
Qed.

(** A string without invalid characters is left as it is. *)
Lemma sanitize_clean (u repl : str) : clean u -> sanitize u repl = u.
Proof.
  induction u as [| c u IH]; intros Hu; [reflexivity |].
  cbn [sanitize]. destruct (char_in c INVALID) eqn:E.
  - apply char_in_INVALID_iff in E. exfalso. apply (Hu c); [now left | exact E].
  - cbn [negb app]. f_equal. apply IH. intros x Hx. apply Hu. now right.
Qed.

Lemma sanitize_clean_result (t repl : str) : clean repl -> clean (sanitize t repl).
Proof.
  intros Hr. induction t as [| c t IH]; [intros x [] |].
  cbn [sanitize]. intros x Hx. apply in_app_or in Hx. destruct Hx as [Hx | Hx].
  - destruct (char_in c INVALID) eqn:E; cbn [negb] in Hx.
    + now apply Hr.
    + destruct Hx as [<- | []]. intros Hin. apply char_in_INVALID_iff in Hin. congruence.
  - now apply IH.
Qed.

(** X1: [sanitize] with any replacement text: the result is free of the
    nine invalid characters exactly when the input already was, or the
    replacement is.  So a replacement that itself holds an invalid character
    defeats the function on every input that needs it. *)
Theorem sanitize_result_clean_iff (t repl : str) :
  clean (sanitize t repl) <-> clean t \/ clean repl.
Proof.
  split.
  - induction t as [| c t IH]; intros H; [left; intros x [] |].
    cbn [sanitize] in H.
    assert (Hrest : clean (sanitize t repl)).
    { intros x Hx. apply H. apply in_or_app. now right. }
    destruct (char_in c INVALID) eqn:E; cbn [negb] in H.
    + right. intros x Hx. apply H. apply in_or_app. now left.
    + destruct (IH Hrest) as [Ht | Hr]; [left | now right].
      intros x [<- | Hx]; [| now apply Ht].
      intros Hin. apply char_in_INVALID_iff in Hin. congruence.
  - intros [Ht | Hr].
    + now rewrite sanitize_clean.
    + now apply sanitize_clean_result.
Qed.

(** X2: with a replacement free of invalid characters, sanitizing
    twice is sanitizing once. *)
Theorem sanitize_idempotent (t repl : str) :
  clean repl -> sanitize (sanitize t repl) repl = sanitize t repl.
Proof. intros Hr. apply sanitize_clean. now apply sanitize_clean_result. Qed.

Lemma sanitize_idempotent_witness :
  sanitize (sanitize (lit "a/b:c") (lit "_")) (lit "_") = sanitize (lit "a/b:c") (lit "_").
Proof.
  apply (sanitize_idempotent (lit "a/b:c") (lit "_")).
  intros x [<- | []]. vm_compute. intuition discriminate.
Defined.

End SanitizeFacts.

(* ------------------------------------------------------------------ *)
(** * More facts about [hhmmss] *)

Section ClockTextFacts.
Import PyNum PyStr Util.

(** Reading a clock text back: fields separated by colons, each a decimal
    number, minutes and seconds on two digits. *)
Fixpoint split_on (sep : char) (s : str) : list str :=
  match s with
  | [] => [[]]
  | c :: r =>
      if N.eqb c sep then [] :: split_on sep r
      else match split_on sep r with
           | f :: fs => (c :: f) :: fs
           | [] => [[c]]
           end
  end.

Fixpoint number (acc : Z) (s : str) : option Z :=
  match s with
  | [] => Some acc
  | c :: r => if is_digit c then number (10 * acc + (Z.of_N c - 48)) r else None
  end.

Definition parse_clock (s : str) : option Z :=
  match split_on 58%N s with
  | [h; [m1; m0]; [s1; s0]] =>
      match h, number 0 h, number 0 [m1; m0], number 0 [s1; s0] with
      | _ :: _, Some hh, Some mm, Some ss => Some (hh * 3600 + mm * 60 + ss)
      | _, _, _, _ => None
      end
  | _ => None
  end.

Fixpoint all_from (P : Z -> bool) (z : Z) (k : nat) : bool :=
  match k with
  | O => true
  | S k' => P z && all_from P (z + 1) k'
  end.

Lemma all_from_spec (P : Z -> bool) (k : nat) (z i : Z) :
  all_from P z k = true -> z <= i < z + Z.of_nat k -> P i = true.
Proof.
  revert z. induction k as [| k IH]; intros z H Hi; [lia |].
  cbn [all_from] in H. apply andb_true_iff in H. destruct H as [Hz Hrest].
  destruct (Z.eq_dec i z) as [-> | Hne]; [exact Hz |].
  apply (IH (z + 1)); [exact Hrest | lia].
Qed.

Definition clock_round_trip (n : Z) : bool :=
  match hhmmss (PInt n) with
  | Some s => match parse_clock s with
              | Some m => Z.eqb m n
              | None => false
              end
  | None => false
  end.

Lemma clock_round_trip_day : all_from clock_round_trip 0 (Z.to_nat 86400) = true.
Proof. vm_compute. reflexivity. Qed.

(** X3: below one day the text of [hhmmss] determines the number of
    seconds: it has three fields separated by colons, the hours without
    padding, the minutes and the seconds on two digits, and reading them
    back as [hours * 3600 + minutes * 60 + seconds] gives the input. *)
Theorem hhmmss_round_trip (n : Z) :
  0 <= n < 86400 ->
  exists s, hhmmss (PInt n) = Some s /\ parse_clock s = Some n.
Proof.
  intros Hn.
  pose proof (all_from_spec clock_round_trip (Z.to_nat 86400) 0 n clock_round_trip_day) as H.
  specialize (H ltac:(lia)). unfold clock_round_trip in H.
  destruct (hhmmss (PInt n)) as [s |]; [| discriminate H].
  exists s. split; [reflexivity |].
  destruct (parse_clock s) as [m |]; [| discriminate H].
  apply Z.eqb_eq in H. now subst m.
Qed.

Lemma hhmmss_round_trip_witness :
  exists s, hhmmss (PInt 3725) = Some s /\ parse_clock s = Some 3725.
Proof. apply (hhmmss_round_trip 3725). lia. Defined.

End ClockTextFacts.

Section ClockDayFacts.
Import PyNum PyStr Util.

(** X4: outside the first day.  [hhmmss] raises exactly when the
    number of whole days (the floor of [n / 86400]) lies outside
    [-999999999 .. 999999999]; otherwise, when that number [d] is not zero,
    the text is [d], the word day with a plural s unless [d] is 1 or -1, a
    comma, and the clock text of the remaining seconds [n mod 86400], so a
    negative input shows a negative day count and a positive clock. *)
Theorem hhmmss_days (n : Z) :
  (hhmmss (PInt n) = None <-> n / 86400 < -999999999 \/ 999999999 < n / 86400)
  /\ (-999999999 <= n / 86400 <= 999999999 -> n / 86400 <> 0 ->
      exists clock,
        hhmmss (PInt (n mod 86400)) = Some clock
        /\ hhmmss (PInt n)
           = Some (str_of_int (n / 86400) ++ lit " day"
                   ++ (if Z.abs (n / 86400) =? 1 then [] else lit "s")
                   ++ lit ", " ++ clock)).
Proof.
  unfold hhmmss, timedelta_of_seconds. cbn [py_int bind].
  pose proof (Z.mod_pos_bound n 86400 ltac:(lia)) as Hm.
  rewrite (Z.div_small (n mod 86400) 86400), (Z.mod_small (n mod 86400) 86400) by lia.
  change ((-999999999 <=? 0) && (0 <=? 999999999)) with true. cbn [bind].
  split.
  - destruct (Z.leb_spec (-999999999) (n / 86400));
      destruct (Z.leb_spec (n / 86400) 999999999); cbn [andb bind];
      split; intros Hx; try discriminate Hx; try reflexivity; lia.
  - intros Hd Hd0.
    destruct (Z.leb_spec (-999999999) (n / 86400)); [| lia].
    destruct (Z.leb_spec (n / 86400) 999999999); [| lia]. cbn [andb bind].
    eexists. split; [reflexivity |].
    unfold timedelta_str. cbn [days seconds].
    destruct (Z.eqb_spec (n / 86400) 0); [contradiction |].
    change (0 =? 0) with true. cbv iota. reflexivity.
Qed.
End ClockDayFacts.

(* ------------------------------------------------------------------ *)
(** * How the value helpers of the RangeSlider compose *)

Section SetterFacts.
Import RangeSlider.

(** X5: each value setter is idempotent: a second call with the same
    argument changes nothing and emits no signal, in every state, consistent
    or not. *)
Theorem setters_idempotent (s : t) (v : Z) :
  setLowerValue (fst (setLowerValue s v)) v = (fst (setLowerValue s v), [])
  /\ setUpperValue (fst (setUpperValue s v)) v = (fst (setUpperValue s v), [])
  /\ setValue (fst (setValue s v)) v = (fst (setValue s v), []).
Proof.
  repeat split.
  - unfold setLowerValue, set_lower, set_value.
    destruct (Z.eqb_spec (Z.max (_min s) (Z.min v (_upper s))) (_lower s)) as [E | E];
      cbn [fst _min _max _lower _upper _value].
    + rewrite E, Z.eqb_refl. reflexivity.
    + destruct (_value s <? Z.max (_min s) (Z.min v (_upper s)));
        cbn [fst _min _max _lower _upper _value]; now rewrite Z.eqb_refl.
  - unfold setUpperValue, set_upper, set_value.
    destruct (Z.eqb_spec (Z.min (_max s) (Z.max v (_lower s))) (_upper s)) as [E | E];
      cbn [fst _min _max _lower _upper _value].
    + rewrite E, Z.eqb_refl. reflexivity.
    + destruct (_value s >? Z.min (_max s) (Z.max v (_lower s)));
        cbn [fst _min _max _lower _upper _value]; now rewrite Z.eqb_refl.
  - unfold setValue, set_value.
    destruct (Z.eqb_spec (Z.max (_lower s) (Z.min v (_upper s))) (_value s)) as [E | E];
      cbn [fst _min _max _lower _upper _value].
    + rewrite E, Z.eqb_refl. reflexivity.
    + now rewrite Z.eqb_refl.
Qed.

(** The fields after a bound setter, when the position is inside the
    selection. *)
Lemma setLowerValue_fields (s : t) (v : Z) :
  _lower s <= _value s ->
  let s' := fst (setLowerValue s v) in
  _min s' = _min s /\ _max s' = _max s /\ _upper s' = _upper s
  /\ _lower s' = Z.max (_min s) (Z.min v (_upper s))
  /\ _value s' = Z.max (_value s) (Z.max (_min s) (Z.min v (_upper s))).
Proof.
  intros H. cbv zeta. unfold setLowerValue, set_lower, set_value.
  destruct (Z.eqb_spec (Z.max (_min s) (Z.min v (_upper s))) (_lower s)) as [E | E];
    cbn [fst _min _max _lower _upper _value]; [lia |].
  destruct (Z.ltb_spec (_value s) (Z.max (_min s) (Z.min v (_upper s))));
    cbn [fst _min _max _lower _upper _value]; lia.
Qed.

Lemma setUpperValue_fields (s : t) (v : Z) :
  _value s <= _upper s ->
  let s' := fst (setUpperValue s v) in
  _min s' = _min s /\ _max s' = _max s /\ _lower s' = _lower s
  /\ _upper s' = Z.min (_max s) (Z.max v (_lower s))
  /\ _value s' = Z.min (_value s) (Z.min (_max s) (Z.max v (_lower s))).
Proof.
  intros H. cbv zeta. unfold setUpperValue, set_upper, set_value.
  destruct (Z.eqb_spec (Z.min (_max s) (Z.max v (_lower s))) (_upper s)) as [E | E];
    cbn [fst _min _max _lower _upper _value]; [lia |].
  rewrite Z.gtb_ltb.
  destruct (Z.ltb_spec (Z.min (_max s) (Z.max v (_lower s))) (_value s));
    cbn [fst _min _max _lower _upper _value]; lia.
Qed.

(** X6: [setRange(lo, hi)], then [setLowerValue(a)], then
    [setUpperValue(b)] with [lo <= a <= b <= hi] selects exactly [[a, b]]
    within [[lo, hi]], whatever the slider held before; the playhead ends at
    its old value clamped into [[a, b]], and the state is consistent. *)
Theorem fresh_range_selection (s : t) (lo hi a b : Z) :
  lo <= a -> a <= b -> b <= hi ->
  let s1 := fst (setRange s lo hi) in
  let s2 := fst (setLowerValue s1 a) in
  let s3 := fst (setUpperValue s2 b) in
  _min s3 = lo /\ _max s3 = hi /\ _lower s3 = a /\ _upper s3 = b
  /\ _value s3 = clamp a b (_value s)
  /\ consistent s3.
Proof.
  intros H1 H2 H3. cbv zeta.
  set (s1 := fst (setRange s lo hi)).
  assert (F1 : _min s1 = lo /\ _max s1 = hi /\ _lower s1 = lo /\ _upper s1 = hi
               /\ _value s1 = Z.max lo (Z.min (_value s) hi)).
  { unfold s1, setRange. cbn [fst _min _max _lower _upper _value]. tauto. }
  destruct F1 as (A1 & A2 & A3 & A4 & A5).
  pose proof (setLowerValue_fields s1 a ltac:(lia)) as F2. cbv zeta in F2.
  set (s2 := fst (setLowerValue s1 a)) in *.
  destruct F2 as (B1 & B2 & B3 & B4 & B5).
  rewrite A1, A4 in B4, B5. rewrite A1 in B1. rewrite A2 in B2. rewrite A4 in B3.
  assert (B4' : _lower s2 = a) by (clear - B4 H1 H2 H3; lia).
  assert (B5' : _value s2 = Z.max (_value s1) a) by (clear - B5 H1 H2 H3; lia).
  clear B4 B5.
  pose proof (setUpperValue_fields s2 b ltac:(clear - B5' B3 H1 H2 H3 A5; lia)) as F3.
  cbv zeta in F3.
  set (s3 := fst (setUpperValue s2 b)) in *.
  destruct F3 as (C1 & C2 & C3 & C4 & C5).
  rewrite B2, B4' in C4, C5. rewrite B1 in C1. rewrite B2 in C2. rewrite B4' in C3.
  assert (C4' : _upper s3 = b) by (clear - C4 H1 H2 H3; lia).
  assert (C5' : _value s3 = Z.min (_value s2) b) by (clear - C5 H1 H2 H3; lia).
  clear C4 C5.
  assert (V : _value s3 = clamp a b (_value s)).
  { rewrite C5', B5', A5. unfold clamp. clear - H1 H2 H3.
    destruct (Z.ltb_spec (_value s) a); destruct (Z.ltb_spec b (_value s)); lia. }
  split; [exact C1 |]. split; [exact C2 |]. split; [exact C3 |]. split; [exact C4' |].
  split; [exact V |].
  unfold consistent. rewrite C1, C2, C3, C4', C5', B5', A5. clear - H1 H2 H3. lia.
Qed.

Lemma fresh_range_selection_witness :
  let s3 := fst (setUpperValue (fst (setLowerValue (fst (setRange (init 0 99 900) 0 120)) 30)) 90) in
  _lower s3 = 30 /\ _upper s3 = 90 /\ _value s3 = 30.
Proof.
  cbv zeta.
  destruct (fresh_range_selection (init 0 99 900) 0 120 30 90) as (_ & _ & H3 & H4 & H5 & _);
    try lia.
  split; [exact H3 | split; [exact H4 | exact H5]].
Defined.

(** An operation other than [setRange]. *)
Definition keeps_range (o : op) : Prop :=
  match o with
  | SetRange _ _ => False
  | _ => True
  end.

Lemma run_keeps_geometry (o : op) (s : t) :
  _handle_r (fst (run o s)) = _handle_r s /\ width (fst (run o s)) = width s
  /\ (keeps_range o -> _min (fst (run o s)) = _min s /\ _max (fst (run o s)) = _max s).
Proof.
  destruct o as [a b | v | v | v]; cbn [run keeps_range].
  - cbn. tauto.
  - unfold setLowerValue, set_lower, set_value.
    destruct (_ =? _); [now repeat split |]. destruct (_ <? _); now repeat split.
  - unfold setUpperValue, set_upper, set_value.
    destruct (_ =? _); [now repeat split |]. destruct (_ >? _); now repeat split.
  - unfold setValue, set_value. destruct (_ =? _); now repeat split.
Qed.

(** X7: the selection invariant survives every sequence of calls of
    the value helpers whose [setRange] calls are well ordered, started in a
    consistent state; the handle radius and the width are never written, and
    without a [setRange] the range itself stays as it was. *)
Theorem call_sequences_keep_invariant (os : list op) (s : t) :
  consistent s -> Forall well_ordered os ->
  let s' := fold_left (fun st o => fst (run o st)) os s in
  consistent s' /\ _handle_r s' = _handle_r s /\ width s' = width s
  /\ (Forall keeps_range os -> _min s' = _min s /\ _max s' = _max s).
Proof.
  intros Hs Hos. cbv zeta. split; [now apply run_all_consistent |].
  clear Hs Hos. revert s. induction os as [| o os IH]; intros s.
  - cbn [fold_left]. now repeat split.
  - cbn [fold_left].
    destruct (IH (fst (run o s))) as (Hr & Hw & Hm).
    destruct (run_keeps_geometry o s) as (Hr1 & Hw1 & Hm1).
    split; [congruence |]. split; [congruence |].
    intros Hk. inversion Hk as [| ? ? Ho Hk']; subst.
    destruct (Hm Hk') as [E1 E2]. destruct (Hm1 Ho) as [E3 E4]. split; congruence.
Qed.

Lemma call_sequences_keep_invariant_witness :
  consistent (fold_left (fun st o => fst (run o st))
                [SetRange 0 120; SetUpperValue 90; SetLowerValue 200; SetValue (-5)]
                (init 0 99 900)).
Proof.
  apply (call_sequences_keep_invariant
           [SetRange 0 120; SetUpperValue 90; SetLowerValue 200; SetValue (-5)]
           (init 0 99 900)).
  - unfold consistent. cbn. lia.
  - repeat constructor. cbn. lia.
Defined.

End SetterFacts.

(* ------------------------------------------------------------------ *)
(** * Facts about the mouse handlers of the RangeSlider *)

Section MouseFacts.
Import PyNum RangeSlider RangeSliderMouse.

(** No number is below itself, NaN included. *)
Lemma SFcompare_refl (f : spec_float) : SFcompare f f <> Some Lt.
Proof.
  destruct f as [[|] | [|] | | [|] m e]; cbn; try discriminate;
    rewrite Z.compare_refl, Pos.compare_cont_refl; discriminate.
Qed.

Lemma py_lt_irrefl (a : num) : lt a a = false.
Proof.
  unfold lt. destruct a as [z | f]; cbn [compare].
  - now rewrite Z.compare_refl.
  - pose proof (SFcompare_refl f). destruct (SFcompare f f) as [[| |] |]; congruence.
Qed.

(** X8: dragging is the setter of the active handle applied to the
    value under the cursor: from a consistent state the follow-up [setValue]
    of [_move] never runs, the active handle stays the same, and the state
    stays consistent; with no active handle nothing changes. *)
Theorem move_is_the_setter (m m' : t) (x : num) (ev : list signal) :
  consistent (slider m) -> _move m x = Some (m', ev) ->
  exists v,
    _pos_to_val (slider m) x = Some v
    /\ (slider m', ev)
       = match _active m with
         | Some low => setLowerValue (slider m) v
         | Some high => setUpperValue (slider m) v
         | Some mid => setValue (slider m) v
         | None => (slider m, [])
         end
    /\ _active m' = _active m
    /\ consistent (slider m').
Proof.
  intros Hc. unfold _move.
  destruct (_pos_to_val (slider m) x) as [v |]; [| discriminate]. cbn [bind].
  intros H. exists v. split; [reflexivity |].
  destruct (_active m) as [[| |] |] eqn:Ea.
  - pose proof (setLowerValue_consistent (slider m) v Hc) as Hc1.
    destruct (setLowerValue (slider m) v) as [s1 e1]. cbn [fst] in Hc1.
    destruct (Z.ltb_spec (_value s1) (_lower s1)) as [Hlt | Hge].
    + unfold consistent in Hc1. lia.
    + injection H as <- <-. cbn [slider _active].
      split; [reflexivity | split; [reflexivity | exact Hc1]].
  - pose proof (setValue_consistent (slider m) v Hc) as Hc1.
    destruct (setValue (slider m) v) as [s1 e1]. cbn [fst] in Hc1.
    injection H as <- <-. cbn [slider _active].
      split; [reflexivity | split; [reflexivity | exact Hc1]].
  - pose proof (setUpperValue_consistent (slider m) v Hc) as Hc1.
    destruct (setUpperValue (slider m) v) as [s1 e1]. cbn [fst] in Hc1.
    rewrite Z.gtb_ltb in H.
    destruct (Z.ltb_spec (_upper s1) (_value s1)) as [Hlt | Hge].
    + unfold consistent in Hc1. lia.
    + injection H as <- <-. cbn [slider _active].
      split; [reflexivity | split; [reflexivity | exact Hc1]].
  - injection H as <- <-. rewrite Ea.
    split; [reflexivity | split; [reflexivity | exact Hc]].
Qed.

Lemma move_is_the_setter_witness :
  exists m' ev,
    _move (mk (RangeSlider.mk 0 120 30 90 40 8 900) (Some low)) (PInt 600) = Some (m', ev)
    /\ consistent (slider m') /\ _active m' = Some low.
Proof.
  destruct (_move (mk (RangeSlider.mk 0 120 30 90 40 8 900) (Some low)) (PInt 600))
    as [[m' ev] |] eqn:E; [| vm_compute in E; discriminate E].
  exists m', ev. split; [reflexivity |].
  assert (Hc0 : consistent (RangeSlider.mk 0 120 30 90 40 8 900))
    by (unfold consistent; cbn; lia).
  destruct (move_is_the_setter (mk (RangeSlider.mk 0 120 30 90 40 8 900) (Some low))
              m' (PInt 600) ev Hc0 E)
    as (v & _ & _ & Ha & Hc).
  split; [exact Hc | exact Ha].
Defined.

Lemma move_keeps_active (m m' : t) (x : num) (ev : list signal) :
  _move m x = Some (m', ev) -> _active m' = _active m.
Proof.
  unfold _move. destruct (_pos_to_val (slider m) x) as [v |]; [| discriminate].
  cbn [bind]. destruct (_active m) as [[| |] |] eqn:Ea.
  - destruct (setLowerValue (slider m) v) as [s1 e1].
    destruct (_value s1 <? _lower s1); [destruct (setValue s1 (_lower s1)) |];
      now intros [= <- <-].
  - destruct (setValue (slider m) v). now intros [= <- <-].
  - destruct (setUpperValue (slider m) v) as [s1 e1].
    destruct (_value s1 >? _upper s1); [destruct (setValue s1 (_upper s1)) |];
      now intros [= <- <-].
  - intros [= <- <-]. exact Ea.
Qed.

(** X9: on a press, ties go to the first handle in the order low,
    mid, high: while the playhead sits on the lower bound a press never
    grabs the playhead, and while it sits on the upper bound a press never
    grabs the upper handle. *)
Theorem press_tie_break (m m' : t) (x : num) (ev : list signal) :
  mousePressEvent m x = Some (m', ev) ->
  (_value (slider m) = _lower (slider m) -> _active m' <> Some mid)
  /\ (_value (slider m) = _upper (slider m) -> _active m' <> Some high).
Proof.
  unfold mousePressEvent.
  destruct (_val_to_pos (slider m) (_lower (slider m))) as [lx |] eqn:El; [| discriminate].
  destruct (_val_to_pos (slider m) (_value (slider m))) as [mx |] eqn:Em; [| discriminate].
  destruct (_val_to_pos (slider m) (_upper (slider m))) as [ux |] eqn:Eu; [| discriminate].
  cbn [bind].
  destruct (distance x lx) as [dl |] eqn:Edl; [| discriminate].
  destruct (distance x mx) as [dm |] eqn:Edm; [| discriminate].
  destruct (distance x ux) as [dh |] eqn:Edh; [| discriminate].
  cbn [bind]. intros H. apply move_keeps_active in H. cbn [_active] in H. rewrite H.
  split; intros Hv; rewrite Hv in Em.
  - assert (mx = lx) by congruence. subst mx.
    assert (dm = dl) by congruence. subst dm.
    unfold nearest. rewrite py_lt_irrefl. destruct (lt dh dl); discriminate.
  - assert (mx = ux) by congruence. subst mx.
    assert (dm = dh) by congruence. subst dm.
    unfold nearest. destruct (lt dh dl) eqn:E.
    + rewrite py_lt_irrefl. discriminate.
    + rewrite E. discriminate.
Qed.

Lemma press_tie_break_witness :
  exists m' ev,
    mousePressEvent (mk (RangeSlider.mk 0 120 30 90 30 8 900) None) (PInt 200) = Some (m', ev)
    /\ _active m' <> Some mid.
Proof.
  destruct (mousePressEvent (mk (RangeSlider.mk 0 120 30 90 30 8 900) None) (PInt 200))
    as [[m' ev] |] eqn:E; [| vm_compute in E; discriminate E].
  exists m', ev. split; [reflexivity |].
  destruct (press_tie_break _ m' (PInt 200) ev E) as [H _].
  apply H. reflexivity.
Defined.

(** X10: a slider exactly as wide as its two handle caps has a usable
    width of zero: [_pos_to_val] divides by it and raises for every pixel, so
    does every press, and every move with a handle held. *)
Theorem zero_usable_width_raises (m : t) (x : num) :
  width (slider m) = 2 * _handle_r (slider m) ->
  _pos_to_val (slider m) x = None
  /\ mousePressEvent m x = None
  /\ (_active m <> None -> mouseMoveEvent m x = None).
Proof.
  intros Hw.
  assert (Hdiv : forall a, truediv a (PInt 0) = None).
  { intros [z | f]; reflexivity. }
  assert (Hp : forall s, width s = 2 * _handle_r s -> _pos_to_val s x = None).
  { intros s Hs. unfold _pos_to_val. rewrite Hs, Z.sub_diag.
    destruct (sub _ _) as [d |]; [cbn [bind]; now rewrite Hdiv | reflexivity]. }
  split; [now apply Hp |]. split.
  - unfold mousePressEvent.
    repeat match goal with
    | |- bind ?o _ = None => destruct o; cbn [bind]; [| reflexivity]
    end.
    unfold _move. cbn [slider]. now rewrite (Hp _ Hw).
  - intros Ha. unfold mouseMoveEvent, _move.
    destruct (_active m); [| now elim Ha]. now rewrite (Hp _ Hw).
Qed.

Lemma zero_usable_width_raises_witness :
  mousePressEvent (mk (RangeSlider.init 0 99 16) None) (PInt 8) = None.
Proof.
  apply (zero_usable_width_raises (mk (RangeSlider.init 0 99 16) None) (PInt 8)).
  reflexivity.
Defined.

End MouseFacts.

(* ------------------------------------------------------------------ *)
(** * The coordinate mapping on an empty range *)

Section EmptyRangeFacts.
Import PyNum RangeSlider.

(** X11: an empty range ([min = max], as after a download without a
    duration).  [span] falls back to 1, so the right end of the track maps
    to [max + 1], a value outside the range, while the left end maps to
    [min]; on a consistent empty range no setter changes anything or emits
    anything, so the stray value is dropped by the clamp. *)
Theorem empty_range_maps_right_end_outside (s : t) :
  _min s = _max s -> 2 * _handle_r s < width s ->
  width s - 2 * _handle_r s < 2 ^ 53 -> Z.abs (_max s) < 2 ^ 53 - 1 ->
  _pos_to_val s (PInt (width s - _handle_r s)) = Some (_max s + 1)
  /\ _pos_to_val s (PInt (_handle_r s)) = Some (_min s)
  /\ (consistent s ->
      forall v, setLowerValue s v = (s, []) /\ setUpperValue s v = (s, [])
                /\ setValue s v = (s, [])).
Proof.
  intros Heq Hw Hwb Hm.
  assert (Hspan : span s = 1).
  { unfold span. destruct (Z.eqb_spec (_max s - _min s) 0); [reflexivity | lia]. }
  split; [| split].
  - unfold _pos_to_val. rewrite Hspan.
    unfold min2. rewrite lt_int_int, Z.ltb_irrefl. unfold max2. rewrite lt_int_int.
    destruct (Z.ltb_spec (_handle_r s) (width s - _handle_r s)); [| lia].
    unfold sub at 1. unfold arith. cbn [bind].
    replace (width s - _handle_r s - _handle_r s) with (width s - 2 * _handle_r s) by lia.
    rewrite truediv_self by lia. cbn [bind].
    unfold mul, add, arith. cbn [to_float bind].
    rewrite (float_of_int_small 1) by (cbn; lia). cbn [bind].
    rewrite (float_of_int_small (_min s)) by lia. cbn [bind].
    rewrite Zfloat_mul_one by (cbn; lia). cbn [to_float bind].
    rewrite Zfloat_add by (cbn [Z.abs]; lia).
    rewrite py_round_Zfloat by lia. f_equal. lia.
  - unfold _pos_to_val. rewrite Hspan.
    assert (Hmn : min2 (PInt (_handle_r s)) (PInt (width s - _handle_r s))
                  = PInt (_handle_r s)).
    { unfold min2. rewrite lt_int_int.
      destruct (Z.ltb_spec (width s - _handle_r s) (_handle_r s)); [lia | reflexivity]. }
    rewrite Hmn. unfold max2. rewrite lt_int_int, Z.ltb_irrefl.
    unfold sub at 1. unfold arith. cbn [bind]. rewrite Z.sub_diag.
    rewrite truediv_zero by lia. cbn [bind].
    unfold mul, add, arith. cbn [to_float bind].
    rewrite (float_of_int_small 1) by (cbn; lia). cbn [bind].
    rewrite (float_of_int_small (_min s)) by lia. cbn [bind].
    replace (SFmul prec emax (Zfloat 0) (Zfloat 1)) with (Zfloat 0)
      by (vm_compute; reflexivity).
    cbn [to_float bind]. rewrite (Zfloat_add 0 (_min s)) by (cbn [Z.abs]; lia).
    apply py_round_Zfloat. lia.
  - intros [[H1 [H2 H3]] [H4 H5]] v.
    unfold setLowerValue, setUpperValue, setValue.
    replace (Z.max (_min s) (Z.min v (_upper s))) with (_lower s) by lia.
    replace (Z.min (_max s) (Z.max v (_lower s))) with (_upper s) by lia.
    replace (Z.max (_lower s) (Z.min v (_upper s))) with (_value s) by lia.
    now rewrite !Z.eqb_refl.
Qed.

Lemma empty_range_maps_right_end_outside_witness :
  let s := RangeSlider.mk 0 0 0 0 0 8 900 in
  _pos_to_val s (PInt 892) = Some 1 /\ setUpperValue s 1 = (s, []).
Proof.
  cbv zeta.
  destruct (empty_range_maps_right_end_outside (RangeSlider.mk 0 0 0 0 0 8 900))
    as (H1 & _ & H3); try (cbn; lia); try reflexivity.
  split; [exact H1 |].
  apply (H3 ltac:(unfold consistent; cbn; lia) 1).
Defined.

End EmptyRangeFacts.

(* ------------------------------------------------------------------ *)
(** * The signals of a run of the worker *)

Section WorkerSignalFacts.
Import PyNum PyStr Util DownloadWorker.

(** X12: every run of the worker emits a sequence of [progress]
    signals closed by exactly one terminal signal, [error] or [finished],
    as its last signal; [finished] comes directly after [progress(100)]. *)
Theorem run_ends_with_terminal_signal (tmp : str) (w : world) :
  exists pre last,
    run tmp w = pre ++ [last]
    /\ forallb is_progress pre = true
    /\ (is_error last = true \/ is_finished last = true)
    /\ (is_finished last = true -> exists pre', pre = pre' ++ [progress 100]).
Proof.
  unfold run. destruct (extract_info w) as [e | i].
  - exists [], (error e). repeat split; [now left | discriminate].
  - pose proof (run_hooks_only_progress (hook_calls w)) as Hp.
    destruct (run_hooks (hook_calls w)) as [sg raised]. cbn [fst] in Hp.
    destruct raised; [| destruct (download w) as [e |]; [| destruct (mp4_exists w)]].
    + exists sg, (error HookError). repeat split; [exact Hp | now left | discriminate].
    + exists sg, (error e). repeat split; [exact Hp | now left | discriminate].
    + eexists (sg ++ [progress 100]), _. split.
      * rewrite <- app_assoc. reflexivity.
      * split; [rewrite forallb_app, Hp; reflexivity |].
        split; [now right | intros _; now exists sg].
    + eexists sg, _. repeat split; [exact Hp | now left | discriminate].
Qed.

(** The title used for the file name: the one of the metadata, or the
    literal clip when it is missing or empty. *)
Definition title_or_clip (i : info) : str :=
  match title i with
  | Some (c :: r) => c :: r
  | _ => lit "clip"
  end.

(** A [finished] signal means that the metadata query succeeded, and it
    carries the path built from the sanitized title. *)
Lemma run_finished_path (tmp : str) (w : world) (p : str) (d : num) :
  In (finished p d) (run tmp w) ->
  exists i,
    extract_info w = inr i
    /\ p = joinpath tmp (sanitize_default (title_or_clip i) ++ lit ".mp4")
    /\ d = from_option (py_or (duration i) None) (PInt 0).
Proof.
  unfold run. destruct (extract_info w) as [e | i].
  { intros [H | []]. discriminate H. }
  pose proof (run_hooks_only_progress (hook_calls w)) as Hp.
  destruct (run_hooks (hook_calls w)) as [sg raised]. cbn [fst] in Hp.
  assert (Hnf : ~ In (finished p d) sg).
  { intros Hin. rewrite forallb_forall in Hp. now apply Hp in Hin. }
  fold (title_or_clip i). intros Hin. exists i. split; [reflexivity |].
  destruct raised; [| destruct (download w) as [e |]; [| destruct (mp4_exists w)]];
    apply in_app_or in Hin; destruct Hin as [Hin | Hin]; try contradiction;
    cbn [In] in Hin; intuition (try discriminate); congruence.
Qed.

(** X13: the file reported by [finished] lies directly in the
    temporary directory (its path taken as already resolved), under a
    non-empty name free of invalid characters, the path separator among
    them, followed by [.mp4]. *)
Theorem finished_path_is_sanitized (tmp : str) (w : world) (p : str) (d : num) :
  In (finished p d) (run tmp w) ->
  exists safe,
    p = tmp ++ lit "/" ++ safe ++ lit ".mp4"
    /\ safe <> []
    /\ (forall c, In c invalid_set -> ~ In c safe).
Proof.
  intros Hin. destruct (run_finished_path tmp w p d Hin) as (i & _ & Hp & _).
  exists (sanitize_default (title_or_clip i)). split; [exact Hp |]. split.
  - rewrite sanitize_default_map. intros E. apply map_eq_nil in E.
    revert E. unfold title_or_clip. destruct (title i) as [[| c r] |]; discriminate.
  - intros c Hc Hin'. unfold sanitize_default in Hin'.
    exact (sanitize_clean_result (title_or_clip i) (lit "-")
             ltac:(intros x [<- | []]; vm_compute; intuition discriminate) c Hin' Hc).
Qed.

Lemma finished_path_is_sanitized_witness :
  exists safe,
    lit "/tmp/lobster_x/a-b.mp4" = lit "/tmp/lobster_x" ++ lit "/" ++ safe ++ lit ".mp4"
    /\ safe <> [].
Proof.
  destruct (finished_path_is_sanitized (lit "/tmp/lobster_x")
              {| extract_info := inr {| duration := Some (PInt 7); title := Some (lit "a/b") |};
                 hook_calls := []; download := None; mp4_exists := true |}
              (lit "/tmp/lobster_x/a-b.mp4") (PInt 7))
    as (safe & H1 & H2 & _).
  - vm_compute. right. left. reflexivity.
  - exists safe. split; assumption.
Defined.

End WorkerSignalFacts.

(* ------------------------------------------------------------------ *)
(** * The range of the progress percentage *)

Section ProgressRangeFacts.
Import PyNum PyStr DownloadWorker.

(** X14: the percentage of a download with a known total.  While the
    downloaded byte count does not exceed the total [t] (with [100 * t]
    below 2^53), the hook emits one [progress] value between 0 and 100; it is
    100 only when the download is complete, and it does not decrease when
    the count grows.  A dictionary without a downloaded count reports 0, and
    a status other than downloading reports nothing. *)
Theorem progress_percentage_range (a a' t : Z) (est : option num) :
  0 <= a -> a <= a' -> a' <= t -> 0 < t -> t * 100 < 2 ^ 53 ->
  exists pct pct',
    phook (downloading (PInt a) (Some (PInt t)) est) = Some [progress pct]
    /\ phook (downloading (PInt a') (Some (PInt t)) est) = Some [progress pct']
    /\ 0 <= pct /\ pct <= pct' /\ pct' <= 100
    /\ (pct = 100 <-> a = t)
    /\ phook {| status := lit "downloading"; downloaded_bytes := None;
                total_bytes := Some (PInt t); total_bytes_estimate := est |}
       = Some [progress 0]
    /\ (forall st, st <> lit "downloading" ->
        phook {| status := st; downloaded_bytes := Some (PInt a);
                 total_bytes := Some (PInt t); total_bytes_estimate := est |}
        = Some []).
Proof.
  intros Ha Haa Hat Ht Hb.
  assert (Htruthy : truthy (PInt t) = true).
  { cbn [truthy]. destruct (Z.eqb_spec t 0); [lia | reflexivity]. }
  assert (Hor : py_or (Some (PInt t)) est = Some (PInt t)).
  { cbn [py_or]. now rewrite Htruthy. }
  exists (a * 100 / t), (a' * 100 / t).
  split; [apply phook_downloading; try reflexivity; try exact Hor; lia |].
  split; [apply phook_downloading; try reflexivity; try exact Hor; lia |].
  split; [apply Z.div_pos; lia |].
  split; [apply Z.div_le_mono; lia |].
  split; [apply Z.div_le_upper_bound; lia |].
  split; [split |].
  - intros H. pose proof (Z.mul_div_le (a * 100) t Ht) as Hle. nia.
  - intros ->. rewrite Z.mul_comm. apply Z.div_mul. lia.
  - split.
    + unfold phook. cbn [status total_bytes total_bytes_estimate downloaded_bytes].
      change (str_eqb (lit "downloading") (lit "downloading")) with true.
      rewrite Hor, Htruthy. cbn [from_option mul arith bind Z.mul].
      rewrite truediv_zero by lia. reflexivity.
    + intros st Hst. unfold phook, str_eqb. cbn [status].
      destruct (list_eq_dec N.eq_dec st (lit "downloading")); [contradiction | reflexivity].
Qed.

Lemma progress_percentage_range_witness :
  exists pct pct',
    phook (downloading (PInt 50) (Some (PInt 200)) None) = Some [progress pct]
    /\ phook (downloading (PInt 199) (Some (PInt 200)) None) = Some [progress pct']
    /\ pct <= pct' /\ pct' <= 100 /\ (pct = 100 <-> 50 = 200).
Proof.
  destruct (progress_percentage_range 50 199 200 None)
    as (p & p' & H1 & H2 & _ & H4 & H5 & H6 & _); try lia.
  exists p, p'. repeat split; try assumption; apply H6.
Defined.

End ProgressRangeFacts.

(* ------------------------------------------------------------------ *)
(** * Comparing a quotient of integers with an integer *)

Section QuotientFacts.
Import PyNum.

(** What a rounding location says about a remainder [r] of a division by
    [t]: exact, below, at or above the midpoint. *)
Definition loc_ok (t r : Z) (l : location) : Prop :=
  match l with
  | loc_Exact => r = 0
  | loc_Inexact Lt => 0 < 2 * r < t
  | loc_Inexact Eq => 2 * r = t
  | loc_Inexact Gt => t < 2 * r
  end.

Lemma new_location_ok (t r : Z) :
  0 < t -> 0 <= r < t -> loc_ok t r (new_location t r).
Proof.
  intros Ht Hr. unfold new_location, new_location_even, new_location_odd.
  destruct (Z.even t) eqn:Ev; destruct (Z.eqb_spec r 0) as [-> | Hr0];
    try reflexivity.
  - destruct (Z.compare_spec (2 * r) t); cbn [loc_ok]; lia.
  - assert (Hodd : Z.odd t = true) by (rewrite <- Z.negb_even, Ev; reflexivity).
    apply Z.odd_spec in Hodd. destruct Hodd as [k Hk].
    destruct (Z.compare_spec (2 * r + 1) t); cbn [loc_ok]; lia.
Qed.

(** One right shift keeps the location in step with the remainder. *)
Lemma shr_1_ok (p : positive) (l : location) (t r : Z) :
  0 < t -> 0 <= r < t -> loc_ok t r l ->
  shr_m (shr_1 (shr_record_of_loc (Zpos p) l)) = Zpos p / 2
  /\ exists R,
       Zpos p * t + r = (Zpos p / 2) * (2 * t) + R /\ 0 <= R < 2 * t
       /\ loc_ok (2 * t) R (loc_of_shr_record (shr_1 (shr_record_of_loc (Zpos p) l))).
Proof.
  intros Ht Hr Hl.
  destruct p as [p | p |].
  - rewrite half_xI. split; [now destruct l as [| [| |]] |].
    assert (Hx : Zpos p~1 = 2 * Zpos p + 1) by lia.
    exists (r + t). split; [rewrite Hx; ring |]. split; [lia |].
    destruct l as [| [| |]]; cbn [loc_ok loc_of_shr_record shr_1 shr_record_of_loc orb] in Hl |- *; lia.
  - rewrite half_xO. split; [now destruct l as [| [| |]] |].
    assert (Hx : Zpos p~0 = 2 * Zpos p) by lia.
    exists r. split; [rewrite Hx; ring |]. split; [lia |].
    destruct l as [| [| |]]; cbn [loc_ok loc_of_shr_record shr_1 shr_record_of_loc orb] in Hl |- *; lia.
  - change (1 / 2) with 0. split; [now destruct l as [| [| |]] |].
    exists (r + t). split; [lia |]. split; [lia |].
    destruct l as [| [| |]]; cbn [loc_ok loc_of_shr_record shr_1 shr_record_of_loc orb] in Hl |- *; lia.
Qed.

Lemma round_nearest_even_ok (m T R : Z) (l : location) :
  0 < T -> loc_ok T R l ->
  (round_nearest_even m l = m /\ 2 * R <= T)
  \/ (round_nearest_even m l = m + 1 /\ T <= 2 * R).
Proof.
  intros HT Hl. destruct l as [| [| |]]; cbn [round_nearest_even loc_ok] in *.
  - left. split; [reflexivity | lia].
  - destruct (Z.even m); [left | right]; split; try reflexivity; lia.
  - left. split; [reflexivity | lia].
  - right. split; [reflexivity | lia].
Qed.

(** [binary_round_aux] on a quotient of 53 or 54 bits rounds to nearest:
    with [q * t + r] the dividend, the result is the quotient at the scale
    [T = t * 2 ^ j], plus one only at or above the midpoint and unchanged
    only at or below it. *)
Lemma binary_round_aux_nearest (q e t r : Z) (loc : location) :
  2 ^ 52 <= q < 2 ^ 54 -> -1000 <= e <= 800 ->
  0 < t -> 0 <= r < t -> loc_ok t r loc ->
  exists M E j M0 R,
    binary_round_aux prec emax false q e loc = S754_finite false M E
    /\ (j = 0 \/ j = 1) /\ e + j <= E /\ Zpos M * 2 ^ (E - (e + j)) = M0
    /\ q * t + r = (q / 2 ^ j) * (t * 2 ^ j) + R /\ 0 <= R < t * 2 ^ j
    /\ ((M0 = q / 2 ^ j /\ 2 * R <= t * 2 ^ j)
        \/ (M0 = q / 2 ^ j + 1 /\ t * 2 ^ j <= 2 * R)).
Proof.
  intros Hq He Ht Hr Hloc. unfold binary_round_aux.
  destruct (Z.ltb_spec q (2 ^ 53)) as [Hlt | Hge].
  - assert (Hd : Zdigits2 q = 53) by (apply Zdigits2_unique; lia).
    unfold shr_fexp at 1. rewrite Hd, fexp_normal by lia.
    replace (53 + e - 53 - e) with 0 by lia. cbn [shr].
    destruct (loc_of_shr_record_of_loc q loc) as [Hl Hm]. rewrite Hl, Hm.
    destruct (renormalise (round_nearest_even q loc) e) as (M & E & HR & HE & HV).
    { destruct (round_nearest_even_cases q loc) as [-> | [-> _]]; lia. }
    { lia. }
    exists M, E, 0, (round_nearest_even q loc), r.
    split; [exact HR |]. split; [now left |].
    rewrite Z.add_0_r. split; [exact HE |]. split; [exact HV |].
    rewrite Z.pow_0_r, Z.div_1_r, Z.mul_1_r.
    split; [reflexivity |]. split; [exact Hr |].
    now apply round_nearest_even_ok.
  - assert (Hd : Zdigits2 q = 54) by (apply Zdigits2_unique; lia).
    unfold shr_fexp at 1. rewrite Hd, fexp_normal by lia.
    replace (54 + e - 53 - e) with 1 by lia. cbn [shr iter_pos].
    destruct q as [| pq | pq]; try lia.
    destruct (shr_1_ok pq loc t r Ht Hr Hloc) as (Hm & R & HqR & HR0 & HlR).
    set (rec := shr_1 (shr_record_of_loc (Zpos pq) loc)) in *.
    rewrite Hm.
    assert (Hhalf : 2 ^ 52 <= Zpos pq / 2 < 2 ^ 53).
    { split; [apply Z.div_le_lower_bound; lia | apply Z.div_lt_upper_bound; lia]. }
    destruct (renormalise (round_nearest_even (Zpos pq / 2) (loc_of_shr_record rec)) (e + 1))
      as (M & E & HR & HE & HV).
    { destruct (round_nearest_even_cases (Zpos pq / 2) (loc_of_shr_record rec))
        as [-> | [-> _]]; lia. }
    { lia. }
    exists M, E, 1, (round_nearest_even (Zpos pq / 2) (loc_of_shr_record rec)), R.
    split; [exact HR |]. split; [now right |].
    split; [exact HE |]. split; [exact HV |].
    rewrite Z.pow_1_r. replace (t * 2) with (2 * t) by lia.
    split; [exact HqR |]. split; [exact HR0 |].
    apply round_nearest_even_ok; [lia | exact HlR].
Qed.

Lemma mul_compare_pos (a b p : Z) : 0 < p -> (a * p ?= b * p) = (a ?= b).
Proof.
  intros Hp. destruct (Z.compare_spec a b) as [-> | H | H].
  - apply Z.compare_refl.
  - apply Z.compare_lt_iff. nia.
  - apply Z.compare_gt_iff. nia.
Qed.

(** An int against a positive float given at a finer exponent. *)
Lemma compare_int_float_scaled (z : Z) (M : positive) (E E0 M0 : Z) :
  E0 <= 0 -> E0 <= E -> Zpos M * 2 ^ (E - E0) = M0 ->
  compare_int_float z (S754_finite false M E) = Some (z * 2 ^ (- E0) ?= M0).
Proof.
  intros H0 HE HM. cbn [compare_int_float cond_Zopp]. subst M0.
  destruct (Z.leb_spec 0 E) as [Hpos | Hneg]; f_equal.
  - replace (E - E0) with (E + - E0) by lia.
    rewrite Z.pow_add_r, Z.mul_assoc by lia.
    symmetry. apply mul_compare_pos. apply Z.pow_pos_nonneg; lia.
  - replace (- E0) with (- E + (E - E0)) by lia.
    rewrite Z.pow_add_r, Z.mul_assoc by lia.
    symmetry. apply mul_compare_pos. apply Z.pow_pos_nonneg; lia.
Qed.

(** The rounded quotient against an integer, at the scale [P]. *)
Lemma compare_scaled_round (n t P M0 m R z : Z) :
  0 < t -> 0 < P -> t < 2 * P ->
  n * P = m * t + R -> 0 <= R < t ->
  (M0 = m /\ 2 * R <= t) \/ (M0 = m + 1 /\ t <= 2 * R) ->
  (z * P ?= M0) = (z * t ?= n).
Proof.
  intros Ht HP HtP Hdiv HR HM.
  destruct (Z.compare_spec (z * t) n) as [Heq | Hlt | Hgt].
  - (* exact *)
    subst n. assert (R = 0 /\ m = z * P) as [-> ->].
    { assert (Hm : t * (z * P - m) = R) by lia.
      assert (z * P - m = 0) by nia. lia. }
    destruct HM as [[-> _] | [_ Habs]]; [apply Z.compare_refl | lia].
  - apply Z.compare_lt_iff.
    assert (H1 : (z * t + 1) * P <= m * t + R) by nia.
    destruct HM as [[-> Hmid] | [-> Hmid]].
    + assert (~ m <= z * P); [| lia]. intros Hge.
      assert (t * m <= t * (z * P)) by nia. nia.
    + assert (~ m + 1 <= z * P); [| lia]. intros Hge.
      assert (t * (m + 1) <= t * (z * P)) by nia. nia.
  - apply Z.compare_gt_iff.
    assert (H1 : m * t + R + P <= z * t * P) by nia.
    destruct HM as [[-> Hmid] | [-> Hmid]].
    + assert (~ z * P <= m); [| lia]. intros Hle.
      assert (t * (z * P) <= t * m) by nia. nia.
    + assert (~ z * P <= m + 1); [| lia]. intros Hle.
      assert (t * (z * P) <= t * (m + 1)) by nia. nia.
Qed.

(** A quotient of two integers below 2^53 compares with any integer as
    the exact quotient does. *)
Lemma truediv_compare (n t : Z) :
  0 <= n < 2 ^ 53 -> 0 < t < 2 ^ 53 ->
  exists f,
    truediv (PInt n) (PInt t) = Some f
    /\ py_int (PFloat f) = Some (n / t)
    /\ forall z, compare_int_float z f = Some (z * t ?= n).
Proof.
  intros Hn Ht.
  pose proof (py_int_truediv n t Hn Ht) as Hint.
  destruct (Z.eq_dec n 0) as [-> | Hn0].
  { rewrite truediv_zero in * by lia. exists (Zfloat 0).
    split; [reflexivity |]. split; [exact Hint |].
    intros z. change (Zfloat 0) with (S754_zero false). cbn [compare_int_float].
    f_equal. destruct (Z.compare_spec z 0) as [-> | H | H]; symmetry.
    - reflexivity.
    - apply Z.compare_lt_iff. nia.
    - apply Z.compare_gt_iff. nia. }
  revert Hint. unfold truediv. destruct (Z.eqb_spec t 0); [lia |].
  destruct n as [| pn | pn]; try lia. destruct t as [| pt | pt]; try lia.
  cbn [int_as_sf SFdiv xorb].
  pose proof (SFdiv_core_int pn pt ltac:(lia) ltac:(lia)) as Hcore. cbv zeta in Hcore.
  rewrite Hcore.
  pose proof (digits2_le_53 pn ltac:(lia)) as Hdn.
  pose proof (digits2_le_53 pt ltac:(lia)) as Hdt.
  pose proof (digits2_bounds pn) as Hbn. pose proof (digits2_bounds pt) as Hbt.
  set (dn := Zpos (digits2_pos pn)) in *. set (dt := Zpos (digits2_pos pt)) in *.
  assert (Hdn0 : 0 < dn) by (unfold dn; lia).
  assert (Hdt0 : 0 < dt) by (unfold dt; lia).
  set (s := 53 + dt - dn) in *.
  set (a := Zpos pn * 2 ^ s).
  assert (Hs2 : 2 ^ s = 2 ^ (53 - dn) * 2 ^ dt)
    by (rewrite <- Z.pow_add_r by lia; f_equal; unfold s; lia).
  assert (H53 : 2 ^ 53 = 2 ^ (53 - dn) * (2 * 2 ^ (dn - 1))).
  { rewrite <- Z.pow_succ_r, <- Z.pow_add_r by lia. f_equal. lia. }
  assert (Hdt2 : 2 ^ dt = 2 * 2 ^ (dt - 1)).
  { rewrite <- Z.pow_succ_r by lia. f_equal. lia. }
  assert (Hp1 : 0 < 2 ^ (53 - dn)) by (apply Z.pow_pos_nonneg; lia).
  assert (Hp2 : 0 < 2 ^ (dn - 1)) by (apply Z.pow_pos_nonneg; lia).
  assert (Hp3 : 0 < 2 ^ (dt - 1)) by (apply Z.pow_pos_nonneg; lia).
  assert (H54 : 2 ^ 54 = 2 * 2 ^ 53) by reflexivity.
  assert (H52 : 2 ^ 53 = 2 * 2 ^ 52) by reflexivity.
  assert (Hq : 2 ^ 52 <= a / Zpos pt < 2 ^ 54).
  { split.
    - apply Z.div_le_lower_bound; [lia |]. unfold a. rewrite Hs2. nia.
    - apply Z.div_lt_upper_bound; [lia |]. unfold a. rewrite Hs2.
      assert (Hdn2 : 2 ^ dn = 2 * 2 ^ (dn - 1)).
      { rewrite <- Z.pow_succ_r by lia. f_equal. lia. }
      assert (Zpos pn * 2 ^ (53 - dn) < 2 ^ 53) by nia.
      assert (Zpos pn * 2 ^ (53 - dn) * 2 ^ dt < 2 ^ 53 * 2 ^ dt) by nia.
      nia. }
  assert (Hsr : -1000 <= - s <= 800) by (unfold s; lia).
  assert (Hts : Zpos pt < 2 ^ s).
  { rewrite Hs2. clear - Hbt Hp1 Hdt2 Hp3. nia. }
  pose proof (Z.mod_pos_bound a (Zpos pt) ltac:(lia)) as Hra.
  pose proof (Z.div_mod a (Zpos pt) ltac:(lia)) as Hda.
  assert (Hpt : 0 < Zpos pt) by lia.
  destruct (binary_round_aux_nearest (a / Zpos pt) (- s) (Zpos pt) (a mod Zpos pt)
              (new_location (Zpos pt) (a mod Zpos pt)) Hq Hsr Hpt Hra
              (new_location_ok _ _ Hpt Hra))
    as (M & E & j & M0 & R & HR & Hj & HE & HV & HqR & HR0 & HM).
  rewrite HR. cbn [finite_or_raise bind]. intros Hint.
  exists (S754_finite false M E). split; [reflexivity |]. split; [exact Hint |].
  intros z.
  rewrite (compare_int_float_scaled z M E (- s + j) M0); [| unfold s; lia | lia | exact HV].
  f_equal.
  assert (HP : 0 < 2 ^ (- (- s + j))) by (apply Z.pow_pos_nonneg; unfold s; lia).
  assert (HP2 : 2 ^ s = 2 ^ (- (- s + j)) * 2 ^ j).
  { rewrite <- Z.pow_add_r by (unfold s; lia). f_equal. lia. }
  set (P := 2 ^ (- (- s + j))) in *.
  assert (HtP : Zpos pt < 2 * P).
  { destruct Hj as [-> | ->].
    - rewrite Z.pow_0_r, Z.mul_1_r in HP2. lia.
    - change (2 ^ 1) with 2 in HP2. lia. }
  assert (Ha : a = Zpos pn * P * 2 ^ j) by (unfold a; rewrite HP2; ring).
  clearbody a P. clear - Hpt HP HtP Ha Hda HqR HR0 HM Hj.
  set (q := a / Zpos pt) in *. set (r := a mod Zpos pt) in *.
  clearbody q r.
  destruct Hj as [-> | ->].
  - rewrite Z.pow_0_r, ?Z.mul_1_r, ?Z.div_1_r in *.
    apply (compare_scaled_round (Zpos pn) (Zpos pt) P M0 q R z); try assumption.
    lia.
  - change (2 ^ 1) with 2 in *.
    set (m := q / 2) in *. clearbody m.
    assert (HRe : exists R', R = 2 * R') by (exists (Zpos pn * P - m * Zpos pt); lia).
    destruct HRe as [R' ->].
    apply (compare_scaled_round (Zpos pn) (Zpos pt) P M0 m R' z); try assumption.
    + lia.
    + lia.
    + lia.
Qed.

(** [n / t < z] and [z < n / t] on the float are the exact comparisons. *)
Lemma lt_truediv_int (n t z : Z) (f : spec_float) :
  (forall y, compare_int_float y f = Some (y * t ?= n)) ->
  lt (PFloat f) (PInt z) = (n <? z * t) /\ lt (PInt z) (PFloat f) = (z * t <? n).
Proof.
  intros Hc. unfold lt, compare. rewrite Hc. cbn [option_map].
  unfold Z.ltb. rewrite (Z.compare_antisym (z * t) n).
  destruct (z * t ?= n); split; reflexivity.
Qed.

End QuotientFacts.

(* ------------------------------------------------------------------ *)
(** * Rounding to nearest, in integers

  The round trip through [_pos_to_val] and [_val_to_pos] goes through
  several rounded operations.  Their error is bounded here without real
  numbers: the value of a finite float is read in units of [2 ^ -1000]
  ([scaled]), where every float of this development is an integer, and
  each operation is shown to return a float within [2 ^ -53] of the
  exact result, relative to that result. *)

Section RoundingFacts.
Import PyNum.

(** The value of a float in units of [2 ^ -1000]. *)
Definition scaled (f : spec_float) : Z :=
  match f with
  | S754_finite s m e => cond_Zopp s (Zpos m * 2 ^ (e + 1000))
  | _ => 0
  end.















Lemma scaled_finite (sg : bool) (m : positive) (e : Z) :
  scaled (S754_finite sg m e) = cond_Zopp sg (Zpos m * 2 ^ (e + 1000)).
Proof. reflexivity. Qed.


















End RoundingFacts.

(* ------------------------------------------------------------------ *)
(** * The coordinate mapping, away from the ends of the track *)

Section RoundTripFacts.
Import PyNum RangeSlider.







(** ** The two mappings where binary64 is precise enough *)

(** A slider on which the rounding errors of the mapping stay below half
    a pixel step: a non-empty range, a handle radius of at least one
    pixel, a positive usable width, and a usable width whose product with
    the magnitude of the values (seven times the span plus the magnitude
    of the minimum) stays below [2 ^ 52]. *)
Definition fits_double (s : t) : Prop :=
  _min s < _max s /\ 1 <= _handle_r s /\ 2 * _handle_r s < width s
  /\ width s < 2 ^ 52
  /\ (width s - 2 * _handle_r s) * (7 * (_max s - _min s) + Z.abs (_min s)) < 2 ^ 52.

(** Two classes of such sliders: a slider as screens have them, fewer than
    [2 ^ 16] pixels wide with 32-bit values (the range of the [int] that
    the signals carry), ... *)
Definition screen_sized (s : t) : Prop :=
  _min s < _max s /\ - 2 ^ 31 <= _min s /\ _max s < 2 ^ 31
  /\ 1 <= _handle_r s /\ 2 * _handle_r s < width s /\ width s < 2 ^ 16.



























(** With two pixels or fewer for each value the round trip can move, also
    on a slider with more pixels than values.  On a slider 26 pixels wide
    over [0 .. 9] (usable width 10), pixel 14 maps to value 5, value 5 to
    pixel 13 and pixel 13 to value 4.  On a slider 114 pixels wide over
    [0 .. 49] (usable width 98, two pixels for each value), pixel 10 maps
    to value 1, value 1 to pixel 9, one less than the exact
    [1 * 98 / 49 + 8], and pixel 9 maps to value 0. *)
Lemma round_trip_needs_two_pixels_per_value :
  let s1 := RangeSlider.mk 0 9 0 9 0 8 26 in
  let s2 := RangeSlider.mk 0 49 0 49 0 8 114 in
  (screen_sized s1 /\ screen_sized s2)
  /\ (_pos_to_val s1 (PInt 14) = Some 5 /\ _val_to_pos s1 5 = Some 13
      /\ _pos_to_val s1 (PInt 13) = Some 4 /\ ~ roundtrip_idempotent s1 (PInt 14))
  /\ (_pos_to_val s2 (PInt 10) = Some 1 /\ _val_to_pos s2 1 = Some 9
      /\ (1 - 0) * (114 - 2 * 8) / (49 - 0) + 8 = 10
      /\ _pos_to_val s2 (PInt 9) = Some 0 /\ ~ roundtrip_idempotent s2 (PInt 10)).
Proof.
  cbv zeta. split; [split; unfold screen_sized; cbn; lia |].
  split.
  - split; [vm_compute; reflexivity |]. split; [vm_compute; reflexivity |].
    split; [vm_compute; reflexivity |].
    intros (v & p & H1 & H2 & H3).
    vm_compute in H1. injection H1 as <-.
    vm_compute in H2. injection H2 as <-.
    vm_compute in H3. discriminate H3.
  - split; [vm_compute; reflexivity |]. split; [vm_compute; reflexivity |].
    split; [reflexivity |]. split; [vm_compute; reflexivity |].
    intros (v & p & H1 & H2 & H3).
    vm_compute in H1. injection H1 as <-.
    vm_compute in H2. injection H2 as <-.
    vm_compute in H3. discriminate H3.
Qed.

(** The precision condition is needed: on a widget [2 ^ 24 - 1] pixels
    wide, the largest that Qt allows, over the 32-bit values
    [2 ^ 30 + 1 .. 2 ^ 30 + 8388600], there are more than two pixels for
    each value, and yet pixel 16777205 maps to value 1082130423, that
    value to pixel 16777204 and that pixel to value 1082130422: the sum
    [x / w * span + min] is rounded to a half-integer, and [round] takes
    it to the even neighbour. *)
Lemma round_trip_needs_precision :
  let s := RangeSlider.mk 1073741825 1082130424 1073741825 1082130424
             1073741825 8 16777215 in
  mappable s
  /\ 2 * (_max s - _min s) < width s - 2 * _handle_r s
  /\ ~ fits_double s
  /\ _pos_to_val s (PInt 16777205) = Some 1082130423
  /\ _val_to_pos s 1082130423 = Some 16777204
  /\ _pos_to_val s (PInt 16777204) = Some 1082130422
  /\ ~ roundtrip_idempotent s (PInt 16777205).
Proof.
  cbv zeta. split; [unfold mappable; cbn; lia |].
  split; [cbn; lia |].
  split; [unfold fits_double; cbn; lia |].
  split; [vm_compute; reflexivity |]. split; [vm_compute; reflexivity |].
  split; [vm_compute; reflexivity |].
  intros (v & p & H1 & H2 & H3).
  vm_compute in H1. injection H1 as <-.
  vm_compute in H2. injection H2 as <-.
  vm_compute in H3. discriminate H3.
Qed.




End RoundTripFacts.


(* ------------------------------------------------------------------ *)
(** * Facts about the download screen *)

Section LoaderFacts.
Import PyNum PyStr Loader.

(** ** The loading dots *)

Definition dots (n : Z) : str := List.concat (repeat (lit ".") (Z.to_nat n)).

(** X15: the loading label cycles with period four.  After [n >= 1]
    timer ticks the phase is [(phase + n) mod 4], whatever it was before, and
    the label reads Loading followed by that many dots, so never more than
    three; four more ticks give the same state again. *)
Theorem loading_dots_cycle (l : Loader.t) (n : nat) :
  (1 <= n)%nat ->
  let l' := Nat.iter n _tick_loading_dots l in
  let k := (_dot_phase l + Z.of_nat n) mod 4 in
  _dot_phase l' = k /\ 0 <= k < 4
  /\ loading_lbl_text l' = lit "Loading" ++ dots k
  /\ Nat.iter 4 _tick_loading_dots l' = l'.
Proof.
  intros Hn. cbv zeta.
  assert (Hph : forall m, _dot_phase (Nat.iter m _tick_loading_dots l)
                          = if (m =? 0)%nat then _dot_phase l
                            else (_dot_phase l + Z.of_nat m) mod 4).
  { induction m as [| m IH]; [reflexivity |].
    rewrite Nat.iter_succ. cbn [Nat.eqb]. unfold _tick_loading_dots at 1. cbn [_dot_phase].
    rewrite IH. destruct m as [| m]; cbn [Nat.eqb].
    - reflexivity.
    - rewrite Z.add_mod_idemp_l by lia. f_equal. lia. }
  destruct n as [| n]; [lia |].
  pose proof (Z.mod_pos_bound (_dot_phase l + Z.of_nat (S n)) 4 ltac:(lia)) as Hk.
  split; [exact (Hph (S n)) |]. split; [exact Hk |].
  assert (Htxt : loading_lbl_text (Nat.iter (S n) _tick_loading_dots l)
                 = lit "Loading" ++ dots ((_dot_phase l + Z.of_nat (S n)) mod 4)).
  { rewrite Nat.iter_succ. unfold _tick_loading_dots at 1. cbn [loading_lbl_text]. unfold dots.
    rewrite Hph. destruct n as [| n]; cbn [Nat.eqb].
    - reflexivity.
    - rewrite Z.add_mod_idemp_l by lia.
      replace (_dot_phase l + Z.of_nat (S n) + 1)
        with (_dot_phase l + Z.of_nat (S (S n))) by lia.
      reflexivity. }
  split; [exact Htxt |].
  set (l1 := Nat.iter (S n) _tick_loading_dots l) in *.
  pose proof (Hph (S n)) as H1. cbn [Nat.eqb] in H1. fold l1 in H1.
  set (k := (_dot_phase l + Z.of_nat (S n)) mod 4) in *.
  destruct l1 as [a1 a2 a3 a4 a5 a6 txt a8 a9 ph a11 a12 a13].
  cbn [_dot_phase loading_lbl_text] in *. subst ph txt.
  assert (Hcases : k = 0 \/ k = 1 \/ k = 2 \/ k = 3) by lia.
  destruct Hcases as [-> | [-> | [-> | ->]]]; reflexivity.
Qed.

Lemma loading_dots_cycle_witness :
  loading_lbl_text (Nat.iter 5 _tick_loading_dots Loader.init) = lit "Loading" ++ dots (5 mod 4).
Proof.
  destruct (loading_dots_cycle Loader.init 5) as (_ & _ & H & _); [lia |].
  exact H.
Defined.

(** ** The drumstick row *)

(** The indices [i, i + 1, ...] of a row of icons. *)
Fixpoint positions (i : Z) (icons : list bool) : list Z :=
  match icons with
  | [] => []
  | _ :: rest => i :: positions (i + 1) rest
  end.

Lemma positions_ge (icons : list bool) (i j : Z) :
  In j (positions i icons) -> i <= j.
Proof.
  revert i. induction icons as [| b rest IH]; intros i; [intros [] |].
  cbn [positions In]. intros [<- | H]; [lia |]. apply IH in H. lia.
Qed.

Lemma positions_NoDup (icons : list bool) (i : Z) : NoDup (positions i icons).
Proof.
  revert i. induction icons as [| b rest IH]; intros i; [constructor |].
  cbn [positions]. constructor; [| apply IH].
  intros H. apply positions_ge in H. lia.
Qed.

Lemma bounced_In (i : Z) (done : list Z) : bounced i done = true <-> In i done.
Proof.
  unfold bounced. rewrite existsb_exists. split.
  - intros [x [Hx He]]. apply Z.eqb_eq in He. now subst x.
  - intros H. exists i. split; [exact H | apply Z.eqb_refl].
Qed.

Lemma bounced_app_other (i j : Z) (done : list Z) :
  i <> j -> bounced j (done ++ [i]) = bounced j done.
Proof.
  intros Hij. unfold bounced. rewrite existsb_app. cbn [existsb].
  destruct (Z.eqb_spec j i); [congruence |]. now rewrite !orb_false_r.
Qed.

(** The icons that bounce: those turned on and not yet in the set. *)
Definition fresh (filled : Z) (done : list Z) (j : Z) : bool :=
  (j <? filled) && negb (bounced j done).

(** The loop of [update_drumsticks] in closed form. *)
Lemma fill_icons_closed (filled : Z) (icons : list bool) (i : Z) (done : list Z) :
  fill_icons filled i icons done
  = (map (fun j => j <? filled) (positions i icons),
     done ++ filter (fresh filled done) (positions i icons),
     filter (fresh filled done) (positions i icons)).
Proof.
  revert i done. induction icons as [| b rest IH]; intros i done.
  - cbn. now rewrite app_nil_r.
  - cbn [fill_icons positions map filter].
    change ((i <? filled) && negb (bounced i done)) with (fresh filled done i).
    destruct (fresh filled done i) eqn:Ef; rewrite IH; [| reflexivity].
    assert (Hext : filter (fresh filled (done ++ [i])) (positions (i + 1) rest)
                   = filter (fresh filled done) (positions (i + 1) rest)).
    { apply filter_ext_in. intros j Hj. apply positions_ge in Hj.
      unfold fresh. rewrite bounced_app_other by lia. reflexivity. }
    rewrite Hext, <- app_assoc. reflexivity.
Qed.

(** A series of progress signals delivered to [update_drumsticks]: the
    final state and all the bounces, in order. *)
Fixpoint progress_series (l : Loader.t) (pcts : list Z) : option (Loader.t * list Z) :=
  match pcts with
  | [] => Some (l, [])
  | pct :: rest =>
      bind (update_drumsticks l pct) (fun '(l1, b1) =>
      bind (progress_series l1 rest) (fun '(l2, b2) => Some (l2, b1 ++ b2)))
  end.

Lemma update_drumsticks_closed (l l' : Loader.t) (pct : Z) (bs : list Z) :
  update_drumsticks l pct = Some (l', bs) ->
  exists filled,
    drum_icons l' = map (fun j => j <? filled) (positions 0 (drum_icons l))
    /\ bs = filter (fresh filled (filled_once l)) (positions 0 (drum_icons l))
    /\ filled_once l' = filled_once l ++ bs.
Proof.
  unfold update_drumsticks.
  destruct (truediv (PInt pct) (PInt 100)) as [q |]; [| discriminate]. cbn [bind].
  destruct (mul (PFloat q) (PInt (Z.of_nat (List.length (drum_icons l))))) as [p |];
    [| discriminate]. cbn [bind].
  destruct (py_round p) as [filled |]; [| discriminate]. cbn [bind].
  rewrite fill_icons_closed. intros [= <- <-]. exists filled. now repeat split.
Qed.

(** X16: an icon bounces at most once, whatever progress values
    arrive and in whatever order: over a whole series of updates no index
    bounces twice, none that had bounced before bounces again, and the set of
    bounced icons grows by exactly the bounces. *)
Theorem icons_bounce_at_most_once (pcts : list Z) (l l' : Loader.t) (bs : list Z) :
  progress_series l pcts = Some (l', bs) ->
  NoDup bs
  /\ (forall i, In i bs -> ~ In i (filled_once l))
  /\ filled_once l' = filled_once l ++ bs.
Proof.
  revert l l' bs. induction pcts as [| pct rest IH]; intros l l' bs.
  - intros [= <- <-]. split; [constructor |]. split; [intros i [] |].
    now rewrite app_nil_r.
  - cbn [progress_series].
    destruct (update_drumsticks l pct) as [[l1 b1] |] eqn:E1; [| discriminate].
    cbn [bind].
    destruct (progress_series l1 rest) as [[l2 b2] |] eqn:E2; [| discriminate].
    cbn [bind]. intros [= <- <-].
    destruct (update_drumsticks_closed l l1 pct b1 E1) as (filled & _ & Hb1 & Hd1).
    destruct (IH l1 l2 b2 E2) as (Hnd & Hnew & Hd2).
    assert (Hb1new : forall i, In i b1 -> ~ In i (filled_once l)).
    { intros i Hi. rewrite Hb1 in Hi. apply filter_In in Hi.
      destruct Hi as [_ Hf]. unfold fresh in Hf. apply andb_true_iff in Hf.
      destruct Hf as [_ Hf]. intros Hin. apply bounced_In in Hin.
      rewrite Hin in Hf. discriminate Hf. }
    split; [| split].
    + apply NoDup_app; [| exact Hnd |].
      * rewrite Hb1. apply NoDup_filter. apply positions_NoDup.
      * intros i Hi1 Hi2. apply (Hnew i Hi2). rewrite Hd1.
        apply in_or_app. now right.
    + intros i Hi. apply in_app_or in Hi. destruct Hi as [Hi | Hi].
      * now apply Hb1new.
      * intros Hin. apply (Hnew i Hi). rewrite Hd1. apply in_or_app. now left.
    + rewrite Hd2, Hd1. now rewrite app_assoc.
Qed.

Lemma icons_bounce_at_most_once_witness :
  exists l' bs,
    progress_series Loader.init [35; 20; 60] = Some (l', bs)
    /\ NoDup bs /\ filled_once l' = bs.
Proof.
  destruct (progress_series Loader.init [35; 20; 60]) as [[l' bs] |] eqn:E;
    [| vm_compute in E; discriminate E].
  exists l', bs. split; [reflexivity |].
  destruct (icons_bounce_at_most_once _ _ _ _ E) as (H1 & _ & H3).
  split; [exact H1 | exact H3].
Defined.

End LoaderFacts.

Section DrumstickCountFacts.
Import PyNum PyStr Loader.

(** [round(pct / 100 * n)] *)
Definition filled_count (pct n : Z) : option Z :=
  bind (truediv (PInt pct) (PInt 100)) (fun q =>
  bind (mul (PFloat q) (PInt n)) (fun p => py_round p)).

Definition nearest_tenth (pct : Z) : bool :=
  match filled_count pct 10 with
  | Some k =>
      (0 <=? k) && (k <=? 10) && (Z.abs (10 * k - pct) <=? 5)
      && (Z.even k || (Z.abs (10 * k - pct) <? 5))
  | None => false
  end.

Lemma nearest_tenth_all : forallb (fun i => nearest_tenth (Z.of_nat i)) (seq 0 101) = true.
Proof. vm_compute. reflexivity. Qed.

(** X17: on the row of ten icons a percentage between 0 and 100
    lights the first [k] icons, where [k] is [pct / 10] rounded to the
    nearest integer and to the even one on a tie (5 lights none, 15 and 25
    both light two); the call does not raise. *)
Theorem drumsticks_show_nearest_tenth (l : Loader.t) (pct : Z) :
  List.length (drum_icons l) = 10%nat -> 0 <= pct <= 100 ->
  exists l' bs k,
    update_drumsticks l pct = Some (l', bs)
    /\ drum_icons l' = map (fun j => j <? k) [0; 1; 2; 3; 4; 5; 6; 7; 8; 9]
    /\ 0 <= k <= 10 /\ Z.abs (10 * k - pct) <= 5
    /\ (Z.abs (10 * k - pct) = 5 -> Z.even k = true).
Proof.
  intros Hlen Hpct.
  pose proof (below_forallb nearest_tenth 101 nearest_tenth_all pct ltac:(lia)) as Hn.
  unfold nearest_tenth in Hn.
  destruct (filled_count pct 10) as [k |] eqn:Ek; [| discriminate Hn].
  apply andb_true_iff in Hn. destruct Hn as [Hn H4].
  apply andb_true_iff in Hn. destruct Hn as [Hn H3].
  apply andb_true_iff in Hn. destruct Hn as [H1 H2].
  apply Z.leb_le in H1, H2, H3.
  unfold filled_count in Ek. unfold update_drumsticks. rewrite Hlen.
  change (Z.of_nat 10) with 10.
  destruct (truediv (PInt pct) (PInt 100)) as [q |]; [| discriminate Ek].
  cbn [bind] in Ek |- *.
  destruct (mul (PFloat q) (PInt 10)) as [p |]; [| discriminate Ek].
  cbn [bind] in Ek |- *. rewrite Ek. cbn [bind].
  rewrite fill_icons_closed.
  destruct (drum_icons l) as [| b0 [| b1 [| b2 [| b3 [| b4 [| b5 [| b6 [| b7 [| b8
    [| b9 [| b10 r]]]]]]]]]]]; try discriminate Hlen.
  eexists _, _, k. split; [reflexivity |]. split; [reflexivity |].
  split; [lia |]. split; [exact H3 |].
  intros H5. apply orb_true_iff in H4. destruct H4 as [H4 | H4]; [exact H4 |].
  apply Z.ltb_lt in H4. lia.
Qed.

Lemma drumsticks_show_nearest_tenth_witness :
  exists l' bs k,
    update_drumsticks Loader.init 25 = Some (l', bs)
    /\ drum_icons l' = map (fun j => j <? k) [0; 1; 2; 3; 4; 5; 6; 7; 8; 9]
    /\ Z.abs (10 * k - 25) <= 5.
Proof.
  destruct (drumsticks_show_nearest_tenth Loader.init 25)
    as (l' & bs & k & H1 & H2 & _ & H4 & _); [reflexivity | lia |].
  exists l', bs, k. split; [exact H1 | split; [exact H2 | exact H4]].
Defined.

End DrumstickCountFacts.

Section StartDownloadFacts.
Import PyNum PyStr Loader Window.

Lemma lstrip_nil (s : str) : lstrip s = [] <-> forallb isspace s = true.
Proof.
  induction s as [| c r IH]; [now split |].
  cbn [lstrip forallb]. destruct (isspace c); cbn [andb]; [exact IH |].
  split; discriminate.
Qed.

Lemma lstrip_head (s : str) (c : char) (r : str) :
  lstrip s = c :: r -> isspace c = false.
Proof.
  induction s as [| a s IH]; [discriminate |].
  cbn [lstrip]. destruct (isspace a) eqn:E; [exact IH |].
  now intros [= <- _].
Qed.

(** [lstrip] removes a prefix. *)
Lemma lstrip_suffix (s : str) : exists pre, s = pre ++ lstrip s.
Proof.
  induction s as [| a s [pre IH]]; [now exists [] |].
  cbn [lstrip]. destruct (isspace a).
  - exists (a :: pre). cbn [app]. now f_equal.
  - now exists [].
Qed.

Lemma forallb_rev {A : Type} (f : A -> bool) (l : list A) :
  forallb f (rev l) = forallb f l.
Proof.
  induction l as [| a l IH]; [reflexivity |].
  cbn [rev forallb]. rewrite forallb_app, IH. cbn [forallb].
  rewrite andb_true_r. apply andb_comm.
Qed.

(** [strip] is empty exactly on strings of white space. *)
Lemma strip_nil (s : str) : strip s = [] <-> forallb isspace s = true.
Proof.
  unfold strip. split.
  - intros H. apply (f_equal (@rev char)) in H. rewrite rev_involutive in H.
    cbn [rev] in H. apply lstrip_nil in H. rewrite forallb_rev in H.
    destruct (lstrip s) as [| c r] eqn:E; [now apply lstrip_nil |].
    apply lstrip_head in E. cbn [forallb] in H. rewrite E in H. discriminate H.
  - intros H. apply lstrip_nil in H. rewrite H. reflexivity.
Qed.

(** A stripped string neither starts nor ends with white space. *)
Lemma strip_ends (s : str) (c : char) (r : str) :
  strip s = c :: r -> isspace c = false /\ isspace (last (c :: r) c) = false.
Proof.
  unfold strip. intros H. split.
  - destruct (lstrip_suffix (rev (lstrip s))) as [pre Hpre].
    apply (f_equal (@rev char)) in Hpre.
    rewrite rev_involutive, rev_app_distr, H in Hpre.
    cbn [app] in Hpre. now apply lstrip_head in Hpre.
  - apply (f_equal (@rev char)) in H. rewrite rev_involutive in H.
    destruct (rev (c :: r)) as [| z t] eqn:E.
    { apply (f_equal (@List.length char)) in E. rewrite length_rev in E. discriminate E. }
    apply lstrip_head in H.
    assert (Hl : last (c :: r) c = z).
    { apply (f_equal (@rev char)) in E. rewrite rev_involutive in E. rewrite E.
      cbn [rev]. apply last_last. }
    now rewrite Hl.
Qed.

(** X18: [start_download] needs a URL.  When the text of the URL
    field is empty or only white space, the only thing that happens is the
    warning; otherwise the worker is started on the stripped text, which
    neither starts nor ends with white space, in the directory just made,
    which is remembered as [tmp_dir]; the button is disabled and the dots
    start from a clean label. *)
Theorem start_download_needs_a_url (w : Window.t) (dir : str) :
  let text := url_edit_text (loader w) in
  (forallb isspace text = true ->
   start_download w dir = (w, [QMessageBox_warning "No URL" "Paste a YouTube URL."]))
  /\ (forallb isspace text = false ->
      exists c r w',
        strip text = c :: r
        /\ isspace c = false /\ isspace (last (c :: r) c) = false
        /\ start_download w dir
           = (w', [tempfile_mkdtemp "lobster_"; Thread_start_worker (c :: r) dir])
        /\ worker w' = Some (c :: r, dir)
        /\ MainUI.tmp_dir (trim w') = Some dir
        /\ dl_btn_enabled (loader w') = false
        /\ loading_lbl_text (loader w') = lit "Loading"
        /\ _dot_phase (loader w') = 0).
Proof.
  cbv zeta. split; intros H.
  - apply strip_nil in H. unfold start_download. now rewrite H.
  - destruct (strip (url_edit_text (loader w))) as [| c r] eqn:E.
    { apply strip_nil in E. congruence. }
    destruct (strip_ends _ c r E) as [Hc Hl].
    exists c, r. unfold start_download. rewrite E.
    eexists. split; [reflexivity |]. split; [exact Hc |]. split; [exact Hl |].
    split; [reflexivity |]. repeat split; reflexivity.
Qed.

End StartDownloadFacts.

(* ------------------------------------------------------------------ *)
(** * Facts about playback and the slots of the slider *)

Section PlaybackFacts.
Import PyNum PyStr RangeSlider Window.

Lemma hhmmss_defined (n : Z) :
  0 <= n < 2 ^ 46 -> exists a, Util.hhmmss (PInt n) = Some a.
Proof.
  intros Hn. unfold Util.hhmmss, Util.timedelta_of_seconds. cbn [py_int bind].
  assert (H : 0 <= n / 86400 <= 999999999).
  { split; [apply Z.div_pos; lia |].
    apply Z.lt_succ_r. apply Z.div_lt_upper_bound; [lia |].
    change (2 ^ 46) with 70368744177664 in Hn. lia. }
  destruct (Z.leb_spec (-999999999) (n / 86400)); [| lia].
  destruct (Z.leb_spec (n / 86400) 999999999); [| lia].
  cbn [andb bind]. eexists. reflexivity.
Qed.

Lemma set_value_same (s : RangeSlider.t) : set_value s (_value s) = s.
Proof. now destruct s. Qed.

(** [setValue] with the signals blocked, on a selection that is not
    reversed. *)
Lemma setValue_clamp (s : RangeSlider.t) (v : Z) :
  _lower s <= _upper s ->
  fst (setValue s v) = set_value s (clamp (_lower s) (_upper s) v).
Proof.
  intros Hs. unfold setValue, clamp.
  assert (E : Z.max (_lower s) (Z.min v (_upper s))
              = if v <? _lower s then _lower s else if _upper s <? v then _upper s else v).
  { destruct (Z.ltb_spec v (_lower s)); [lia |].
    destruct (Z.ltb_spec (_upper s) v); lia. }
  rewrite E. clear E.
  set (c := if v <? _lower s then _lower s else if _upper s <? v then _upper s else v).
  destruct (Z.eqb_spec c (_value s)) as [-> | Hne]; cbn [fst].
  - symmetry. apply set_value_same.
  - reflexivity.
Qed.

(** X22: [update_time] keeps the playhead inside the selection.  For
    a position of [pos_ms] milliseconds below 2^53, the slider value becomes
    the whole second [pos_ms // 1000] clamped into [[lower, upper]], without
    any signal; a position before the start seeks to the start, a position
    of more than [1000 * upper] milliseconds seeks to the end and pauses,
    and any other position touches neither the player nor the button. *)
Theorem update_time_keeps_playhead_in_selection (w : Window.t) (pos_ms : Z) (b : str) :
  0 <= pos_ms < 2 ^ 53 ->
  _lower (slider w) <= _upper (slider w) ->
  Util.hhmmss (PInt (if duration w =? 0 then player_duration w / 1000 else duration w))
  = Some b ->
  exists a w',
    Util.hhmmss (PInt (pos_ms / 1000)) = Some a
    /\ update_time w pos_ms
       = Some (w',
               if pos_ms <? 1000 * _lower (slider w)
               then [player_setPosition (_lower (slider w) * 1000)]
               else if 1000 * _upper (slider w) <? pos_ms
               then [player_setPosition (_upper (slider w) * 1000); player_pause]
               else [])
    /\ slider w'
       = set_value (slider w) (clamp (_lower (slider w)) (_upper (slider w)) (pos_ms / 1000))
    /\ time_lbl w' = a ++ lit " / " ++ b
    /\ play_icon w'
       = (if (1000 * _lower (slider w) <=? pos_ms) && (1000 * _upper (slider w) <? pos_ms)
          then SP_MediaPlay else play_icon w).
Proof.
  intros Hpos Hsel Hb.
  destruct (truediv_compare pos_ms 1000 Hpos ltac:(lia)) as (f & Hdiv & Hint & Hcmp).
  assert (Hk : 0 <= pos_ms / 1000 < 2 ^ 46).
  { split; [apply Z.div_pos; lia |].
    apply Z.div_lt_upper_bound; [lia |].
    change (2 ^ 53) with 9007199254740992 in Hpos.
    change (2 ^ 46) with 70368744177664. lia. }
  destruct (hhmmss_defined _ Hk) as [a Ha].
  assert (Hfa : Util.hhmmss (PFloat f) = Some a).
  { revert Ha. unfold Util.hhmmss. rewrite Hint. cbn [py_int bind]. auto. }
  destruct (lt_truediv_int pos_ms 1000 (_lower (slider w)) f Hcmp) as [Hlow _].
  destruct (lt_truediv_int pos_ms 1000 (_upper (slider w)) f Hcmp) as [_ Hhigh].
  pose proof (Z.div_mod pos_ms 1000 ltac:(lia)) as Hdm.
  pose proof (Z.mod_pos_bound pos_ms 1000 ltac:(lia)) as Hmod.
  exists a. unfold update_time. rewrite Hdiv. cbn [bind]. rewrite Hfa, Hb. cbn [bind].
  change (slider (set_time_lbl w (a ++ lit " / " ++ b))) with (slider w).
  unfold lowerValue, upperValue. rewrite Hlow, Hhigh.
  replace (_lower (slider w) * 1000) with (1000 * _lower (slider w)) by lia.
  replace (_upper (slider w) * 1000) with (1000 * _upper (slider w)) by lia.
  destruct (Z.ltb_spec pos_ms (1000 * _lower (slider w))) as [Hlo | Hlo].
  - cbn [py_int bind]. eexists. split; [exact Ha |]. split; [reflexivity |].
    destruct (Z.leb_spec (1000 * _lower (slider w)) pos_ms); [lia |].
    cbn [andb]. split; [| now split].
    change (slider (set_slider ?x ?s)) with s.
    change (slider (set_time_lbl w (a ++ lit " / " ++ b))) with (slider w).
    rewrite setValue_clamp by exact Hsel. f_equal. unfold clamp.
    destruct (Z.ltb_spec (_lower (slider w)) (_lower (slider w))); [lia |].
    destruct (Z.ltb_spec (_upper (slider w)) (_lower (slider w))); [lia |].
    destruct (Z.ltb_spec (pos_ms / 1000) (_lower (slider w))); [reflexivity | lia].
  - destruct (Z.leb_spec (1000 * _lower (slider w)) pos_ms); [| lia]. cbn [andb].
    destruct (Z.ltb_spec (1000 * _upper (slider w)) pos_ms) as [Hhi | Hhi].
    + cbn [py_int bind]. eexists. split; [exact Ha |]. split; [reflexivity |].
      split; [| now split].
      change (slider (set_slider ?x ?s)) with s.
      change (slider (set_play_icon (set_time_lbl w (a ++ lit " / " ++ b)) SP_MediaPlay))
        with (slider w).
      rewrite setValue_clamp by exact Hsel. f_equal. unfold clamp.
      destruct (Z.ltb_spec (_upper (slider w)) (_lower (slider w))); [lia |].
      destruct (Z.ltb_spec (_upper (slider w)) (_upper (slider w))); [lia |].
      destruct (Z.ltb_spec (pos_ms / 1000) (_lower (slider w))); [lia |].
      destruct (Z.ltb_spec (_upper (slider w)) (pos_ms / 1000)); [reflexivity | lia].
    + rewrite Hint. cbn [bind]. eexists. split; [exact Ha |]. split; [reflexivity |].
      split; [| now split].
      change (slider (set_slider ?x ?s)) with s.
      change (slider (set_time_lbl w (a ++ lit " / " ++ b))) with (slider w).
      rewrite setValue_clamp by exact Hsel. reflexivity.
Qed.

Lemma update_time_keeps_playhead_in_selection_witness :
  let w := set_slider (Window.init 900) (RangeSlider.mk 0 120 30 90 40 8 900) in
  exists a w',
    update_time w 90500 = Some (w', [player_setPosition (90 * 1000); player_pause])
    /\ slider w' = set_value (slider w) 90
    /\ time_lbl w' = a ++ lit " / " ++ lit "0:00:00".
Proof.
  cbv zeta.
  destruct (update_time_keeps_playhead_in_selection
              (set_slider (Window.init 900) (RangeSlider.mk 0 120 30 90 40 8 900))
              90500 (lit "0:00:00"))
    as (a & w' & _ & H2 & H3 & H4 & _).
  - vm_compute. split; [discriminate | reflexivity].
  - cbn. lia.
  - reflexivity.
  - exists a, w'. split; [exact H2 | split; [exact H3 | exact H4]].
Defined.

(** [update_time] at a whole second inside the selection: the label and
    the slider value change, nothing else. *)
Lemma update_time_at_second (w : Window.t) (k : Z) (a b : str) :
  _lower (slider w) <= k <= _upper (slider w) -> 0 <= k < 2 ^ 31 ->
  Util.hhmmss (PInt k) = Some a ->
  Util.hhmmss (PInt (if duration w =? 0 then player_duration w / 1000 else duration w))
  = Some b ->
  update_time w (k * 1000)
  = Some (set_slider (set_time_lbl w (a ++ lit " / " ++ b)) (set_value (slider w) k), []).
Proof.
  intros Hsel Hk Ha Hb.
  assert (Hpos : 0 <= k * 1000 < 2 ^ 53).
  { change (2 ^ 31) with 2147483648 in Hk. change (2 ^ 53) with 9007199254740992. lia. }
  destruct (truediv_compare (k * 1000) 1000 Hpos ltac:(lia)) as (f & Hdiv & Hint & Hcmp).
  rewrite Z.div_mul in Hint by lia.
  assert (Hfa : Util.hhmmss (PFloat f) = Some a).
  { revert Ha. unfold Util.hhmmss. rewrite Hint. cbn [py_int bind]. auto. }
  destruct (lt_truediv_int (k * 1000) 1000 (_lower (slider w)) f Hcmp) as [Hlow _].
  destruct (lt_truediv_int (k * 1000) 1000 (_upper (slider w)) f Hcmp) as [_ Hhigh].
  unfold update_time. rewrite Hdiv. cbn [bind]. rewrite Hfa, Hb. cbn [bind].
  change (slider (set_time_lbl w (a ++ lit " / " ++ b))) with (slider w).
  unfold lowerValue, upperValue. rewrite Hlow, Hhigh.
  destruct (Z.ltb_spec (k * 1000) (_lower (slider w) * 1000)); [lia |].
  destruct (Z.ltb_spec (_upper (slider w) * 1000) (k * 1000)); [lia |].
  rewrite Hint. cbn [bind].
  change (slider (set_time_lbl w (a ++ lit " / " ++ b))) with (slider w).
  rewrite setValue_clamp by lia. unfold clamp.
  destruct (Z.ltb_spec k (_lower (slider w))); [lia |].
  destruct (Z.ltb_spec (_upper (slider w)) k); [lia |]. reflexivity.
Qed.

Lemma set_slider_same (w : Window.t) : set_slider w (slider w) = w.
Proof. destruct w as [[] ? ? ? ? ? ? ? ?]. reflexivity. Qed.

(** X23: moving a bound of the selection from the window.  A call of
    [setLowerValue] that changes the lower bound to [L] leaves the playhead
    on [L], whatever it was before: the start label and the time label show
    [L], and the player is paused and positioned at [L] seconds.  A call
    that changes nothing runs no slot.  [setUpperValue] does the same at the
    new upper bound [U]. *)
Theorem moving_a_bound_moves_the_playhead (w : Window.t) (v : Z) (b : str) :
  consistent (slider w) -> 0 <= _min (slider w) -> _max (slider w) < 2 ^ 31 ->
  Util.hhmmss (PInt (if duration w =? 0 then player_duration w / 1000 else duration w))
  = Some b ->
  let s := slider w in
  let L := Z.max (_min s) (Z.min v (_upper s)) in
  let U := Z.min (_max s) (Z.max v (_lower s)) in
  (L = _lower s -> call w (SetLowerValue v) = Some (w, []))
  /\
  (L <> _lower s -> exists a w',
     Util.hhmmss (PInt L) = Some a
     /\ call w (SetLowerValue v)
        = Some (w', (if _value s <? L then [player_setPosition (L * 1000)] else [])
                    ++ [player_pause; player_setPosition (L * 1000)])
     /\ slider w' = set_value (set_lower s L) L
     /\ start_lbl w' = a /\ end_lbl w' = end_lbl w
     /\ time_lbl w' = a ++ lit " / " ++ b)
  /\
  (U = _upper s -> call w (SetUpperValue v) = Some (w, []))
  /\
  (U <> _upper s -> exists a w',
     Util.hhmmss (PInt U) = Some a
     /\ call w (SetUpperValue v)
        = Some (w', (if _value s >? U then [player_setPosition (U * 1000)] else [])
                    ++ [player_pause; player_setPosition (U * 1000)])
     /\ slider w' = set_value (set_upper s U) U
     /\ end_lbl w' = a /\ start_lbl w' = start_lbl w
     /\ time_lbl w' = a ++ lit " / " ++ b).
Proof.
  intros Hc Hmin Hmax Hb s L U. fold s in Hc, Hmin, Hmax.
  destruct Hc as [[H1 [H2 H3]] [H4 H5]].
  assert (HL : _min s <= L <= _upper s) by (unfold L; lia).
  assert (HU : _lower s <= U <= _max s) by (unfold U; lia).
  split; [| split; [| split]].
  - intros E. unfold call, run, setLowerValue. fold s. fold L.
    destruct (Z.eqb_spec L (_lower s)); [| lia].
    cbn [emit_all]. unfold s. now rewrite set_slider_same.
  - intros E. unfold call, run, setLowerValue. fold s. fold L.
    destruct (Z.eqb_spec L (_lower s)); [lia |].
    assert (HL46 : 0 <= L < 2 ^ 46).
    { change (2 ^ 31) with 2147483648 in Hmax. change (2 ^ 46) with 70368744177664. lia. }
    destruct (hhmmss_defined L HL46) as [a Ha]. exists a.
    cbn [_value set_lower].
    destruct (Z.ltb_spec (_value s) L) as [Hv | Hv].
    + cbn [emit_all slots value_slot then_do bind].
      unfold _start_changed. rewrite Ha. cbn [bind].
      change (value (slider (set_start_lbl (set_slider w ?x) a))) with (_value x).
      cbn [_value set_value set_lower]. rewrite Z.ltb_irrefl. cbn [bind then_do].
      unfold preview.
      rewrite (update_time_at_second _ L a b);
        [| cbn; lia | lia | exact Ha | exact Hb].
      cbn [bind then_do app]. eexists. split; [reflexivity |]. split; [reflexivity |].
      split; [| now repeat split].
      reflexivity.
    + cbn [emit_all slots value_slot then_do bind].
      unfold _start_changed. rewrite Ha. cbn [bind].
      change (value (slider (set_start_lbl (set_slider w ?x) a))) with (_value x).
      cbn [_value set_value set_lower].
      destruct (Z.ltb_spec (_value s) L); [lia |]. cbn [bind then_do].
      unfold preview.
      rewrite (update_time_at_second _ L a b);
        [| cbn; lia | lia | exact Ha | exact Hb].
      cbn [bind then_do app]. eexists. split; [reflexivity |]. split; [reflexivity |].
      split; [| now repeat split].
      reflexivity.
  - intros E. unfold call, run, setUpperValue. fold s. fold U.
    destruct (Z.eqb_spec U (_upper s)); [| lia].
    cbn [emit_all]. unfold s. now rewrite set_slider_same.
  - intros E. unfold call, run, setUpperValue. fold s. fold U.
    destruct (Z.eqb_spec U (_upper s)); [lia |].
    assert (HU46 : 0 <= U < 2 ^ 46).
    { change (2 ^ 31) with 2147483648 in Hmax. change (2 ^ 46) with 70368744177664. lia. }
    destruct (hhmmss_defined U HU46) as [a Ha]. exists a.
    cbn [_value set_upper].
    destruct (Z.gtb_spec (_value s) U) as [Hv | Hv].
    + cbn [emit_all slots value_slot then_do bind].
      unfold _end_changed. rewrite Ha. cbn [bind].
      change (value (slider (set_end_lbl (set_slider w ?x) a))) with (_value x).
      cbn [_value set_value set_upper].
      destruct (Z.gtb_spec U U); [lia |]. cbn [bind then_do].
      unfold preview.
      rewrite (update_time_at_second _ U a b);
        [| cbn; lia | lia | exact Ha | exact Hb].
      cbn [bind then_do app]. eexists. split; [reflexivity |]. split; [reflexivity |].
      split; [| now repeat split].
      reflexivity.
    + cbn [emit_all slots value_slot then_do bind].
      unfold _end_changed. rewrite Ha. cbn [bind].
      change (value (slider (set_end_lbl (set_slider w ?x) a))) with (_value x).
      cbn [_value set_value set_upper].
      destruct (Z.gtb_spec (_value s) U); [lia |]. cbn [bind then_do].
      unfold preview.
      rewrite (update_time_at_second _ U a b);
        [| cbn; lia | lia | exact Ha | exact Hb].
      cbn [bind then_do app]. eexists. split; [reflexivity |]. split; [reflexivity |].
      split; [| now repeat split].
      reflexivity.
Qed.

Lemma moving_a_bound_moves_the_playhead_witness :
  let w := set_slider (Window.init 900) (RangeSlider.mk 0 120 30 90 40 8 900) in
  exists a w',
    call w (SetLowerValue 60)
    = Some (w', [player_setPosition (60 * 1000); player_pause; player_setPosition (60 * 1000)])
    /\ slider w' = RangeSlider.mk 0 120 60 90 60 8 900
    /\ start_lbl w' = a.
Proof.
  cbv zeta.
  destruct (moving_a_bound_moves_the_playhead
              (set_slider (Window.init 900) (RangeSlider.mk 0 120 30 90 40 8 900))
              60 (lit "0:00:00"))
    as (_ & H & _).
  - unfold consistent. cbn. lia.
  - cbn. lia.
  - cbn. lia.
  - reflexivity.
  - destruct H as (a & w' & _ & H2 & H3 & H4 & _); [cbn; lia |].
    exists a, w'. split; [exact H2 | split; [exact H3 | exact H4]].
Defined.

End PlaybackFacts.

(* ------------------------------------------------------------------ *)
(** * Facts about loading a video *)

Section LoadingFacts.
Import PyNum PyStr RangeSlider Window.

(** The four slider calls of [dl_done] on any slider, for a duration that
    is not negative. *)
Lemma dl_done_slider (w : Window.t) (dur : Z) :
  0 <= dur ->
  then_do (call w (SetRange 0 dur)) (fun w2 =>
  then_do (call w2 (SetLowerValue 0)) (fun w3 =>
  then_do (call w3 (SetUpperValue dur)) (fun w4 =>
  call w4 (SetValue 0))))
  = Some (set_slider w (RangeSlider.mk 0 dur 0 dur 0 (_handle_r (slider w)) (width (slider w))),
          if 0 <? Z.min (_value (slider w)) dur then [player_setPosition 0] else []).
Proof.
  intros Hd.
  unfold call at 1. cbn [run setRange emit_all then_do bind].
  unfold call at 1. cbn [run]. unfold setLowerValue.
  change (slider (set_slider w ?s)) with s.
  cbn [_min _max _lower _upper _value _handle_r width].
  replace (Z.max 0 (Z.min 0 dur)) with 0 by lia. cbn [Z.eqb emit_all then_do bind].
  unfold call at 1. cbn [run]. unfold setUpperValue.
  change (slider (set_slider (set_slider w ?a) ?s)) with s.
  cbn [_min _max _lower _upper _value _handle_r width].
  replace (Z.min dur (Z.max dur 0)) with dur by lia. rewrite Z.eqb_refl.
  cbn [emit_all then_do bind].
  unfold call at 1. cbn [run]. unfold setValue.
  change (slider (set_slider (set_slider (set_slider w ?a) ?b) ?s)) with s.
  cbn [_min _max _lower _upper _value _handle_r width].
  replace (Z.max 0 (Z.min 0 dur)) with 0 by lia.
  destruct (Z.ltb_spec 0 (Z.min (_value (slider w)) dur)) as [Hv | Hv].
  - destruct (Z.eqb_spec 0 (Z.max 0 (Z.min (_value (slider w)) dur))); [lia |].
    reflexivity.
  - destruct (Z.eqb_spec 0 (Z.max 0 (Z.min (_value (slider w)) dur))) as [E | E]; [| lia].
    cbn [emit_all app]. rewrite <- E. reflexivity.
Qed.

(** [dl_done] in closed form, for a duration that is not negative. *)
Lemma dl_done_result (w : Window.t) (path : str) (dur : Z) :
  0 <= dur ->
  dl_done w path dur
  = Some (Window.mk
            (MainUI.mk (Some path) (MainUI.tmp_dir (trim w))
               (RangeSlider.mk 0 dur 0 dur 0 (_handle_r (slider w)) (width (slider w)))
               (MainUI.trim_btn_enabled (trim w)) (MainUI.trim_btn_text (trim w))
               1 (MainUI.bar_value (trim w)))
            (Loader.mk (Loader.url_edit_text (loader w)) (Loader.url_edit_visible (loader w))
               (Loader.dl_btn_visible (loader w)) true true false
               (Loader.loading_lbl_text (loader w)) false false
               (Loader._dot_phase (loader w)) false
               (Loader.drum_icons (loader w)) (Loader.filled_once (loader w)))
            dur (player_duration w) (time_lbl w) (start_lbl w) (end_lbl w)
            (play_icon w) (worker w),
          player_setSource path
          :: (if 0 <? Z.min (_value (slider w)) dur then [player_setPosition 0] else [])).
Proof.
  intros Hd. unfold dl_done. cbn [then_do bind].
  set (w0 := set_duration _ dur).
  pose proof (dl_done_slider w0 dur Hd) as Hs.
  unfold then_do in Hs |- *.
  destruct (call w0 (SetRange 0 dur)) as [[w2 e2] |]; [| discriminate Hs].
  cbn [bind] in Hs |- *.
  destruct (call w2 (SetLowerValue 0)) as [[w3 e3] |]; [| discriminate Hs].
  cbn [bind] in Hs |- *.
  destruct (call w3 (SetUpperValue dur)) as [[w4 e4] |]; [| discriminate Hs].
  cbn [bind] in Hs |- *.
  destruct (call w4 (SetValue 0)) as [[w5 e5] |]; [| discriminate Hs].
  cbn [bind] in Hs |- *.
  injection Hs as Hw5 He. rewrite app_nil_r. subst w5. cbn [app].
  rewrite He. reflexivity.
Qed.

(** X20: what [dl_done] leaves behind for a duration that is not
    negative, whatever the slider was before: the whole video is selected,
    [0 .. dur] with the playhead at 0; the player gets the new source, and is
    sent to position 0 only when the playhead was not there already; the
    trim screen is shown.  No bound signal fires, so the start and end labels
    keep their old text. *)
Theorem dl_done_selects_whole_video (w : Window.t) (path : str) (dur : Z) :
  0 <= dur ->
  exists w',
    dl_done w path dur
    = Some (w', player_setSource path
                :: (if 0 <? Z.min (_value (slider w)) dur
                    then [player_setPosition 0] else []))
    /\ slider w' = RangeSlider.mk 0 dur 0 dur 0 (_handle_r (slider w)) (width (slider w))
    /\ MainUI.video_path (trim w') = Some path
    /\ MainUI.tmp_dir (trim w') = MainUI.tmp_dir (trim w)
    /\ duration w' = dur
    /\ MainUI.stack_index (trim w') = 1
    /\ start_lbl w' = start_lbl w /\ end_lbl w' = end_lbl w
    /\ Loader.dl_btn_enabled (loader w') = true
    /\ Loader._dot_timer_active (loader w') = false.
Proof.
  intros Hd. eexists. split; [now apply dl_done_result |].
  repeat split; reflexivity.
Qed.

Lemma dl_done_selects_whole_video_witness :
  exists w',
    dl_done (Window.init 900) (lit "/tmp/lobster_x/clip.mp4") 120
    = Some (w', [player_setSource (lit "/tmp/lobster_x/clip.mp4")])
    /\ slider w' = RangeSlider.mk 0 120 0 120 0 8 900
    /\ end_lbl w' = lit "00:00:00".
Proof.
  destruct (dl_done_selects_whole_video (Window.init 900) (lit "/tmp/lobster_x/clip.mp4") 120)
    as (w' & H1 & H2 & _ & _ & _ & _ & _ & H8 & _); [lia |].
  exists w'. split; [exact H1 | split; [exact H2 | exact H8]].
Defined.

(** X21: [got_duration] only fills in a missing duration.  With a
    duration already known the call changes nothing; with none it takes the
    whole seconds of the player's duration and selects the full range,
    keeping the playhead where it fits, without any signal, so without
    touching the player or the labels. *)
Theorem got_duration_fills_missing_duration (w : Window.t) (ms : Z) :
  0 <= ms ->
  (duration w <> 0 -> got_duration w ms = Some (w, []))
  /\ (duration w = 0 ->
      got_duration w ms
      = Some (set_slider (set_duration w (ms / 1000))
                (RangeSlider.mk 0 (ms / 1000) 0 (ms / 1000)
                   (Z.max 0 (Z.min (_value (slider w)) (ms / 1000)))
                   (_handle_r (slider w)) (width (slider w))),
              [])).
Proof.
  intros Hms. unfold got_duration. split; intros Hd.
  - destruct (Z.eqb_spec (duration w) 0); [contradiction | reflexivity].
  - destruct (Z.eqb_spec (duration w) 0); [| contradiction].
    assert (Hq : 0 <= ms / 1000) by (apply Z.div_pos; lia).
    set (d := ms / 1000) in *.
    unfold call at 1. cbn [run setRange emit_all then_do bind].
    unfold call. cbn [run]. unfold setUpperValue.
    change (slider (set_slider ?x ?s)) with s.
    cbn [_min _max _lower _upper _value _handle_r width].
    replace (Z.min d (Z.max d 0)) with d by lia. rewrite Z.eqb_refl.
    cbn [emit_all then_do bind app].
    change (slider (set_duration w d)) with (slider w).
    destruct w as [[] ? ? ? ? ? ? ? ?]. reflexivity.
Qed.

Lemma got_duration_fills_missing_duration_witness :
  got_duration (Window.init 900) 61500
  = Some (set_slider (set_duration (Window.init 900) 61)
            (RangeSlider.mk 0 61 0 61 0 8 900), []).
Proof.
  destruct (got_duration_fills_missing_duration (Window.init 900) 61500) as [_ H]; [lia |].
  exact (H eq_refl).
Defined.

End LoadingFacts.

(* ------------------------------------------------------------------ *)
(** * A whole session *)

Section SessionFacts.
Import PyNum PyStr Loader Window.

(** X24: one whole session.  With a URL in the field,
    [start_download] starts the worker in the directory just made; when that
    worker reports [finished] with a duration [d] that is positive and fits
    the 32-bit [int] of the signal, [dl_done] selects the whole video, so
    [trim_save] with a destination starts ffmpeg on [-ss 0 -to d] with the
    downloaded file as input, and that file lies directly in the directory;
    the thread then removes that same directory after the attempt to run
    ffmpeg, whether it succeeded, failed or could not be started, and shows
    the download screen, where the URL field and its button are still
    hidden.  A message box appears only when ffmpeg was started. *)
Theorem download_then_trim (w : Window.t) (dir dst p : str) (d : Z)
    (net : DownloadWorker.world) (o : MainUI.outcome) :
  forallb isspace (url_edit_text (loader w)) = false ->
  In (DownloadWorker.finished p (PInt d)) (DownloadWorker.run dir net) ->
  0 < d < 2 ^ 31 -> dst <> [] ->
  exists url w1 w2 e2 u3 safe,
    start_download w dir
    = (w1, [tempfile_mkdtemp "lobster_"; Thread_start_worker url dir])
    /\ dl_done w1 p d = Some (w2, e2)
    /\ MainUI.trim_save (trim w2) dst
       = (u3, [MainUI.QFileDialog_getSaveFileName "Save clip" p;
               MainUI.Thread_start (MainUI.ffmpeg_args 0 d p dst)])
    /\ p = dir ++ lit "/" ++ safe ++ lit ".mp4"
    /\ snd (MainUI.work u3 (MainUI.ffmpeg_args 0 d p dst) dst o)
       = [MainUI.subprocess_run (MainUI.ffmpeg_args 0 d p dst)]
         ++ match o with
            | MainUI.exit_zero => [MainUI.QMessageBox_information "Saved" dst]
            | MainUI.exit_nonzero => [MainUI.QMessageBox_critical "FFmpeg error"]
            | MainUI.not_started => []
            end
         ++ [MainUI.shutil_rmtree dir]
    /\ MainUI.stack_index (fst (MainUI.work u3 (MainUI.ffmpeg_args 0 d p dst) dst o)) = 0
    /\ MainUI.trim_btn_enabled (fst (MainUI.work u3 (MainUI.ffmpeg_args 0 d p dst) dst o))
       = true
    /\ url_edit_visible (loader w2) = false /\ dl_btn_visible (loader w2) = false.
Proof.
  intros Hurl Hfin Hd Hdst.
  destruct (strip (url_edit_text (loader w))) as [| c r] eqn:E.
  { apply strip_nil in E. congruence. }
  destruct (run_finished_path dir net p (PInt d) Hfin) as (i & _ & Hp & _).
  exists (c :: r). unfold start_download. rewrite E.
  eexists. eexists. eexists. eexists.
  exists (Util.sanitize_default (title_or_clip i)).
  split; [reflexivity |].
  split; [apply dl_done_result; lia |].
  unfold MainUI.trim_save.
  cbn [trim MainUI.video_path MainUI.range_slider RangeSlider.lowerValue
       RangeSlider.upperValue RangeSlider._lower RangeSlider._upper].
  destruct (Z.leb_spec d 0); [lia |].
  destruct dst as [| x dst]; [now elim Hdst |].
  split; [reflexivity |]. split; [exact Hp |].
  repeat split; reflexivity.
Qed.

Lemma download_then_trim_witness :
  let w := set_loader (Window.init 900)
             (Loader.mk (lit " https://youtu.be/x ") true true true true false
                        (lit "Loading") false false 0 false (repeat false 10) []) in
  let net := {| DownloadWorker.extract_info :=
                  inr {| DownloadWorker.duration := Some (PInt 7);
                         DownloadWorker.title := Some (lit "a/b") |};
                DownloadWorker.hook_calls := [];
                DownloadWorker.download := None;
                DownloadWorker.mp4_exists := true |} in
  exists url w1 w2 e2 u3,
    start_download w (lit "/tmp/lobster_x")
    = (w1, [tempfile_mkdtemp "lobster_"; Thread_start_worker url (lit "/tmp/lobster_x")])
    /\ dl_done w1 (lit "/tmp/lobster_x/a-b.mp4") 7 = Some (w2, e2)
    /\ MainUI.trim_save (trim w2) (lit "out.mp4")
       = (u3, [MainUI.QFileDialog_getSaveFileName "Save clip" (lit "/tmp/lobster_x/a-b.mp4");
               MainUI.Thread_start
                 (MainUI.ffmpeg_args 0 7 (lit "/tmp/lobster_x/a-b.mp4") (lit "out.mp4"))])
    /\ snd (MainUI.work u3 (MainUI.ffmpeg_args 0 7 (lit "/tmp/lobster_x/a-b.mp4")
                              (lit "out.mp4")) (lit "out.mp4") MainUI.not_started)
       = [MainUI.subprocess_run
            (MainUI.ffmpeg_args 0 7 (lit "/tmp/lobster_x/a-b.mp4") (lit "out.mp4"));
          MainUI.shutil_rmtree (lit "/tmp/lobster_x")].
Proof.
  cbv zeta.
  destruct (download_then_trim
              (set_loader (Window.init 900)
                 (Loader.mk (lit " https://youtu.be/x ") true true true true false
                            (lit "Loading") false false 0 false (repeat false 10) []))
              (lit "/tmp/lobster_x") (lit "out.mp4") (lit "/tmp/lobster_x/a-b.mp4") 7
              {| DownloadWorker.extract_info :=
                   inr {| DownloadWorker.duration := Some (PInt 7);
                          DownloadWorker.title := Some (lit "a/b") |};
                 DownloadWorker.hook_calls := [];
                 DownloadWorker.download := None;
                 DownloadWorker.mp4_exists := true |} MainUI.not_started)
    as (url & w1 & w2 & e2 & u3 & safe & H1 & H2 & H3 & _ & H5 & _).
  - vm_compute. reflexivity.
  - vm_compute. right. left. reflexivity.
  - lia.
  - discriminate.
  - exists url, w1, w2, e2, u3.
    split; [exact H1 | split; [exact H2 | split; [exact H3 | exact H5]]].
Defined.

(** X19: a failed download can be retried, and leaves its traces.
    After [start_download] on a URL and [dl_error], the URL field and the
    button are visible and enabled again and the loader is hidden; a second
    [start_download] starts a worker on the same URL in the new directory.
    The first directory is still the recorded [tmp_dir] after the error (no
    handler removes it), and the second start resets neither the drumstick
    icons nor the set of icons that have bounced. *)
Theorem retry_after_error (w : Window.t) (dir dir2 msg : str) :
  forallb isspace (url_edit_text (loader w)) = false ->
  exists url w1 w2 w3,
    start_download w dir
    = (w1, [tempfile_mkdtemp "lobster_"; Thread_start_worker url dir])
    /\ dl_error w1 msg = (w2, [QMessageBox_critical "Download error" msg])
    /\ url_edit_visible (loader w2) = true /\ dl_btn_visible (loader w2) = true
    /\ dl_btn_enabled (loader w2) = true /\ poster_visible (loader w2) = true
    /\ loading_lbl_visible (loader w2) = false /\ drum_widget_visible (loader w2) = false
    /\ _dot_timer_active (loader w2) = false
    /\ MainUI.tmp_dir (trim w2) = Some dir
    /\ start_download w2 dir2
       = (w3, [tempfile_mkdtemp "lobster_"; Thread_start_worker url dir2])
    /\ MainUI.tmp_dir (trim w3) = Some dir2
    /\ drum_icons (loader w3) = drum_icons (loader w)
    /\ filled_once (loader w3) = filled_once (loader w).
Proof.
  intros Hurl.
  destruct (strip (url_edit_text (loader w))) as [| c r] eqn:E.
  { apply strip_nil in E. congruence. }
  exists (c :: r). unfold start_download at 1. rewrite E.
  eexists. eexists. eexists.
  split; [reflexivity |]. split; [reflexivity |].
  unfold start_download.
  cbn [loader set_loader dl_error fst Loader.url_edit_text].
  rewrite E. repeat split; reflexivity.
Qed.

Lemma retry_after_error_witness :
  let w := set_loader (Window.init 900)
             (Loader.mk (lit "https://youtu.be/x") true true true true false
                        (lit "Loading") false false 0 false (repeat false 10) []) in
  exists url w1 w2,
    start_download w (lit "/tmp/a")
    = (w1, [tempfile_mkdtemp "lobster_"; Thread_start_worker url (lit "/tmp/a")])
    /\ dl_error w1 (lit "no network") = (w2, [QMessageBox_critical "Download error" (lit "no network")])
    /\ MainUI.tmp_dir (trim w2) = Some (lit "/tmp/a").
Proof.
  cbv zeta.
  destruct (retry_after_error
              (set_loader (Window.init 900)
                 (Loader.mk (lit "https://youtu.be/x") true true true true false
                            (lit "Loading") false false 0 false (repeat false 10) []))
              (lit "/tmp/a") (lit "/tmp/b") (lit "no network"))
    as (url & w1 & w2 & w3 & H1 & H2 & _ & _ & _ & _ & _ & _ & _ & H10 & _).
  - vm_compute. reflexivity.
  - exists url, w1, w2. split; [exact H1 | split; [exact H2 | exact H10]].
Defined.

End SessionFacts.
